(** * The sales dashboard script [app1.py], embedded and verified

    The script reads an uploaded table into a pandas frame, lower-cases and
    trims the column labels, binds the amount column ([sales], else
    [revenue]), narrows the rows with four multiselect filters and renders
    three KPIs, two grouped bar/pie series and a date trend.

    Modelling decisions, all stated once here:
    - a cell is a number, a string, a timestamp or a missing value ([NaN],
      [NaT]); a number cell holds the rational its int64 or float64 stands
      for (infinite floats and booleans are no cells of the model);
    - a frame is its list of column labels and its rows, each row a list of
      cells read by position; [df[name]] is a series only when the label
      occurs once: on a label that occurs twice it is a frame, and every
      use the script makes of it raises;
    - what the script leaves to pandas and NumPy is a [Library]: the
      normalization of a label ([str.strip], [str.lower], both over
      Unicode), [pd.to_datetime], the additions and divisions of machine
      numbers where they round or wrap, whether a text column refuses to be
      averaged, and the order [sort_values] leaves equal sums in. Inside
      the range where machine addition is exact (whole numbers whose
      magnitudes add up to at most 2^53) the sums are computed here;
    - the widgets and the charts are outside the model: a multiselect is
      represented by the list of values it returns, a chart by the series it
      is given; [main] starts from the frame [load_data] returns, and
      [load_data] itself is modelled with the library readers [pd.read_csv]
      and [pd.read_excel] as parameters (its cache is not modelled);
    - an exception escaping a library call ends the script run and is the
      outcome [Raised]. *)

From Stdlib Require Import List Bool Arith ZArith QArith Qcanon Lia.
From Stdlib Require Import Ascii String.
From Stdlib Require Import Sorted Permutation.
Import ListNotations.

Local Close Scope Q_scope.
Local Open Scope string_scope.
Local Open Scope list_scope.
Local Open Scope nat_scope.

(** ** Cells *)

Inductive value : Type :=
| VNum (q : Qc)        (* int64 / float64 *)
| VStr (s : string)    (* str *)
| VDate (t : Z)        (* Timestamp, as nanoseconds since the epoch *)
| VNaN.                (* NaN / NaT / None *)

Definition value_eqb (a b : value) : bool :=
  match a, b with
  | VNum x, VNum y => Qc_eq_bool x y
  | VStr x, VStr y => String.eqb x y
  | VDate x, VDate y => Z.eqb x y
  | VNaN, VNaN => true
  | _, _ => false
  end.

Definition isna (v : value) : bool :=
  match v with VNaN => true | _ => false end.

(** ** What a reduction returns *)

(** A sum or a mean is a machine number: a rational, an infinity or [nan]. *)
Inductive number : Type :=
| Finite (q : Qc)
| Infinite (positive : bool)
| NotANumber.

(** A grouped series: the group keys with their sums. *)
Definition series : Type := list (value * number).

(** ** The library *)

Record Library : Type := mkLibrary {
  (** [str.strip().str.lower()] on one label, over Unicode. *)
  normalize : string -> string;
  (** [pd.to_datetime(..., errors="coerce")] on one cell that is neither
      missing nor a timestamp already, given the column it stands in (the
      library may infer a format from the column): [None] is [NaT]. *)
  parse_datetime : list value -> value -> option Z;
  (** Whether a column of text has a dtype of its own that refuses
      [mean()] (the string dtype), or is a column of objects. *)
  text_refused : bool;
  (** [Series.sum()] and [Series.mean()] outside the exact range, given the
      column the cells were selected from (it fixes the dtype, int64 or
      float64) and the cells: the sum wraps or rounds. *)
  sum_of : list value -> list value -> number;
  mean_of : list value -> list value -> number;
  (** The same for the sum of one group of [groupby(...).sum()]. *)
  group_sum_of : list value -> list value -> number;
  (** The float64 quotient of two numbers. *)
  float_div : Qc -> Qc -> Qc;
  (** Which of two keys with equal sums [sort_values] puts first, given the
      series it sorts: the default sort is not stable. *)
  tie_before : series -> value -> value -> bool
}.

(** ** Column labels: [str.strip()] and [str.lower()] on ASCII labels

    The normalization of the examples; it agrees with the library on labels
    in the ASCII range. *)

Module Label.

(** The ASCII characters for which Python's [str.isspace] holds. *)
Definition isspace (c : ascii) : bool :=
  let n := nat_of_ascii c in
  ((9 <=? n) && (n <=? 13)) || ((28 <=? n) && (n <=? 32)).

Fixpoint lstrip (s : string) : string :=
  match s with
  | String c s' => if isspace c then lstrip s' else s
  | EmptyString => EmptyString
  end.

Fixpoint rstrip (s : string) : string :=
  match s with
  | String c s' =>
      match rstrip s' with
      | EmptyString => if isspace c then EmptyString else String c EmptyString
      | t => String c t
      end
  | EmptyString => EmptyString
  end.

Definition strip (s : string) : string := rstrip (lstrip s).

Definition lower_ascii (c : ascii) : ascii :=
  let n := nat_of_ascii c in
  if (65 <=? n) && (n <=? 90) then ascii_of_nat (n + 32) else c.

Fixpoint lower (s : string) : string :=
  match s with
  | String c s' => String (lower_ascii c) (lower s')
  | EmptyString => EmptyString
  end.

Definition normalize (s : string) : string := lower (strip s).

End Label.

(** ** Frames *)

Record DataFrame : Type := mkFrame {
  columns : list string;
  rows : list (list value)
}.

(** [df.empty]: some axis has length zero. *)
Definition empty (df : DataFrame) : bool :=
  match columns df, rows df with
  | [], _ => true
  | _, [] => true
  | _, _ => false
  end.

(** [name in df.columns] *)
Definition has_column (name : string) (df : DataFrame) : bool :=
  existsb (String.eqb name) (columns df).

Fixpoint index_of (name : string) (labels : list string) : option nat :=
  match labels with
  | [] => None
  | l :: ls =>
      if String.eqb name l then Some 0
      else option_map S (index_of name ls)
  end.

(** How many columns carry a label. *)
Definition count_label (name : string) (labels : list string) : nat :=
  List.length (filter (String.eqb name) labels).

(** The cell of a row at a position; a row shorter than the header reads as
    missing there. *)
Definition cell (i : nat) (r : list value) : value := nth i r VNaN.

Fixpoint set_cell (i : nat) (v : value) (r : list value) : list value :=
  match i, r with
  | O, [] => [v]
  | O, _ :: r' => v :: r'
  | S i', [] => VNaN :: set_cell i' v []
  | S i', x :: r' => x :: set_cell i' v r'
  end.

(** One value written to every cell of a row whose label is [name], the
    labels counted from position [i]. *)
Fixpoint set_labelled (name : string) (labels : list string) (i : nat)
  (v : value) (r : list value) : list value :=
  match labels with
  | [] => r
  | l :: ls =>
      let r' := set_labelled name ls (S i) v r in
      if String.eqb name l then set_cell i v r' else r'
  end.

(** [df[name] = ...], the new cell computed from the row: a new column is
    appended; an existing one is overwritten in place, and so is every
    column carrying the label when several do. *)
Definition assign (name : string) (f : list value -> value) (df : DataFrame)
  : DataFrame :=
  if existsb (String.eqb name) (columns df)
  then mkFrame (columns df)
         (map (fun r => set_labelled name (columns df) 0 (f r) r) (rows df))
  else mkFrame (columns df ++ [name])
         (map (fun r => set_cell (List.length (columns df)) (f r) r) (rows df)).

(** [df.columns = df.columns.str.strip().str.lower()] *)
Definition normalize_columns (L : Library) (df : DataFrame) : DataFrame :=
  mkFrame (map (normalize L) (columns df)) (rows df).

(** ** Results and the error monad of a script run *)

Inductive stop : Type :=
| MissingAmount   (* st.error("Neither 'Sales' nor 'Revenue' ..."); st.stop() *)
| Raised.         (* an uncaught exception *)

Definition result (A : Type) : Type := (A + stop)%type.

Definition bind {A B : Type} (m : result A) (k : A -> result B) : result B :=
  match m with
  | inl a => k a
  | inr e => inr e
  end.

Notation "x <- m ;; k" := (bind m (fun x => k))
  (at level 61, m at next level, right associativity).

Definition ok {A : Type} (a : A) : result A := inl a.
Definition raise {A : Type} : result A := inr Raised.

(** [df[name]] used as a series: a [KeyError] is raised when no column
    carries the label; when several do, [df[name]] is a frame and what the
    script does with it raises ([.unique()] is no attribute of a frame, a
    frame cannot be assigned to one column, [pd.to_datetime] wants year,
    month and day columns, a series of sums cannot be formatted). *)
Definition position (name : string) (df : DataFrame) : result nat :=
  match index_of name (columns df) with
  | Some i => if count_label name (columns df) =? 1 then ok i else raise
  | None => raise
  end.

(** [df[name]] as the list of its cells, when it is a series. *)
Definition column (name : string) (df : DataFrame) : option (list value) :=
  match position name df with
  | inl i => Some (map (cell i) (rows df))
  | inr _ => None
  end.

(** ** Resolution of the amount column (lines 50 to 59) *)

(** [df[dst] = df[src]]. When [src] is carried by several columns the
    assignment raises [ValueError]; should [dst] be carried by as many, the
    frame is assigned column by column and the run raises at line 124
    instead, where the series of sums is formatted: [Raised] either way. *)
Definition copy_column (src dst : string) (df : DataFrame) : result DataFrame :=
  i <- position src df ;;
  ok (assign dst (cell i) df).

Definition resolve_amount (L : Library) (df : DataFrame) : result DataFrame :=
  let df := normalize_columns L df in
  if has_column "sales" df then copy_column "sales" "sales_amount" df
  else if has_column "revenue" df then copy_column "revenue" "sales_amount" df
  else inr MissingAmount.

(** The product and the region column (lines 61 to 77). *)
Definition product_column (df : DataFrame) : option string :=
  if has_column "productline" df then Some "productline"
  else if has_column "product_category" df then Some "product_category"
  else if has_column "product" df then Some "product"
  else if has_column "products" df then Some "products"
  else None.

Definition region_column (df : DataFrame) : option string :=
  if has_column "region" df then Some "region"
  else if has_column "country" df then Some "country"
  else None.

(** ** The sidebar filters (lines 79 to 116) *)

(** What the four multiselect widgets return. *)
Record Selections : Type := mkSelections {
  product_filter : list value;
  region_filter : list value;
  status_filter : list value;
  year_filter : list value
}.

(** [Series.isin]: membership, a missing value matching a missing value. *)
Definition isin (sel : list value) (v : value) : bool :=
  existsb (value_eqb v) sel.

(** [df[df[name].isin(sel)]], after [df[name].unique()] for the options. *)
Definition select_isin (name : string) (sel : list value) (df : DataFrame)
  : result DataFrame :=
  i <- position name df ;;
  ok (mkFrame (columns df) (filter (fun r => isin sel (cell i r)) (rows df))).

Definition is_str (v : value) : bool :=
  match v with VStr _ => true | _ => false end.
Definition is_num (v : value) : bool :=
  match v with VNum _ => true | _ => false end.
Definition is_date (v : value) : bool :=
  match v with VDate _ => true | _ => false end.

(** Python's [<] is undefined between a timestamp and a number, and between
    a string and anything else: sorting values of which two do not compare
    raises [TypeError]. *)
Definition dates_with_numbers (xs : list value) : bool :=
  existsb is_date xs && existsb is_num xs.

Definition comparable (xs : list value) : bool :=
  negb (existsb is_str xs && existsb (fun v => negb (is_str v)) xs)
  && negb (dates_with_numbers xs).

(** The year filter: its options are [sorted(df["year_id"].unique())]. *)
Definition select_year (sel : list value) (df : DataFrame) : result DataFrame :=
  i <- position "year_id" df ;;
  if comparable (map (cell i) (rows df))
  then select_isin "year_id" sel df
  else raise.

Definition apply_filters (product_column region_column : option string)
  (sel : Selections) (df : DataFrame) : result DataFrame :=
  df <- match product_column with
        | Some c => select_isin c (product_filter sel) df
        | None => ok df
        end ;;
  df <- match region_column with
        | Some c => select_isin c (region_filter sel) df
        | None => ok df
        end ;;
  df <- (if has_column "status" df
         then select_isin "status" (status_filter sel) df
         else ok df) ;;
  if has_column "year_id" df then select_year (year_filter sel) df else ok df.

(** The default of every multiselect: [df[name].unique()], the distinct
    values in order of first appearance. *)
Fixpoint unique (xs : list value) : list value :=
  match xs with
  | [] => []
  | x :: xs' => x :: filter (fun y => negb (value_eqb x y)) (unique xs')
  end.

(** ** KPIs (lines 118 to 126) *)

Definition Qc_of_nat (n : nat) : Qc := Q2Qc (inject_Z (Z.of_nat n)).

(** The amount a cell adds to a sum that skips missing values. *)
Definition amount (v : value) : Qc :=
  match v with VNum q => q | _ => 0%Qc end.

Definition nansum (xs : list value) : Qc :=
  fold_right (fun v acc => (amount v + acc)%Qc) 0%Qc xs.

(** [Series.count()]: the cells that are not missing. *)
Definition count_valid (xs : list value) : nat :=
  List.length (filter (fun v => negb (isna v)) xs).

Definition numeric (v : value) : bool :=
  match v with VNum _ | VNaN => true | _ => false end.

(** A column read as timestamps (datetime64) and a column read as text. A
    selection of rows keeps the dtype of the column, whatever rows remain. *)
Definition datetime_column (xs : list value) : bool :=
  existsb is_date xs && forallb (fun v => is_date v || isna v) xs.

Definition text_column (xs : list value) : bool :=
  existsb is_str xs && forallb (fun v => is_str v || isna v) xs.

(** A reduction refused by dtype, before any cell is read: timestamps
    cannot be summed, and a string dtype has no mean. *)
Definition refused (L : Library) (origin : list value) : bool :=
  datetime_column origin || (text_column origin && text_refused L).

(** The range in which int64 and float64 addition are exact in every
    order: whole numbers whose magnitudes add up to at most 2^53. *)
Definition whole (v : value) : bool :=
  match v with
  | VNum q => Pos.eqb (Qden q) 1
  | VNaN => true
  | _ => false
  end.

Definition magnitude (v : value) : Z :=
  match v with VNum q => Z.abs (Qnum q) | _ => 0%Z end.

Definition weight (xs : list value) : Z :=
  fold_right (fun v acc => magnitude v + acc)%Z 0%Z xs.

Definition exact (xs : list value) : bool :=
  forallb whole xs && (weight xs <=? 2 ^ 53)%Z.

(** [Series.sum()], default [skipna=True], on cells selected from the
    column [origin]; strings or timestamps among the cells end in a
    [TypeError], here or when the result is formatted. *)
Definition series_sum (L : Library) (origin xs : list value) : result number :=
  if refused L origin then raise
  else if forallb numeric xs
  then ok (if exact xs then Finite (nansum xs) else sum_of L origin xs)
  else raise.

(** [Series.mean()], default [skipna=True]: the sum over the number of
    valid cells in float64, [nan] when no cell is valid. *)
Definition series_mean (L : Library) (origin xs : list value) : result number :=
  if refused L origin then raise
  else if forallb numeric xs
  then ok (if exact xs
           then match count_valid xs with
                | O => NotANumber
                | n => Finite (float_div L (nansum xs) (Qc_of_nat n))
                end
           else mean_of L origin xs)
  else raise.

Record KPIs : Type := mkKPIs {
  total_sales : number;
  avg_sales : number;
  num_transactions : nat
}.

(** Lines 119 to 126 on the frame [df], whose rows were selected from the
    frame [source]. *)
Definition kpis (L : Library) (source df : DataFrame) : result KPIs :=
  i <- position "sales_amount" df ;;
  let origin := map (cell i) (rows source) in
  let xs := map (cell i) (rows df) in
  total <- series_sum L origin xs ;;
  avg <- series_mean L origin xs ;;
  ok (mkKPIs total avg (List.length (rows df))).

(** ** Grouped series (lines 130 to 161) *)

(** The order in which [groupby] lays out its keys (default [sort=True]):
    numbers and timestamps before strings. *)
Definition value_ltb (a b : value) : bool :=
  match a, b with
  | VNum x, VNum y => negb (Qle_bool y x)
  | VDate x, VDate y => Z.ltb x y
  | VStr x, VStr y => String.ltb x y
  | VNum _, VStr _ => true
  | VDate _, VStr _ => true
  | _, _ => false
  end.

(** The groups of a [groupby]: each key with the amount cells of its rows,
    in row order. *)
Definition groups : Type := list (value * list value).

(** One row joins its group; the groups are kept in ascending key order. *)
Fixpoint add_to_group (k a : value) (gs : groups) : groups :=
  match gs with
  | [] => [(k, [a])]
  | (x, cs) :: gs' =>
      if value_eqb k x then (x, cs ++ [a]) :: gs'
      else if value_ltb k x then (k, [a]) :: gs
      else (x, cs) :: add_to_group k a gs'
  end.

Definition add_row (key amt : nat) (gs : groups) (r : list value) : groups :=
  if isna (cell key r) then gs
  else add_to_group (cell key r) (cell amt r) gs.

(** The sum of one group, missing amounts skipped. *)
Definition group_sum (L : Library) (origin cs : list value) : number :=
  if exact cs then Finite (nansum cs) else group_sum_of L origin cs.

Definition sums (L : Library) (origin : list value) (gs : groups) : series :=
  map (fun g => (fst g, group_sum L origin (snd g))) gs.

(** [df.groupby(key)[amt].sum()], defaults [sort=True, dropna=True]: a row
    whose key is missing belongs to no group; keys that mix timestamps and
    numbers cannot be laid out in order. The script groups a frame only
    after lines 119 to 126 went through on it, where every amount cell was
    found to be a number or missing; on other cells the model raises as
    those lines do. *)
Definition groupby_sum (L : Library) (origin : list value) (key amt : nat)
  (rs : list (list value)) : result series :=
  if dates_with_numbers (map (cell key) rs) then raise
  else if forallb numeric (map (cell amt) rs)
  then ok (sums L origin (fold_left (add_row key amt) rs []))
  else raise.

(** The order of sums: [nan] below every number. *)
Definition number_leb (a b : number) : bool :=
  match a, b with
  | NotANumber, _ => true
  | _, NotANumber => false
  | Infinite false, _ => true
  | _, Infinite false => false
  | _, Infinite true => true
  | Infinite true, _ => false
  | Finite x, Finite y => Qle_bool x y
  end.

(** [x] is put before [y]: its sum is larger, or the sums are equal and the
    library puts its key first. *)
Definition goes_first (first : value -> value -> bool) (x y : value * number)
  : bool :=
  number_leb (snd y) (snd x)
  && (negb (number_leb (snd x) (snd y)) || first (fst x) (fst y)).

(** [sort_values(ascending=False)] on the sums: descending, [nan] last,
    equal sums in the order the library leaves them in. *)
Fixpoint insert_desc (first : value -> value -> bool) (x : value * number)
  (l : series) : series :=
  match l with
  | [] => [x]
  | y :: ys =>
      if goes_first first x y then x :: l else y :: insert_desc first x ys
  end.

Definition sort_values_desc (L : Library) (l : series) : series :=
  fold_right (insert_desc (tie_before L l)) [] l.

(** [sort_values("orderdate")]: ascending by key, equal keys left in place. *)
Fixpoint insert_by_key (x : value * number) (l : series) : series :=
  match l with
  | [] => [x]
  | y :: ys =>
      if value_ltb (fst y) (fst x) then y :: insert_by_key x ys else x :: l
  end.

Definition sort_values_key (l : series) : series :=
  fold_right insert_by_key [] l.

(** [df.groupby(c)["sales_amount"].sum().sort_values(ascending=False)] *)
Definition sales_by (L : Library) (source : DataFrame) (c : string)
  (df : DataFrame) : result series :=
  key <- position c df ;;
  amt <- position "sales_amount" df ;;
  gs <- groupby_sum L (map (cell amt) (rows source)) key amt (rows df) ;;
  ok (sort_values_desc L gs).

Definition sales_by_opt (L : Library) (source : DataFrame) (c : option string)
  (df : DataFrame) : result (option series) :=
  match c with
  | Some c => s <- sales_by L source c df ;; ok (Some s)
  | None => ok None
  end.

(** ** The trend and the whole script (lines 41 to 185) *)

Definition to_datetime (L : Library) (col : list value) (v : value) : value :=
  match v with
  | VNaN => VNaN
  | VDate t => VDate t
  | _ => match parse_datetime L col v with
         | Some t => VDate t
         | None => VNaN
         end
  end.

(** The parsed date of a row of [df], as line 165 computes it. *)
Definition date_of (L : Library) (i : nat) (df : DataFrame) (r : list value)
  : value :=
  to_datetime L (map (cell i) (rows df)) (cell i r).

(** Line 165 on one row. *)
Definition with_date (L : Library) (i : nat) (df : DataFrame) (r : list value)
  : list value :=
  set_cell i (date_of L i df r) r.

(** The rows line 166 keeps. *)
Definition parsable (L : Library) (i : nat) (df : DataFrame) (r : list value)
  : bool :=
  negb (isna (date_of L i df r)).

(** What the trend block does to the frame: the object [df] named on
    entry, as the assignment of line 165 leaves it, and the frame [df]
    names after line 166. *)
Record Frames : Type := mkFrames {
  df_object : DataFrame;
  df_binding : DataFrame
}.

(** [df.dropna(subset=[name])] *)
Definition dropna (i : nat) (df : DataFrame) : DataFrame :=
  mkFrame (columns df) (filter (fun r => negb (isna (cell i r))) (rows df)).

Definition trend (L : Library) (source df : DataFrame)
  : result (option series * Frames) :=
  if has_column "orderdate" df then
    i <- position "orderdate" df ;;
    let col := map (cell i) (rows df) in
    let parsed := assign "orderdate" (fun r => to_datetime L col (cell i r)) df in
    let kept := dropna i parsed in
    amt <- position "sales_amount" kept ;;
    gs <- groupby_sum L (map (cell amt) (rows source)) i amt (rows kept) ;;
    ok (Some (sort_values_key gs), mkFrames parsed kept)
  else ok (None, mkFrames df df).

(** Everything the script hands to the page after the filters. *)
Record AggregateResult : Type := mkAggregate {
  metrics : KPIs;
  sales_by_product : option series;
  sales_by_region : option series;
  sales_trend : option series
}.

(** Lines 118 to 180 on the filtered frame [df], whose rows were selected
    from the frame [source]. *)
Definition aggregate (L : Library) (source : DataFrame)
  (product_column region_column : option string) (df : DataFrame)
  : result (AggregateResult * Frames) :=
  k <- kpis L source df ;;
  p <- sales_by_opt L source product_column df ;;
  r <- sales_by_opt L source region_column df ;;
  t <- trend L source df ;;
  ok (mkAggregate k p r (fst t), snd t).

(** Lines 50 to 116: the frame with its amount column bound, the product
    and region columns, and the frame the filters leave. *)
Definition filtered (L : Library) (sel : Selections) (df : DataFrame)
  : result (DataFrame * option string * option string * DataFrame) :=
  d <- resolve_amount L df ;;
  let pc := product_column d in
  let rc := region_column d in
  f <- apply_filters pc rc sel d ;;
  ok (d, pc, rc, f).

(** Lines 50 to 180, for a frame that is not empty. *)
Definition pipeline (L : Library) (sel : Selections) (df : DataFrame)
  : result AggregateResult :=
  b <- filtered L sel df ;;
  let '(d, pc, rc, f) := b in
  a <- aggregate L d pc rc f ;;
  ok (fst a).

Inductive Outcome : Type :=
| AwaitingInput                          (* st.info: no file uploaded *)
| NoData                                 (* st.warning: the frame is empty *)
| Stopped (s : stop)
| Rendered (r : AggregateResult).

Definition main (L : Library) (uploaded_file : option DataFrame)
  (sel : Selections) : Outcome :=
  match uploaded_file with
  | None => AwaitingInput
  | Some df =>
      if empty df then NoData
      else match pipeline L sel df with
           | inl r => Rendered r
           | inr s => Stopped s
           end
  end.
(** ** A parser for the worked examples

    The examples below need some instance of the library parser. This one
    reads exactly the strings [YYYY-MM-DD] that name a calendar day and
    returns midnight of that day. *)

Module IsoDate.

Definition digit (c : ascii) : option Z :=
  let n := nat_of_ascii c in
  if (48 <=? n) && (n <=? 57) then Some (Z.of_nat (n - 48)) else None.

Fixpoint digits (acc : Z) (cs : list ascii) : option Z :=
  match cs with
  | [] => Some acc
  | c :: cs' =>
      match digit c with
      | Some d => digits (10 * acc + d)%Z cs'
      | None => None
      end
  end.

Definition leap (y : Z) : bool :=
  ((y mod 4 =? 0) && negb (y mod 100 =? 0) || (y mod 400 =? 0))%Z.

Definition days_in_month (y m : Z) : Z :=
  (if m =? 2 then (if leap y then 29 else 28)
   else if (m =? 4) || (m =? 6) || (m =? 9) || (m =? 11) then 30
   else 31)%Z.

(** Days from 1970-01-01 to the given civil date. *)
Definition days_from_civil (y m d : Z) : Z :=
  (let y' := if m <=? 2 then y - 1 else y in
   let era := y' / 400 in
   let yoe := y' - era * 400 in
   let mp := if m >? 2 then m - 3 else m + 9 in
   let doy := (153 * mp + 2) / 5 + d - 1 in
   let doe := yoe * 365 + yoe / 4 - yoe / 100 + doy in
   era * 146097 + doe - 719468)%Z.

Definition parse_string (s : string) : option Z :=
  match list_ascii_of_string s with
  | [y1; y2; y3; y4; "-"%char; m1; m2; "-"%char; d1; d2] =>
      match digits 0 [y1; y2; y3; y4], digits 0 [m1; m2], digits 0 [d1; d2] with
      | Some y, Some m, Some d =>
          if ((1 <=? m) && (m <=? 12) && (1 <=? d) && (d <=? days_in_month y m))%Z
          then Some (days_from_civil y m d * 86400000000000)%Z
          else None
      | _, _, _ => None
      end
  | _ => None
  end.

Definition parse (col : list value) (v : value) : option Z :=
  match v with
  | VStr s => parse_string s
  | _ => None
  end.

End IsoDate.

(** ** A library for the worked examples

    ASCII labels, ISO dates, text columns of objects, sums and quotients of
    unbounded precision, and equal sums left with the larger key first. The
    examples stay where every library agrees with this one: ASCII labels,
    amounts in the exact range, quotients that are whole. *)
Definition examples : Library :=
  mkLibrary Label.normalize IsoDate.parse false
    (fun _ xs => Finite (nansum xs))
    (fun _ xs => match count_valid xs with
                 | O => NotANumber
                 | n => Finite (nansum xs / Qc_of_nat n)%Qc
                 end)
    (fun _ xs => Finite (nansum xs))
    Qcdiv
    (fun _ a b => value_ltb b a).

(** Numbers and strings as they are written in the examples. *)
Definition num (z : Z) : value := VNum (Q2Qc (inject_Z z)).
Definition str (s : string) : value := VStr s.

(** ** Reading the upload (lines 15 to 45) *)

(** [str.endswith] *)
Fixpoint endswith (suffix s : string) : bool :=
  String.eqb suffix s ||
  match s with
  | String _ s' => endswith suffix s'
  | EmptyString => false
  end.

(** What the uploader hands over: the name of the file and its bytes. *)
Record UploadedFile : Type := mkFile {
  file_name : string;
  content : list ascii
}.

(** What a reader of the library raises. *)
Inductive read_error : Type :=
| EmptyDataError     (* pd.errors.EmptyDataError *)
| OtherError.        (* any other exception *)

(** The three messages of [load_data]. *)
Inductive notice : Type :=
| UnsupportedType    (* "Unsupported file type. ..." *)
| EmptyOrInvalid     (* "The uploaded file is empty or invalid." *)
| ReadFailed.        (* "Error while reading the file: ..." *)

(** [pd.DataFrame()] *)
Definition empty_frame : DataFrame := mkFrame [] [].

Section Loading.

(** [pd.read_csv] and [pd.read_excel], on the bytes of the file. *)
Variable read_csv : list ascii -> DataFrame + read_error.
Variable read_excel : list ascii -> DataFrame + read_error.

(** The [try] block of [load_data] around one reader. *)
Definition guarded (r : DataFrame + read_error) : DataFrame * option notice :=
  match r with
  | inl df => (df, None)
  | inr EmptyDataError => (empty_frame, Some EmptyOrInvalid)
  | inr OtherError => (empty_frame, Some ReadFailed)
  end.

(** The frame [load_data] returns and the message it shows, if any. *)
Definition load_data (file : UploadedFile) : DataFrame * option notice :=
  if endswith ".csv" (file_name file) then guarded (read_csv (content file))
  else if endswith ".xlsx" (file_name file) then guarded (read_excel (content file))
  else (empty_frame, Some UnsupportedType).

(** The script from the uploader on (lines 15 to 185). *)
Definition dashboard (L : Library) (uploaded_file : option UploadedFile)
  (sel : Selections) : Outcome :=
  main L (option_map (fun file => fst (load_data file)) uploaded_file) sel.

End Loading.


(** ** The vocabulary of the statements *)

(** [subseq l l']: [l] is [l'] with some elements removed, the others in
    their order. *)
Inductive subseq {A : Type} : list A -> list A -> Prop :=
| subseq_nil : subseq [] []
| subseq_skip x l l' : subseq l l' -> subseq l (x :: l')
| subseq_keep x l l' : subseq l l' -> subseq (x :: l) (x :: l').

(** A step of [apply_filters]: it either leaves the frame alone or keeps the
    rows that pass a test. *)
Definition narrows (df f : DataFrame) : Prop :=
  columns f = columns df /\ subseq (rows f) (rows df).

(** Closed equations between results: rationals are compared by value. *)
Ltac by_computation :=
  vm_compute;
  repeat match goal with
         | |- _ /\ _ => split
         | |- @eq Qc _ _ => apply Qc_is_canon; vm_compute; reflexivity
         | |- _ = _ => reflexivity
         | |- _ = _ => progress f_equal
         | |- _ -> False =>
             let H := fresh in
             intros H;
             first [ discriminate H
                   | apply (f_equal (option_map this)) in H; discriminate H ]
         end.

(** The sum of the amounts of a series, when all of them are finite. *)
Fixpoint mass (s : series) : option Qc :=
  match s with
  | [] => Some 0%Qc
  | (_, Finite q) :: s' => option_map (Qcplus q) (mass s')
  | _ => None
  end.

(** The rows [groupby] puts into a group: those whose key is not missing. *)
Definition keyed (key : nat) (rs : list (list value)) : list (list value) :=
  filter (fun r => negb (isna (cell key r))) rs.

(** All the amount cells of the groups. *)
Definition cells_of (gs : groups) : list value := List.concat (map snd gs).

(** A table of three product rows. *)
Definition products_table : DataFrame :=
  mkFrame ["productline"; "sales_amount"]
    [[str "A"; num 100]; [str "B"; num 50]; [str "A"; num 30]].

Definition jan_5_2024 : Z := 1704412800000000000.

(** Two orders, and the selections that deselect every region. *)
Definition two_orders : DataFrame :=
  mkFrame ["Sales"; "Product"; "Region"; "OrderDate"]
    [[num 20; str "A"; str "EMEA"; str "2024-03-01"];
     [num 30; str "B"; str "APAC"; str "2024-03-02"]].

Definition two_orders_resolved : DataFrame :=
  mkFrame ["sales"; "product"; "region"; "orderdate"; "sales_amount"]
    [[num 20; str "A"; str "EMEA"; str "2024-03-01"; num 20];
     [num 30; str "B"; str "APAC"; str "2024-03-02"; num 30]].

Definition no_region : Selections :=
  mkSelections [str "A"; str "B"] [] [] [].

(** An upload whose amounts were read as timestamps. *)
Definition dated_amounts : DataFrame :=
  mkFrame ["Sales"; "Region"] [[VDate jan_5_2024; str "EMEA"]].

(** Two keys that [groupby] can lay out in one order: none missing, and not
    a timestamp against a number. *)
Definition ordered_pair (a b : value) : Prop :=
  isna a = false /\ isna b = false /\
  (is_date a && is_num b) || (is_num a && is_date b) = false.

Definition key_lt {A : Type} (a b : value * A) : Prop :=
  value_ltb (fst a) (fst b) = true.

(** The order of a category series: no sum is below a later one. *)
Definition descending (a b : value * number) : Prop :=
  number_leb (snd b) (snd a) = true.

(** The place at which a key is first met in a column. *)
Fixpoint first_seen (k : value) (keys : list value) : nat :=
  match keys with
  | [] => 0
  | x :: xs => if value_eqb k x then 0 else S (first_seen k xs)
  end.

(** A series whose equal sums stand in the order in which their keys are
    first met in the column [keys]. *)
Fixpoint ties_first_seen (keys : list value) (s : series) : bool :=
  match s with
  | [] => true
  | x :: s' =>
      forallb (fun y =>
                 negb (number_leb (snd x) (snd y) && number_leb (snd y) (snd x))
                 || (first_seen (fst x) keys <? first_seen (fst y) keys)) s'
      && ties_first_seen keys s'
  end.

(** Two products with equal sales, in either row order. *)
Definition tie_A_then_B : DataFrame :=
  mkFrame ["product"; "sales_amount"] [[str "A"; num 10]; [str "B"; num 10]].

Definition tie_B_then_A : DataFrame :=
  mkFrame ["product"; "sales_amount"] [[str "B"; num 10]; [str "A"; num 10]].

(** Three products, two of them with equal sales. *)
Definition three_products : DataFrame :=
  mkFrame ["product"; "sales_amount"]
    [[str "C"; num 30]; [str "B"; num 70]; [str "A"; num 30]].

(** The amount cells [groupby] hands to a key: those of the rows that carry
    it, in row order. *)
Definition group_cells (key amt : nat) (k : value) (rs : list (list value))
  : list value :=
  map (cell amt) (filter (fun r => value_eqb (cell key r) k) rs).

(** What a list of groups or a series holds for a key. *)
Fixpoint get {A : Type} (k : value) (gs : list (value * A)) : option A :=
  match gs with
  | [] => None
  | (x, s) :: gs' => if value_eqb k x then Some s else get k gs'
  end.

(** A category chart drawn from every row of the table [df]: none when no
    column is bound; else a series that has a group for every row whose
    key is not missing and, where the amounts are in the exact range, sums
    that add up to the amounts of all these rows. *)
Definition covers_all_rows (df : DataFrame) (amt : nat) (c : option string)
  (chart : option series) : Prop :=
  match c with
  | None => chart = None
  | Some c =>
      exists key s,
        position c df = inl key /\
        chart = Some s /\
        (forall row, In row (rows df) -> isna (cell key row) = false ->
                     In (cell key row) (map fst s)) /\
        (exact (map (cell amt) (rows df)) = true ->
         mass s = Some (nansum (map (cell amt) (keyed key (rows df)))))
  end.

(** ** The tables of the examples *)

Definition jan_6_2024 : Z := 1704499200000000000.

(** An upload with a product, a region and four dates, one of which does
    not parse; the table the default selections make of it, and what the
    aggregation returns and leaves. *)
Definition dated_upload : DataFrame :=
  mkFrame ["OrderDate"; "Product"; "Region"; "Sales"]
    [[str "2024-01-06"; str "A"; str "EMEA"; num 100];
     [str "soon"; str "B"; str "EMEA"; num 50];
     [str "2024-01-05"; str "B"; str "APAC"; num 30];
     [str "2024-01-06"; str "A"; str "APAC"; num 20]].

Definition dated_selections : Selections :=
  mkSelections [str "A"; str "B"] [str "EMEA"; str "APAC"] [] [].

Definition dated_table : DataFrame :=
  mkFrame ["orderdate"; "product"; "region"; "sales"; "sales_amount"]
    [[str "2024-01-06"; str "A"; str "EMEA"; num 100; num 100];
     [str "soon"; str "B"; str "EMEA"; num 50; num 50];
     [str "2024-01-05"; str "B"; str "APAC"; num 30; num 30];
     [str "2024-01-06"; str "A"; str "APAC"; num 20; num 20]].

Definition dated_result : AggregateResult :=
  mkAggregate (mkKPIs (Finite (Q2Qc 200)) (Finite (Q2Qc 50)) 4)
    (Some [(str "A", Finite (Q2Qc 120)); (str "B", Finite (Q2Qc 80))])
    (Some [(str "EMEA", Finite (Q2Qc 150)); (str "APAC", Finite (Q2Qc 50))])
    (Some [(VDate jan_5_2024, Finite (Q2Qc 30));
           (VDate jan_6_2024, Finite (Q2Qc 120))]).

Definition dated_frames : Frames :=
  mkFrames
    (mkFrame ["orderdate"; "product"; "region"; "sales"; "sales_amount"]
       [[VDate jan_6_2024; str "A"; str "EMEA"; num 100; num 100];
        [VNaN; str "B"; str "EMEA"; num 50; num 50];
        [VDate jan_5_2024; str "B"; str "APAC"; num 30; num 30];
        [VDate jan_6_2024; str "A"; str "APAC"; num 20; num 20]])
    (mkFrame ["orderdate"; "product"; "region"; "sales"; "sales_amount"]
       [[VDate jan_6_2024; str "A"; str "EMEA"; num 100; num 100];
        [VDate jan_5_2024; str "B"; str "APAC"; num 30; num 30];
        [VDate jan_6_2024; str "A"; str "APAC"; num 20; num 20]]).

(** Two rows that agree in every cell whose label is not [revenue]. *)
Definition off_revenue (labels : list string) (r r' : list value) : Prop :=
  forall k, nth_error labels k <> Some "revenue" -> cell k r = cell k r'.

(** Two frames with the same labels whose rows agree, one by one, outside
    the columns labelled [revenue]. *)
Definition sim (a b : DataFrame) : Prop :=
  columns a = columns b /\
  Forall2 (off_revenue (columns a)) (rows a) (rows b).

(** Two runs that end alike: the same error, or results related by [R]. *)
Definition rel_result {A : Type} (R : A -> A -> Prop) (m m' : result A) : Prop :=
  match m, m' with
  | inl x, inl y => R x y
  | inr e, inr e' => e = e'
  | _, _ => False
  end.

(** Two uploads with the same labels whose rows differ at most in the
    columns that normalize to [revenue]. *)
Definition same_but_revenue (L : Library) (df df' : DataFrame) : Prop :=
  sim (normalize_columns L df) (normalize_columns L df').

(** An upload with every column the script knows, resolved, and filtered
    to the shipped cars of 2003. *)
Definition orders_upload : DataFrame :=
  mkFrame [" Sales"; "Revenue"; "ProductLine"; "Country"; "Status"; "YEAR_ID"]
    [[num 100; num 1; str "Cars"; str "US"; str "Shipped"; num 2003];
     [num 50; num 2; str "Ships"; str "US"; str "Shipped"; num 2004];
     [num 30; num 3; str "Cars"; str "FR"; str "Cancelled"; num 2003];
     [num 20; num 4; str "Cars"; str "US"; str "Shipped"; num 2003]].

Definition orders_resolved : DataFrame :=
  mkFrame ["sales"; "revenue"; "productline"; "country"; "status"; "year_id";
           "sales_amount"]
    [[num 100; num 1; str "Cars"; str "US"; str "Shipped"; num 2003; num 100];
     [num 50; num 2; str "Ships"; str "US"; str "Shipped"; num 2004; num 50];
     [num 30; num 3; str "Cars"; str "FR"; str "Cancelled"; num 2003; num 30];
     [num 20; num 4; str "Cars"; str "US"; str "Shipped"; num 2003; num 20]].

Definition orders_filtered : DataFrame :=
  mkFrame ["sales"; "revenue"; "productline"; "country"; "status"; "year_id";
           "sales_amount"]
    [[num 100; num 1; str "Cars"; str "US"; str "Shipped"; num 2003; num 100];
     [num 20; num 4; str "Cars"; str "US"; str "Shipped"; num 2003; num 20]].

Definition cars_us_2003 : Selections :=
  mkSelections [str "Cars"] [str "US"; str "FR"] [str "Shipped"] [num 2003].

(** An upload in which two labels normalize to [sales]. *)
Definition two_sales_columns : DataFrame :=
  mkFrame ["Sales"; " sales "; "Revenue"] [[num 10; num 20; num 30]].

(** A string that does not begin with white space. *)
Definition no_leading_space (s : string) : Prop :=
  match s with
  | String c _ => Label.isspace c = false
  | EmptyString => True
  end.

(** An upload whose amounts are in a column labelled revenue. *)
Definition revenue_upload : DataFrame :=
  mkFrame ["Region"; " REVENUE "] [[str "EMEA"; num 20]; [str "APAC"; num 5]].

(** ** More vocabulary: filters, options, file names *)

(** The test one multiselect puts on a row: none when no column is bound. *)
Definition accepts (labels : list string) (c : option string)
  (sel : list value) (r : list value) : bool :=
  match c with
  | Some c =>
      match index_of c labels with
      | Some i => isin sel (cell i r)
      | None => true
      end
  | None => true
  end.

(** The column a fixed label binds, if the table has it. *)
Definition bound (name : string) (labels : list string) : option string :=
  if existsb (String.eqb name) labels then Some name else None.

(** The four tests together. *)
Definition keeps (labels : list string) (pc rc : option string)
  (sel : Selections) (r : list value) : bool :=
  accepts labels pc (product_filter sel) r
  && accepts labels rc (region_filter sel) r
  && accepts labels (bound "status" labels) (status_filter sel) r
  && accepts labels (bound "year_id" labels) (year_filter sel) r.

(** The options a multiselect offers (and selects by default):
    [df[c].unique()]; for the year they are shown sorted. *)
Definition options (c : option string) (df : DataFrame) : list value :=
  match c with
  | Some c =>
      match column c df with
      | Some xs => unique xs
      | None => []
      end
  | None => []
  end.

(** The last character of a string. *)
Fixpoint last_char (s : string) : option ascii :=
  match s with
  | EmptyString => None
  | String c EmptyString => Some c
  | String _ s' => last_char s'
  end.

(** The product rows in another order. *)
Definition products_reordered : DataFrame :=
  mkFrame ["productline"; "sales_amount"]
    [[str "A"; num 30]; [str "A"; num 100]; [str "B"; num 50]].

(** The selections every multiselect starts with on the orders upload, and
    the page they give. *)
Definition every_order : Selections :=
  mkSelections [str "Cars"; str "Ships"] [str "US"; str "FR"]
    [str "Shipped"; str "Cancelled"] [num 2003; num 2004].

Definition every_order_page : AggregateResult :=
  mkAggregate (mkKPIs (Finite (Q2Qc 200)) (Finite (Q2Qc 50)) 4)
    (Some [(str "Cars", Finite (Q2Qc 150)); (str "Ships", Finite (Q2Qc 50))])
    (Some [(str "US", Finite (Q2Qc 170)); (str "FR", Finite (Q2Qc 30))])
    None.

(** ** Column lookups *)

Lemma has_column_In (name : string) (df : DataFrame) :
  has_column name df = true <-> In name (columns df).
Proof.
  unfold has_column. rewrite existsb_exists. split.
  - intros [l [Hin Heq]]. apply String.eqb_eq in Heq. now subst.
  - intros Hin. exists name. split; [assumption | apply String.eqb_refl].
Qed.

Lemma has_column_false (name : string) (df : DataFrame) :
  has_column name df = false <-> ~ In name (columns df).
Proof.
  rewrite <- has_column_In. destruct (has_column name df); intuition congruence.
Qed.

Lemma index_of_In (name : string) (labels : list string) :
  In name labels -> exists i, index_of name labels = Some i.
Proof.
  induction labels as [|l ls IH]; simpl; [tauto|].
  intros H. destruct (String.eqb_spec name l) as [->|Hne]; [now exists 0|].
  destruct H as [H|H]; [congruence|].
  destruct (IH H) as [i Hi]. exists (S i). now rewrite Hi.
Qed.

Lemma index_of_label (name : string) (labels : list string) (i : nat) :
  index_of name labels = Some i -> nth_error labels i = Some name.
Proof.
  revert i. induction labels as [|l ls IH]; simpl; [discriminate|].
  intros i. destruct (String.eqb_spec name l) as [->|Hne].
  - intros [= <-]. reflexivity.
  - destruct (index_of name ls) as [j|]; simpl; [|discriminate].
    intros [= <-]. now apply IH.
Qed.

Lemma position_inv (name : string) (df : DataFrame) (i : nat) :
  position name df = inl i -> index_of name (columns df) = Some i.
Proof.
  unfold position. destruct (index_of name (columns df)); [|discriminate].
  destruct (count_label name (columns df) =? 1); [|discriminate].
  now intros [= ->].
Qed.

Lemma position_once (name : string) (df : DataFrame) (i : nat) :
  position name df = inl i -> count_label name (columns df) = 1.
Proof.
  unfold position. destruct (index_of name (columns df)); [|discriminate].
  destruct (count_label name (columns df) =? 1) eqn:E; [|discriminate].
  intros _. now apply Nat.eqb_eq.
Qed.

Lemma position_found (name : string) (df : DataFrame) (i : nat) :
  index_of name (columns df) = Some i ->
  count_label name (columns df) = 1 ->
  position name df = inl i.
Proof. unfold position. now intros -> ->. Qed.

Lemma position_columns (name : string) (df df' : DataFrame) :
  columns df' = columns df -> position name df' = position name df.
Proof. unfold position. now intros ->. Qed.

Lemma has_column_columns (name : string) (df df' : DataFrame) :
  columns df' = columns df -> has_column name df' = has_column name df.
Proof. unfold has_column. now intros ->. Qed.

(** ** The missing amount column *)

Lemma resolve_amount_missing (L : Library) (df : DataFrame) :
  ~ In "sales" (map (normalize L) (columns df)) ->
  ~ In "revenue" (map (normalize L) (columns df)) ->
  resolve_amount L df = inr MissingAmount.
Proof.
  intros Hs Hr. unfold resolve_amount.
  assert (has_column "sales" (normalize_columns L df) = false) as ->
    by now apply has_column_false.
  assert (has_column "revenue" (normalize_columns L df) = false) as ->
    by now apply has_column_false.
  reflexivity.
Qed.

(** C1, as the script has it. For every uploaded table whose normalized
    column labels contain neither [sales] nor [revenue], no aggregate is ever
    rendered; the run ends with the missing-amount error when the table is
    not empty, and with the no-data warning, before resolution, when it is
    empty. *)
Theorem missing_amount_stops
  (L : Library) (df : DataFrame) (sel : Selections) :
  ~ In "sales" (map (normalize L) (columns df)) ->
  ~ In "revenue" (map (normalize L) (columns df)) ->
  (empty df = false -> main L (Some df) sel = Stopped MissingAmount) /\
  (empty df = true -> main L (Some df) sel = NoData) /\
  (forall r, main L (Some df) sel <> Rendered r).
Proof.
  intros Hs Hr. unfold main, pipeline, filtered.
  rewrite (resolve_amount_missing L df Hs Hr). simpl.
  destruct (empty df); repeat split; congruence.
Qed.

Lemma missing_amount_stops_witness :
  main examples
    (Some (mkFrame ["Order Id"; " Region "] [[num 1; str "EMEA"]]))
    (mkSelections [] [str "EMEA"] [] []) = Stopped MissingAmount.
Proof.
  apply (missing_amount_stops examples
           (mkFrame ["Order Id"; " Region "] [[num 1; str "EMEA"]])).
  - vm_compute. intuition discriminate.
  - vm_compute. intuition discriminate.
  - reflexivity.
Defined.

(** C1 as stated fails on a table without rows: a file holding only the
    header line [units,region] has neither amount label, and the script
    warns that no data was loaded instead of reporting the missing amount. *)
Lemma missing_amount_empty_table :
  ~ In "sales" (map (normalize examples) ["units"; "region"]) /\
  ~ In "revenue" (map (normalize examples) ["units"; "region"]) /\
  main examples (Some (mkFrame ["units"; "region"] []))
    (mkSelections [] [] [] []) = NoData /\
  main examples (Some (mkFrame ["units"; "region"] []))
    (mkSelections [] [] [] []) <> Stopped MissingAmount.
Proof.
  repeat split; try (vm_compute; intuition discriminate).
Qed.

(** ** The filters only remove rows *)

Lemma subseq_refl {A : Type} (l : list A) : subseq l l.
Proof. induction l; constructor; assumption. Qed.

Lemma subseq_trans {A : Type} (l1 l2 l3 : list A) :
  subseq l1 l2 -> subseq l2 l3 -> subseq l1 l3.
Proof.
  intros H12 H23. revert l1 H12.
  induction H23 as [|x l2 l3 H IH|x l2 l3 H IH]; intros l1 H12.
  - assumption.
  - constructor. now apply IH.
  - inversion H12; subst; constructor; now apply IH.
Qed.

Lemma filter_subseq {A : Type} (p : A -> bool) (l : list A) :
  subseq (filter p l) l.
Proof.
  induction l as [|x l IH]; simpl; [constructor|].
  destruct (p x); constructor; assumption.
Qed.

Lemma subseq_incl {A : Type} (l l' : list A) : subseq l l' -> incl l l'.
Proof.
  induction 1 as [|x l l' H IH|x l l' H IH]; intros y Hy.
  - assumption.
  - right. now apply IH.
  - destruct Hy as [->|Hy]; [now left | right; now apply IH].
Qed.

(** One filter step: same labels, the rows that pass. *)
Lemma select_isin_inv (name : string) (sel : list value) (df f : DataFrame) :
  select_isin name sel df = inl f ->
  exists i, position name df = inl i /\
            f = mkFrame (columns df)
                  (filter (fun r => isin sel (cell i r)) (rows df)).
Proof.
  unfold select_isin, bind. destruct (position name df) as [i|e]; [|discriminate].
  intros [= <-]. now exists i.
Qed.

Lemma select_year_inv (sel : list value) (df f : DataFrame) :
  select_year sel df = inl f ->
  exists i, position "year_id" df = inl i /\
            comparable (map (cell i) (rows df)) = true /\
            select_isin "year_id" sel df = inl f.
Proof.
  unfold select_year, bind.
  destruct (position "year_id" df) as [i|e]; [|discriminate].
  destruct (comparable (map (cell i) (rows df))) eqn:Hc; [|discriminate].
  intros H. now exists i.
Qed.

Lemma narrows_refl (df : DataFrame) : narrows df df.
Proof. split; [reflexivity | apply subseq_refl]. Qed.

Lemma narrows_trans (a b c : DataFrame) :
  narrows a b -> narrows b c -> narrows a c.
Proof.
  intros [Hc1 Hs1] [Hc2 Hs2]. split; [congruence|].
  eapply subseq_trans; eassumption.
Qed.

Lemma select_isin_narrows (name : string) (sel : list value) (df f : DataFrame) :
  select_isin name sel df = inl f -> narrows df f.
Proof.
  intros H. destruct (select_isin_inv _ _ _ _ H) as [i [_ ->]].
  split; [reflexivity | apply filter_subseq].
Qed.

(** The four steps of a successful run of the filters. *)
Lemma apply_filters_inv (pc rc : option string) (sel : Selections)
  (df f : DataFrame) :
  apply_filters pc rc sel df = inl f ->
  exists d1 d2 d3,
    match pc with
    | Some c => select_isin c (product_filter sel) df
    | None => ok df
    end = inl d1 /\
    match rc with
    | Some c => select_isin c (region_filter sel) d1
    | None => ok d1
    end = inl d2 /\
    (if has_column "status" d2
     then select_isin "status" (status_filter sel) d2 else ok d2) = inl d3 /\
    (if has_column "year_id" d3
     then select_year (year_filter sel) d3 else ok d3) = inl f.
Proof.
  unfold apply_filters, bind. intros H.
  destruct (match pc with Some c => _ | None => _ end) as [d1|e] eqn:E1;
    [|discriminate].
  destruct (match rc with Some c => _ | None => _ end) as [d2|e] eqn:E2;
    [|discriminate].
  destruct (if has_column "status" d2 then _ else _) as [d3|e] eqn:E3;
    [|discriminate].
  exists d1, d2, d3. repeat split; assumption.
Qed.

Lemma apply_filters_narrows (pc rc : option string) (sel : Selections)
  (df f : DataFrame) :
  apply_filters pc rc sel df = inl f -> narrows df f.
Proof.
  intros H. destruct (apply_filters_inv _ _ _ _ _ H)
    as (d1 & d2 & d3 & H1 & H2 & H3 & H4).
  assert (narrows df d1) as N1.
  { destruct pc; [now apply select_isin_narrows in H1|].
    injection H1 as <-. apply narrows_refl. }
  assert (narrows d1 d2) as N2.
  { destruct rc; [now apply select_isin_narrows in H2|].
    injection H2 as <-. apply narrows_refl. }
  assert (narrows d2 d3) as N3.
  { destruct (has_column "status" d2); [now apply select_isin_narrows in H3|].
    injection H3 as <-. apply narrows_refl. }
  assert (narrows d3 f) as N4.
  { destruct (has_column "year_id" d3).
    - destruct (select_year_inv _ _ _ H4) as (i & _ & _ & H5).
      now apply select_isin_narrows in H5.
    - injection H4 as <-. apply narrows_refl. }
  eapply narrows_trans; [|eassumption].
  eapply narrows_trans; [|eassumption].
  eapply narrows_trans; eassumption.
Qed.

(** C10. Whatever the four multiselects return, the filtered table has the
    labels of the resolved table, and its rows are a subsequence of the
    resolved table's rows: rows are only removed, the rest keep their
    order. *)
Theorem filters_keep_a_subsequence (pc rc : option string) (sel : Selections)
  (df f : DataFrame) :
  apply_filters pc rc sel df = inl f ->
  columns f = columns df /\ subseq (rows f) (rows df).
Proof. apply apply_filters_narrows. Qed.

(** ** Filtering a filtered table again *)

Lemma existsb_incl {A : Type} (p : A -> bool) (xs ys : list A) :
  incl xs ys -> existsb p xs = true -> existsb p ys = true.
Proof.
  intros Hi. rewrite !existsb_exists. intros [x [Hx Hp]].
  exists x. split; [now apply Hi | assumption].
Qed.

Lemma comparable_incl (xs ys : list value) :
  incl xs ys -> comparable ys = true -> comparable xs = true.
Proof.
  intros Hi. unfold comparable, dates_with_numbers.
  rewrite !andb_true_iff, !negb_true_iff, !andb_false_iff.
  intros [H1 H2]. split.
  - destruct H1 as [H|H]; [left | right];
      (destruct (existsb _ xs) eqn:E; [|reflexivity]);
      apply (existsb_incl _ _ _ Hi) in E; congruence.
  - destruct H2 as [H|H]; [left | right];
      (destruct (existsb _ xs) eqn:E; [|reflexivity]);
      apply (existsb_incl _ _ _ Hi) in E; congruence.
Qed.

Lemma select_isin_stable (name : string) (sel : list value)
  (d d' f : DataFrame) :
  select_isin name sel d = inl d' -> narrows d' f ->
  select_isin name sel f = inl f.
Proof.
  intros H [Hc Hs]. destruct (select_isin_inv _ _ _ _ H) as (i & Hi & ->).
  simpl in Hc, Hs. unfold select_isin, bind.
  rewrite (position_columns name d f Hc), Hi. unfold ok. f_equal.
  destruct f as [cols rs]. simpl in *. subst cols. f_equal.
  apply forallb_filter_id. apply forallb_forall. intros r Hr.
  apply (subseq_incl _ _ Hs) in Hr. now apply filter_In in Hr.
Qed.

Lemma select_year_stable (sel : list value) (d d' f : DataFrame) :
  select_year sel d = inl d' -> narrows d' f ->
  select_year sel f = inl f.
Proof.
  intros H N. destruct (select_year_inv _ _ _ H) as (i & Hi & Hcmp & Hsel).
  pose proof (select_isin_narrows _ _ _ _ Hsel) as N'.
  pose proof (narrows_trans _ _ _ N' N) as [Hc Hs].
  unfold select_year, bind.
  rewrite (position_columns "year_id" d f Hc), Hi.
  rewrite (comparable_incl (map (cell i) (rows f)) (map (cell i) (rows d))).
  - eapply select_isin_stable; eassumption.
  - apply incl_map. now apply subseq_incl.
  - assumption.
Qed.

(** C5. Applying the filters, with the same selections, to a table they
    have already filtered succeeds and returns that table unchanged. *)
Theorem apply_filters_idempotent (pc rc : option string) (sel : Selections)
  (df f : DataFrame) :
  apply_filters pc rc sel df = inl f ->
  apply_filters pc rc sel f = inl f.
Proof.
  intros H. destruct (apply_filters_inv _ _ _ _ _ H)
    as (d1 & d2 & d3 & H1 & H2 & H3 & H4).
  assert (narrows d3 f) as N3.
  { destruct (has_column "year_id" d3).
    - destruct (select_year_inv _ _ _ H4) as (i & _ & _ & H5).
      now apply select_isin_narrows in H5.
    - injection H4 as <-. apply narrows_refl. }
  assert (narrows d2 f) as N2.
  { apply narrows_trans with d3; [|assumption].
    destruct (has_column "status" d2); [now apply select_isin_narrows in H3|].
    injection H3 as <-. apply narrows_refl. }
  assert (narrows d1 f) as N1.
  { apply narrows_trans with d2; [|assumption].
    destruct rc; [now apply select_isin_narrows in H2|].
    injection H2 as <-. apply narrows_refl. }
  unfold apply_filters, bind.
  assert (match pc with
          | Some c => select_isin c (product_filter sel) f
          | None => ok f
          end = inl f) as ->.
  { destruct pc; [|reflexivity]. eapply select_isin_stable; eassumption. }
  assert (match rc with
          | Some c => select_isin c (region_filter sel) f
          | None => ok f
          end = inl f) as ->.
  { destruct rc; [|reflexivity]. eapply select_isin_stable; eassumption. }
  rewrite (has_column_columns "status" d2 f (proj1 N2)).
  assert ((if has_column "status" d2
           then select_isin "status" (status_filter sel) f else ok f) = inl f) as ->.
  { destruct (has_column "status" d2); [|reflexivity].
    eapply select_isin_stable; eassumption. }
  rewrite (has_column_columns "year_id" d3 f (proj1 N3)).
  destruct (has_column "year_id" d3); [|reflexivity].
  eapply select_year_stable; [eassumption | apply narrows_refl].
Qed.

(** ** The KPIs *)

Lemma kpis_inv (L : Library) (source df : DataFrame) (k : KPIs) :
  kpis L source df = inl k ->
  exists i,
    position "sales_amount" df = inl i /\
    refused L (map (cell i) (rows source)) = false /\
    forallb numeric (map (cell i) (rows df)) = true /\
    total_sales k =
      (if exact (map (cell i) (rows df))
       then Finite (nansum (map (cell i) (rows df)))
       else sum_of L (map (cell i) (rows source)) (map (cell i) (rows df))) /\
    avg_sales k =
      (if exact (map (cell i) (rows df))
       then match count_valid (map (cell i) (rows df)) with
            | O => NotANumber
            | n => Finite (float_div L (nansum (map (cell i) (rows df)))
                             (Qc_of_nat n))
            end
       else mean_of L (map (cell i) (rows source)) (map (cell i) (rows df))) /\
    num_transactions k = List.length (rows df).
Proof.
  unfold kpis, bind, series_sum, series_mean.
  destruct (position "sales_amount" df) as [i|e]; [|discriminate].
  destruct (refused L (map (cell i) (rows source))) eqn:Hr; [discriminate|].
  destruct (forallb numeric (map (cell i) (rows df))) eqn:Hn; [|discriminate].
  unfold ok. intros [= <-]. exists i. simpl.
  repeat split; assumption || reflexivity.
Qed.

Lemma count_valid_all (xs : list value) :
  forallb (fun v => negb (isna v)) xs = true -> count_valid xs = List.length xs.
Proof.
  intros H. unfold count_valid. now rewrite forallb_filter_id.
Qed.

Lemma column_position (name : string) (df : DataFrame) (i : nat) :
  position name df = inl i -> column name df = Some (map (cell i) (rows df)).
Proof. unfold column. now intros ->. Qed.

(** C2, as the script computes it. The transaction count is the number of
    all rows. Where the amounts are in the exact range, the total is their
    sum, a missing amount adding nothing, and the mean is the float64
    quotient of the total by the number of rows whose amount is not
    missing, [nan] when there is no such row. So the mean is total / count
    on a table with rows none of whose amounts is missing. *)
Theorem mean_is_total_over_valid
  (L : Library) (source df : DataFrame) (k : KPIs) :
  kpis L source df = inl k ->
  exists xs,
    column "sales_amount" df = Some xs /\
    num_transactions k = List.length xs /\
    (exact xs = true ->
     total_sales k = Finite (nansum xs) /\
     avg_sales k =
       (if count_valid xs =? 0 then NotANumber
        else Finite (float_div L (nansum xs) (Qc_of_nat (count_valid xs)))) /\
     (forallb (fun v => negb (isna v)) xs = true ->
      num_transactions k <> 0 ->
      avg_sales k =
        Finite (float_div L (nansum xs) (Qc_of_nat (num_transactions k))))).
Proof.
  intros H. destruct (kpis_inv _ _ _ _ H) as (i & Hi & _ & _ & Ht & Ha & Hn).
  exists (map (cell i) (rows df)).
  rewrite (column_position _ _ _ Hi), length_map, Hn.
  split; [reflexivity|]. split; [reflexivity|].
  intros He. rewrite He in Ht, Ha. rewrite Ht, Ha. repeat split.
  - destruct (count_valid (map (cell i) (rows df))); reflexivity.
  - intros Hall Hne. rewrite (count_valid_all _ Hall), length_map.
    destruct (List.length (rows df)); [contradiction | reflexivity].
Qed.

(** C2 as stated fails where an amount is missing: of the two rows [10] and
    [NaN] the script reports total 10, count 2 and mean 10, not 10 / 2. *)
Lemma mean_skips_missing_amounts :
  main examples (Some (mkFrame ["Sales"] [[num 10]; [VNaN]]))
    (mkSelections [] [] [] [])
  = Rendered (mkAggregate
                (mkKPIs (Finite (Q2Qc 10)) (Finite (Q2Qc 10)) 2) None None None)
  /\ exact [num 10; VNaN] = true
  /\ float_div examples (Q2Qc 10) (Qc_of_nat 2) <> Q2Qc 10.
Proof. by_computation. Qed.

Lemma mean_is_total_over_valid_witness :
  exact [num 100; num 50] = true /\
  (exists xs,
      column "sales_amount"
        (mkFrame ["sales"; "sales_amount"] [[num 100; num 100]; [num 50; num 50]])
        = Some xs /\
      2 = List.length xs /\
      (exact xs = true ->
       Finite (Q2Qc 150) = Finite (nansum xs) /\
       Finite (Q2Qc 75) =
         (if count_valid xs =? 0 then NotANumber
          else Finite (float_div examples (nansum xs)
                         (Qc_of_nat (count_valid xs)))) /\
       (forallb (fun v => negb (isna v)) xs = true ->
        2 <> 0 ->
        Finite (Q2Qc 75)
        = Finite (float_div examples (nansum xs) (Qc_of_nat 2))))).
Proof.
  split; [reflexivity|].
  apply (mean_is_total_over_valid examples
           (mkFrame ["sales"; "sales_amount"]
              [[num 100; num 100]; [num 50; num 50]])
           (mkFrame ["sales"; "sales_amount"]
              [[num 100; num 100]; [num 50; num 50]])
           (mkKPIs (Finite (Q2Qc 150)) (Finite (Q2Qc 75)) 2)).
  by_computation.
Defined.

(** ** Grouping conserves the amounts *)

Lemma nansum_app (xs ys : list value) :
  nansum (xs ++ ys) = (nansum xs + nansum ys)%Qc.
Proof. induction xs as [|x xs IH]; simpl; [ring | rewrite IH; ring]. Qed.

Lemma nansum_perm (xs ys : list value) :
  Permutation xs ys -> nansum xs = nansum ys.
Proof.
  induction 1 as [|x xs ys _ IH|x y xs|xs ys zs _ IH1 _ IH2]; simpl.
  - reflexivity.
  - now rewrite IH.
  - ring.
  - congruence.
Qed.

Lemma weight_app (xs ys : list value) :
  weight (xs ++ ys) = (weight xs + weight ys)%Z.
Proof. induction xs as [|x xs IH]; simpl; [reflexivity | rewrite IH; lia]. Qed.

Lemma weight_perm (xs ys : list value) :
  Permutation xs ys -> weight xs = weight ys.
Proof.
  induction 1 as [|x xs ys _ IH|x y xs|xs ys zs _ IH1 _ IH2]; simpl; lia.
Qed.

Lemma weight_nonneg (xs : list value) : (0 <= weight xs)%Z.
Proof.
  induction xs as [|x xs IH]; simpl; [lia|].
  destruct x; simpl; lia.
Qed.

Lemma weight_filter {A : Type} (f : A -> value) (p : A -> bool) (l : list A) :
  (weight (map f (filter p l)) <= weight (map f l))%Z.
Proof.
  induction l as [|x l IH]; simpl; [lia|].
  destruct (p x); simpl; [lia|].
  assert (0 <= magnitude (f x))%Z by (destruct (f x); simpl; lia). lia.
Qed.

Lemma exact_inv (xs : list value) :
  exact xs = true <-> forallb whole xs = true /\ (weight xs <= 2 ^ 53)%Z.
Proof. unfold exact. now rewrite andb_true_iff, Z.leb_le. Qed.

(** A selection of cells in the exact range is in the exact range. *)
Lemma exact_filter {A : Type} (f : A -> value) (p : A -> bool) (l : list A) :
  exact (map f l) = true -> exact (map f (filter p l)) = true.
Proof.
  rewrite !exact_inv. intros [Hw Hb]. split.
  - rewrite forallb_forall in *. intros v Hv. apply Hw.
    apply in_map_iff in Hv as (x & <- & Hx). apply in_map.
    now apply filter_In in Hx.
  - pose proof (weight_filter f p l). lia.
Qed.

Lemma exact_perm (xs ys : list value) :
  Permutation xs ys -> exact xs = exact ys.
Proof.
  intros H. unfold exact. rewrite (weight_perm _ _ H). f_equal.
  apply eq_true_iff_eq. rewrite !forallb_forall. split; intros Hw v Hv;
    apply Hw; [now apply (Permutation_in _ (Permutation_sym H))
              | now apply (Permutation_in _ H)].
Qed.

Lemma cells_add_to_group (k a : value) (gs : groups) :
  Permutation (cells_of (add_to_group k a gs)) (a :: cells_of gs).
Proof.
  unfold cells_of. induction gs as [|[x cs] gs IH]; simpl; [reflexivity|].
  destruct (value_eqb k x); simpl.
  - rewrite <- app_assoc. simpl.
    symmetry. apply Permutation_middle.
  - destruct (value_ltb k x); simpl; [reflexivity|].
    rewrite IH. symmetry. apply Permutation_middle.
Qed.

Lemma cells_groups (key amt : nat) (rs : list (list value)) (gs : groups) :
  Permutation (cells_of (fold_left (add_row key amt) rs gs))
    (cells_of gs ++ map (cell amt) (keyed key rs)).
Proof.
  revert gs. induction rs as [|r rs IH]; intros gs; simpl.
  - now rewrite app_nil_r.
  - rewrite IH. unfold add_row.
    destruct (isna (cell key r)); simpl; [reflexivity|].
    rewrite cells_add_to_group. apply Permutation_middle.
Qed.

Lemma exact_group (gs : groups) (g : value * list value) :
  exact (cells_of gs) = true -> In g gs -> exact (snd g) = true.
Proof.
  unfold cells_of. induction gs as [|h gs IH]; simpl; [tauto|].
  intros He Hin. apply exact_inv in He.
  rewrite forallb_app, weight_app, andb_true_iff in He.
  destruct He as [[Hh Hw] Hb].
  pose proof (weight_nonneg (List.concat (map snd gs))).
  pose proof (weight_nonneg (snd h)).
  destruct Hin as [->|Hin].
  - apply (proj2 (exact_inv _)). split; [assumption | lia].
  - apply IH; [|assumption].
    apply (proj2 (exact_inv _)). split; [assumption | lia].
Qed.

Lemma mass_sums (L : Library) (origin : list value) (gs : groups) :
  exact (cells_of gs) = true ->
  mass (sums L origin gs) = Some (nansum (cells_of gs)).
Proof.
  unfold cells_of. induction gs as [|g gs IH]; intros He; simpl; [reflexivity|].
  assert (exact (snd g) = true) as Hg
    by (apply (exact_group (g :: gs)); [assumption | now left]).
  unfold group_sum at 1. rewrite Hg, IH.
  - simpl. now rewrite nansum_app.
  - simpl in He. rewrite exact_inv, forallb_app, weight_app, andb_true_iff in He.
    destruct He as [[_ Hw] Hb]. pose proof (weight_nonneg (snd g)).
    apply (proj2 (exact_inv _)). split; [assumption | lia].
Qed.

Lemma mass_insert_desc (first : value -> value -> bool) (x : value * number)
  (l : series) :
  mass (insert_desc first x l) = mass (x :: l).
Proof.
  induction l as [|y ys IH]; simpl; [reflexivity|].
  destruct (goes_first first x y); [reflexivity|].
  simpl. rewrite IH. simpl.
  destruct x as [kx [qx| |]], y as [ky [qy| |]]; simpl; try reflexivity;
    destruct (mass ys); simpl; try reflexivity.
  f_equal. ring.
Qed.

Lemma mass_cons (x : value * number) (l l' : series) :
  mass l = mass l' -> mass (x :: l) = mass (x :: l').
Proof. intros H. simpl. now rewrite H. Qed.

Lemma mass_sort_values_desc (L : Library) (l : series) :
  mass (sort_values_desc L l) = mass l.
Proof.
  unfold sort_values_desc. generalize (tie_before L l) as first. intros first.
  induction l as [|x l IH]; [reflexivity|].
  simpl fold_right. rewrite mass_insert_desc. now apply mass_cons.
Qed.

Lemma groupby_sum_inv (L : Library) (origin : list value) (key amt : nat)
  (rs : list (list value)) (s : series) :
  groupby_sum L origin key amt rs = inl s ->
  dates_with_numbers (map (cell key) rs) = false /\
  forallb numeric (map (cell amt) rs) = true /\
  s = sums L origin (fold_left (add_row key amt) rs []).
Proof.
  unfold groupby_sum. destruct (dates_with_numbers _); [discriminate|].
  destruct (forallb numeric _); [|discriminate].
  intros [= <-]. repeat split; reflexivity.
Qed.

Lemma sales_by_inv (L : Library) (source : DataFrame) (c : string)
  (df : DataFrame) (s : series) :
  sales_by L source c df = inl s ->
  exists key amt,
    position c df = inl key /\
    position "sales_amount" df = inl amt /\
    dates_with_numbers (map (cell key) (rows df)) = false /\
    s = sort_values_desc L
          (sums L (map (cell amt) (rows source))
             (fold_left (add_row key amt) (rows df) [])).
Proof.
  unfold sales_by, bind.
  destruct (position c df) as [key|e]; [|discriminate].
  destruct (position "sales_amount" df) as [amt|e]; [|discriminate].
  destruct (groupby_sum L _ key amt (rows df)) as [g|e] eqn:Hg; [|discriminate].
  intros [= <-]. apply groupby_sum_inv in Hg as (Hd & _ & ->).
  exists key, amt. repeat split; assumption.
Qed.

(** The cells of the groups are the amounts of the rows with a key, and in
    the exact range with them. *)
Lemma exact_groups (key amt : nat) (rs : list (list value)) :
  exact (map (cell amt) rs) = true ->
  exact (cells_of (fold_left (add_row key amt) rs [])) = true.
Proof.
  intros He. rewrite (exact_perm _ _ (cells_groups key amt rs [])). simpl.
  now apply exact_filter.
Qed.

(** C3, as [groupby] has it. Where the amounts are in the exact range, the
    sums of a grouped series add up to the total of the amounts over the
    rows whose group key is not missing; when no row lacks its key, that is
    the scalar total. *)
Theorem group_sums_add_up (L : Library) (source : DataFrame) (c : string)
  (df : DataFrame) (s : series) (k : KPIs) :
  sales_by L source c df = inl s ->
  kpis L source df = inl k ->
  exists key amt,
    position c df = inl key /\
    position "sales_amount" df = inl amt /\
    (exact (map (cell amt) (rows df)) = true ->
     mass s = Some (nansum (map (cell amt) (keyed key (rows df)))) /\
     (forallb (fun r => negb (isna (cell key r))) (rows df) = true ->
      option_map Finite (mass s) = Some (total_sales k))).
Proof.
  intros Hs Hk.
  destruct (sales_by_inv _ _ _ _ _ Hs) as (key & amt & Hkey & Hamt & _ & ->).
  destruct (kpis_inv _ _ _ _ Hk) as (i & Hi & _ & _ & Ht & _).
  exists key, amt. split; [assumption|]. split; [assumption|]. intros He.
  assert (i = amt) as -> by congruence. rewrite He in Ht.
  rewrite mass_sort_values_desc, mass_sums by now apply exact_groups.
  rewrite (nansum_perm _ _ (cells_groups key amt (rows df) [])). simpl.
  split; [reflexivity|].
  intros Hall. unfold keyed. rewrite (forallb_filter_id _ _ Hall).
  simpl. now rewrite Ht.
Qed.

Lemma group_sums_add_up_witness :
  exact [num 100; num 50; num 30] = true /\
  (exists key amt,
      position "productline" products_table = inl key /\
      position "sales_amount" products_table = inl amt /\
      (exact (map (cell amt) (rows products_table)) = true ->
       mass [(str "A", Finite (Q2Qc 130)); (str "B", Finite (Q2Qc 50))]
       = Some (nansum (map (cell amt) (keyed key (rows products_table)))) /\
       (forallb (fun r => negb (isna (cell key r))) (rows products_table) = true ->
        option_map Finite
          (mass [(str "A", Finite (Q2Qc 130)); (str "B", Finite (Q2Qc 50))])
        = Some (Finite (Q2Qc 180))))).
Proof.
  split; [reflexivity|].
  apply (group_sums_add_up examples products_table "productline"
           products_table
           [(str "A", Finite (Q2Qc 130)); (str "B", Finite (Q2Qc 50))]
           (mkKPIs (Finite (Q2Qc 180)) (Finite (Q2Qc 60)) 3)).
  - by_computation.
  - by_computation.
Defined.

(** C3 as stated fails on a row whose product is missing: the row counts in
    the total, 12, and [groupby] leaves it out of every group, so the product
    series adds up to 7. *)
Lemma missing_key_is_in_no_group :
  main examples
    (Some (mkFrame ["Sales"; "Product"] [[num 5; VNaN]; [num 7; str "A"]]))
    (mkSelections [VNaN; str "A"] [] [] [])
  = Rendered (mkAggregate
                (mkKPIs (Finite (Q2Qc 12)) (Finite (Q2Qc 6)) 2)
                (Some [(str "A", Finite (Q2Qc 7))]) None None)
  /\ exact [num 5; num 7] = true
  /\ mass [(str "A", Finite (Q2Qc 7))] <> Some (Q2Qc 12).
Proof. by_computation. Qed.

(** ** What the filters hand to the aggregates *)

Lemma count_label_In (name : string) (labels : list string) :
  In name labels <-> 1 <= count_label name labels.
Proof.
  unfold count_label. induction labels as [|l ls IH]; simpl; [lia|].
  destruct (String.eqb_spec name l) as [->|Hne]; simpl.
  - split; [lia | now left].
  - rewrite <- IH. split; [intros [H|H]; [congruence | assumption] | now right].
Qed.

Lemma position_In (name : string) (df : DataFrame) :
  In name (columns df) -> count_label name (columns df) <= 1 ->
  exists i, position name df = inl i.
Proof.
  intros Hin Hc. destruct (index_of_In _ _ Hin) as [i Hi].
  exists i. apply position_found; [assumption|].
  apply count_label_In in Hin. lia.
Qed.

Lemma assign_has_column (name : string) (f : list value -> value)
  (df : DataFrame) : has_column name (assign name f df) = true.
Proof.
  unfold assign, has_column.
  destruct (existsb (String.eqb name) (columns df)) eqn:E; simpl.
  - exact E.
  - rewrite existsb_app. simpl. rewrite String.eqb_refl. apply orb_true_r.
Qed.

Lemma resolve_amount_inv (L : Library) (df d : DataFrame) :
  resolve_amount L df = inl d ->
  exists src i,
    (src = "sales" \/ src = "revenue") /\
    (src = "revenue" -> has_column "sales" (normalize_columns L df) = false) /\
    position src (normalize_columns L df) = inl i /\
    d = assign "sales_amount" (cell i) (normalize_columns L df).
Proof.
  unfold resolve_amount, copy_column, bind.
  destruct (has_column "sales" (normalize_columns L df)) eqn:Hs.
  - destruct (position "sales" _) as [i|] eqn:E; [|discriminate].
    intros [= <-]. exists "sales", i. repeat split; auto. discriminate.
  - destruct (has_column "revenue" (normalize_columns L df)); [|discriminate].
    destruct (position "revenue" _) as [i|] eqn:E; [|discriminate].
    intros [= <-]. exists "revenue", i. auto.
Qed.

Lemma resolve_amount_has_amount (L : Library) (df d : DataFrame) :
  resolve_amount L df = inl d -> has_column "sales_amount" d = true.
Proof.
  intros H. destruct (resolve_amount_inv _ _ _ H) as (src & i & _ & _ & _ & ->).
  apply assign_has_column.
Qed.

Lemma product_column_has (df : DataFrame) (c : string) :
  product_column df = Some c -> has_column c df = true.
Proof.
  unfold product_column.
  destruct (has_column "productline" df) eqn:E1; [now intros [= <-]|].
  destruct (has_column "product_category" df) eqn:E2; [now intros [= <-]|].
  destruct (has_column "product" df) eqn:E3; [now intros [= <-]|].
  destruct (has_column "products" df) eqn:E4; [now intros [= <-]|].
  discriminate.
Qed.

Lemma region_column_has (df : DataFrame) (c : string) :
  region_column df = Some c -> has_column c df = true.
Proof.
  unfold region_column.
  destruct (has_column "region" df) eqn:E1; [now intros [= <-]|].
  destruct (has_column "country" df) eqn:E2; [now intros [= <-]|].
  discriminate.
Qed.

Lemma filtered_inv (L : Library) (sel : Selections) (df d f : DataFrame)
  (pc rc : option string) :
  filtered L sel df = inl (d, pc, rc, f) ->
  resolve_amount L df = inl d /\
  pc = product_column d /\ rc = region_column d /\
  apply_filters pc rc sel d = inl f.
Proof.
  unfold filtered, bind.
  destruct (resolve_amount L df) as [d'|e]; [|discriminate].
  destruct (apply_filters _ _ sel d') as [f'|e] eqn:E; [|discriminate].
  intros [= <- <- <- <-]. auto.
Qed.

(** The frame that reaches the aggregates carries the amount column and
    every column the script bound a role to. *)
Lemma filtered_columns (L : Library) (sel : Selections) (df d f : DataFrame)
  (pc rc : option string) :
  filtered L sel df = inl (d, pc, rc, f) ->
  columns f = columns d /\
  has_column "sales_amount" f = true /\
  (forall c, pc = Some c -> has_column c f = true) /\
  (forall c, rc = Some c -> has_column c f = true).
Proof.
  intros H. destruct (filtered_inv _ _ _ _ _ _ _ H) as (Hr & -> & -> & Hf).
  destruct (apply_filters_narrows _ _ _ _ _ Hf) as [Hc _].
  repeat split; intros; try assumption.
  - rewrite (has_column_columns _ d f Hc). eapply resolve_amount_has_amount; eassumption.
  - rewrite (has_column_columns _ d f Hc). now apply product_column_has.
  - rewrite (has_column_columns _ d f Hc). now apply region_column_has.
Qed.

(** The filters read the columns they are bound to: where they succeed,
    each of these labels names one column. *)
Lemma apply_filters_positions (pc rc : option string) (sel : Selections)
  (df f : DataFrame) :
  apply_filters pc rc sel df = inl f ->
  (forall c, pc = Some c -> exists i, position c f = inl i) /\
  (forall c, rc = Some c -> exists i, position c f = inl i).
Proof.
  intros H. pose proof (apply_filters_narrows _ _ _ _ _ H) as [Hc _].
  destruct (apply_filters_inv _ _ _ _ _ H)
    as (d1 & d2 & d3 & H1 & H2 & H3 & H4).
  assert (columns d1 = columns df) as C1.
  { destruct pc; [now apply select_isin_narrows in H1 as [? _]|].
    now injection H1 as <-. }
  split; intros c ->.
  - destruct (select_isin_inv _ _ _ _ H1) as (i & Hi & _).
    exists i. now rewrite (position_columns c df f Hc).
  - destruct (select_isin_inv _ _ _ _ H2) as (i & Hi & _).
    exists i. rewrite (position_columns c df f Hc).
    now rewrite <- (position_columns c df d1 C1).
Qed.

(** ** A filtered table without rows *)

Lemma refused_numeric (L : Library) (xs : list value) :
  forallb numeric xs = true -> refused L xs = false.
Proof.
  intros H. unfold refused, datetime_column, text_column.
  assert (existsb is_date xs = false) as ->.
  { apply not_true_is_false. rewrite existsb_exists. intros (v & Hv & Hd).
    rewrite forallb_forall in H. specialize (H v Hv). now destruct v. }
  assert (existsb is_str xs = false) as ->.
  { apply not_true_is_false. rewrite existsb_exists. intros (v & Hv & Hd).
    rewrite forallb_forall in H. specialize (H v Hv). now destruct v. }
  reflexivity.
Qed.

Lemma kpis_no_rows (L : Library) (source : DataFrame) (cols : list string)
  (i : nat) :
  position "sales_amount" (mkFrame cols []) = inl i ->
  refused L (map (cell i) (rows source)) = false ->
  kpis L source (mkFrame cols [])
  = inl (mkKPIs (Finite 0%Qc) NotANumber 0).
Proof.
  intros Hi Hr. unfold kpis, bind, series_sum, series_mean.
  rewrite Hi. simpl. rewrite Hr. reflexivity.
Qed.

Lemma sales_by_no_rows (L : Library) (source : DataFrame) (c : string)
  (cols : list string) (i j : nat) :
  position "sales_amount" (mkFrame cols []) = inl i ->
  position c (mkFrame cols []) = inl j ->
  sales_by L source c (mkFrame cols []) = inl [].
Proof.
  intros Ha Hc. unfold sales_by, bind. rewrite Hc, Ha. reflexivity.
Qed.

Lemma trend_no_rows (L : Library) (source : DataFrame) (cols : list string)
  (i : nat) :
  position "sales_amount" (mkFrame cols []) = inl i ->
  count_label "orderdate" cols <= 1 ->
  trend L source (mkFrame cols [])
  = inl (if has_column "orderdate" (mkFrame cols []) then Some [] else None,
         mkFrames (mkFrame cols []) (mkFrame cols [])).
Proof.
  intros Ha Ho. unfold trend.
  destruct (has_column "orderdate" (mkFrame cols [])) eqn:E; [|reflexivity].
  pose proof E as Hin. apply has_column_In in Hin.
  destruct (position_In "orderdate" (mkFrame cols []) Hin Ho) as [j Hj].
  unfold bind. rewrite Hj. unfold assign, dropna. simpl.
  unfold has_column in E. simpl in E. rewrite E. simpl.
  rewrite Ha. reflexivity.
Qed.

(** C4, as the library has it. When the filters leave no row of a table
    whose amount column holds numbers, named by one label, and which has at
    most one date column, the aggregates are computed without an exception:
    total 0, mean [nan], count 0, an empty series for every chart the script
    draws, and the frame untouched. *)
Theorem no_rows_no_error (L : Library) (sel : Selections)
  (df d f : DataFrame) (pc rc : option string) (amounts : list value) :
  filtered L sel df = inl (d, pc, rc, f) ->
  rows f = [] ->
  column "sales_amount" d = Some amounts ->
  forallb numeric amounts = true ->
  count_label "orderdate" (columns d) <= 1 ->
  aggregate L d pc rc f
  = inl (mkAggregate (mkKPIs (Finite 0%Qc) NotANumber 0)
           (option_map (fun _ => []) pc)
           (option_map (fun _ => []) rc)
           (if has_column "orderdate" f then Some [] else None),
         mkFrames f f)
  /\ pipeline L sel df
     = inl (mkAggregate (mkKPIs (Finite 0%Qc) NotANumber 0)
              (option_map (fun _ => []) pc)
              (option_map (fun _ => []) rc)
              (if has_column "orderdate" f then Some [] else None)).
Proof.
  intros Hf Hrows Hcol Hnum Hdate.
  destruct (filtered_columns _ _ _ _ _ _ _ Hf) as (Hc & _).
  destruct (filtered_inv _ _ _ _ _ _ _ Hf) as (_ & _ & _ & Hap).
  destruct (apply_filters_positions _ _ _ _ _ Hap) as [Hp Hr].
  unfold column in Hcol.
  destruct (position "sales_amount" d) as [i|] eqn:Hi; [|discriminate].
  injection Hcol as <-.
  rewrite <- (position_columns _ d f Hc) in Hi. rewrite <- Hc in Hdate.
  assert (aggregate L d pc rc f
          = inl (mkAggregate (mkKPIs (Finite 0%Qc) NotANumber 0)
                   (option_map (fun _ => []) pc)
                   (option_map (fun _ => []) rc)
                   (if has_column "orderdate" f then Some [] else None),
                 mkFrames f f)) as Hagg.
  { destruct f as [cols rs]. simpl in Hrows. subst rs. simpl in Hdate.
    unfold aggregate.
    rewrite (kpis_no_rows L d cols i Hi (refused_numeric L _ Hnum)).
    cbv beta iota delta [bind].
    assert (sales_by_opt L d pc (mkFrame cols [])
            = inl (option_map (fun _ => []) pc)) as ->.
    { destruct pc as [c|]; [|reflexivity]. simpl.
      destruct (Hp c eq_refl) as [j Hj].
      now rewrite (sales_by_no_rows L d c cols i j Hi Hj). }
    assert (sales_by_opt L d rc (mkFrame cols [])
            = inl (option_map (fun _ => []) rc)) as ->.
    { destruct rc as [c|]; [|reflexivity]. simpl.
      destruct (Hr c eq_refl) as [j Hj].
      now rewrite (sales_by_no_rows L d c cols i j Hi Hj). }
    rewrite (trend_no_rows L d cols i Hi Hdate). reflexivity. }
  split; [exact Hagg|].
  unfold pipeline. rewrite Hf. cbv beta iota delta [bind]. rewrite Hagg.
  reflexivity.
Qed.

Lemma no_rows_no_error_witness :
  pipeline examples no_region two_orders
  = inl (mkAggregate (mkKPIs (Finite 0%Qc) NotANumber 0)
           (Some []) (Some []) (Some [])).
Proof.
  apply (no_rows_no_error examples no_region two_orders two_orders_resolved
           (mkFrame (columns two_orders_resolved) [])
           (Some "product") (Some "region") [num 20; num 30]).
  - reflexivity.
  - reflexivity.
  - reflexivity.
  - reflexivity.
  - vm_compute. lia.
Defined.

(** C4 as stated fails on an amount column of timestamps: the filters leave
    no row, and the sum is refused for the dtype of the column, whatever
    rows remain. *)
Lemma no_rows_of_timestamps_raise :
  filtered examples (mkSelections [] [] [] []) dated_amounts
  = inl (mkFrame ["sales"; "region"; "sales_amount"]
           [[VDate jan_5_2024; str "EMEA"; VDate jan_5_2024]],
         None, Some "region",
         mkFrame ["sales"; "region"; "sales_amount"] [])
  /\ main examples (Some dated_amounts) (mkSelections [] [] [] [])
     = Stopped Raised.
Proof. split; reflexivity. Qed.

(** ** The order of group keys *)

Lemma ascii_compare_lt_trans (a b c : ascii) :
  Ascii.compare a b = Lt -> Ascii.compare b c = Lt -> Ascii.compare a c = Lt.
Proof.
  unfold Ascii.compare. rewrite !N.compare_lt_iff. apply N.lt_trans.
Qed.

Lemma string_compare_lt_trans (s1 s2 s3 : string) :
  String.compare s1 s2 = Lt -> String.compare s2 s3 = Lt ->
  String.compare s1 s3 = Lt.
Proof.
  revert s2 s3. induction s1 as [|a s1 IH]; intros [|b s2] [|c s3]; simpl;
    try discriminate; try reflexivity.
  destruct (Ascii.compare a b) eqn:Eab; try discriminate;
    destruct (Ascii.compare b c) eqn:Ebc; try discriminate; intros H1 H2.
  - apply Ascii.compare_eq_iff in Eab, Ebc. subst.
    assert (Ascii.compare c c = Eq) as -> by apply N.compare_refl.
    eapply IH; eassumption.
  - apply Ascii.compare_eq_iff in Eab. subst. now rewrite Ebc.
  - apply Ascii.compare_eq_iff in Ebc. subst. now rewrite Eab.
  - now rewrite (ascii_compare_lt_trans _ _ _ Eab Ebc).
Qed.

Lemma string_ltb_trans (s1 s2 s3 : string) :
  String.ltb s1 s2 = true -> String.ltb s2 s3 = true -> String.ltb s1 s3 = true.
Proof.
  unfold String.ltb. intros H1 H2.
  destruct (String.compare s1 s2) eqn:E1; try discriminate.
  destruct (String.compare s2 s3) eqn:E2; try discriminate.
  now rewrite (string_compare_lt_trans _ _ _ E1 E2).
Qed.

Lemma string_ltb_total (s1 s2 : string) :
  String.eqb s1 s2 = false -> String.ltb s1 s2 = false -> String.ltb s2 s1 = true.
Proof.
  unfold String.ltb. intros Hne Hlt. rewrite String.compare_antisym.
  destruct (String.compare s1 s2) eqn:E; simpl; try reflexivity; try discriminate.
  apply String.compare_eq_iff in E. subst. now rewrite String.eqb_refl in Hne.
Qed.

Lemma Qc_ltb_iff (x y : Qc) : negb (Qle_bool y x) = true <-> (x < y)%Qc.
Proof.
  rewrite negb_true_iff. split.
  - intros H. apply Qcnot_le_lt. intros Hle.
    apply Qle_bool_iff in Hle. congruence.
  - intros H. destruct (Qle_bool y x) eqn:E; [|reflexivity].
    apply Qle_bool_iff in E. now apply Qclt_not_le in H.
Qed.

Lemma Qc_leb_iff (x y : Qc) : Qle_bool x y = true <-> (x <= y)%Qc.
Proof. apply Qle_bool_iff. Qed.

Lemma value_ltb_trans (a b c : value) :
  value_ltb a b = true -> value_ltb b c = true -> value_ltb a c = true.
Proof.
  destruct a, b, c; simpl; try discriminate; try reflexivity.
  - rewrite !Qc_ltb_iff. apply Qclt_trans.
  - apply string_ltb_trans.
  - rewrite !Z.ltb_lt. apply Z.lt_trans.
Qed.

Lemma value_ltb_total (a b : value) :
  ordered_pair a b ->
  value_eqb a b = false -> value_ltb a b = false -> value_ltb b a = true.
Proof.
  intros (Ha & Hb & Hc).
  destruct a, b; simpl in *; try discriminate; try reflexivity.
  - intros Hne Hlt. apply Qc_ltb_iff.
    apply negb_false_iff, Qc_leb_iff in Hlt.
    destruct (Qcle_lt_or_eq _ _ Hlt) as [H|H]; [assumption|].
    subst. unfold Qc_eq_bool in Hne. now destruct (Qc_eq_dec q q).
  - apply string_ltb_total.
  - intros Hne Hlt. apply Z.ltb_lt. apply Z.eqb_neq in Hne.
    apply Z.ltb_ge in Hlt. lia.
Qed.

Lemma dates_with_numbers_pairs (xs : list value) (a b : value) :
  dates_with_numbers xs = false -> In a xs -> In b xs ->
  (is_date a && is_num b) || (is_num a && is_date b) = false.
Proof.
  unfold dates_with_numbers. intros H Ha Hb.
  destruct (is_date a) eqn:Da, (is_num b) eqn:Nb, (is_num a) eqn:Na,
    (is_date b) eqn:Db; simpl; try reflexivity; exfalso;
    (assert (existsb is_date xs = true) as E1
       by (apply existsb_exists; eauto));
    (assert (existsb is_num xs = true) as E2
       by (apply existsb_exists; eauto));
    rewrite E1, E2 in H; discriminate.
Qed.

(** ** The groups are laid out by key *)

Section Groups.

(** The keys met so far; any two of them can be ordered. *)
Variable K : value -> Prop.
Hypothesis K_ordered : forall a b, K a -> K b -> ordered_pair a b.

Lemma add_to_group_keys (k a : value) (gs : groups) :
  K k -> Forall (fun p => K (fst p)) gs ->
  Forall (fun p => K (fst p)) (add_to_group k a gs).
Proof.
  intros Hk. induction 1 as [|[x s] gs Hx Hgs IH]; simpl.
  - now repeat constructor.
  - destruct (value_eqb k x); [now constructor|].
    destruct (value_ltb k x); repeat constructor; assumption.
Qed.

Lemma add_to_group_above (y : value * list value) (k a : value) (gs : groups) :
  value_ltb (fst y) k = true -> Forall (key_lt y) gs ->
  Forall (key_lt y) (add_to_group k a gs).
Proof.
  intros Hk. induction 1 as [|[x s] gs Hx Hgs IH]; simpl.
  - now repeat constructor.
  - destruct (value_eqb k x); [now constructor|].
    destruct (value_ltb k x); repeat constructor; assumption.
Qed.

Lemma add_to_group_sorted (k a : value) (gs : groups) :
  K k -> Forall (fun p => K (fst p)) gs ->
  StronglySorted key_lt gs ->
  StronglySorted key_lt (add_to_group k a gs).
Proof.
  intros Hk HK Hs. induction Hs as [|[x s] gs Hs IH Hx]; simpl.
  - now repeat constructor.
  - inversion HK as [|? ? Kx Kgs]; subst. simpl in Kx.
    destruct (value_eqb k x) eqn:Eeq.
    + constructor; assumption.
    + destruct (value_ltb k x) eqn:Elt.
      * constructor; [now constructor|]. constructor; [exact Elt|].
        eapply Forall_impl; [|exact Hx]. intros p Hp. unfold key_lt in *.
        simpl in *. eapply value_ltb_trans; eassumption.
      * constructor; [now apply IH|].
        apply add_to_group_above; [|assumption]. simpl.
        apply value_ltb_total; auto.
Qed.

Lemma groups_sorted (key amt : nat) (rs : list (list value)) (gs : groups) :
  (forall r, In r rs -> isna (cell key r) = false -> K (cell key r)) ->
  Forall (fun p => K (fst p)) gs ->
  StronglySorted key_lt gs ->
  StronglySorted key_lt (fold_left (add_row key amt) rs gs).
Proof.
  revert gs. induction rs as [|r rs IH]; intros gs Hrs HK Hs; simpl.
  - assumption.
  - apply IH.
    + intros r' Hr'. apply Hrs. now right.
    + unfold add_row. destruct (isna (cell key r)) eqn:E; [assumption|].
      apply add_to_group_keys; [|assumption]. apply Hrs; [now left | assumption].
    + unfold add_row. destruct (isna (cell key r)) eqn:E; [assumption|].
      apply add_to_group_sorted; try assumption.
      apply Hrs; [now left | assumption].
Qed.

End Groups.

(** ** The category series are in descending order *)

Lemma number_leb_total (a b : number) :
  number_leb a b = false -> number_leb b a = true.
Proof.
  destruct a as [x|[|]|], b as [y|[|]|]; simpl; try discriminate;
    try reflexivity.
  intros H. apply Qc_leb_iff.
  destruct (Qle_bool y x) eqn:E; [now apply Qc_leb_iff in E|].
  assert (negb (Qle_bool x y) = true) as Hxy by now rewrite H.
  assert (negb (Qle_bool y x) = true) as Hyx by now rewrite E.
  apply Qc_ltb_iff in Hxy, Hyx. exfalso.
  exact (Qclt_not_le _ _ Hxy (Qclt_le_weak _ _ Hyx)).
Qed.

Lemma number_leb_trans (a b c : number) :
  number_leb a b = true -> number_leb b c = true -> number_leb a c = true.
Proof.
  destruct a as [x|[|]|], b as [y|[|]|], c as [z|[|]|]; simpl;
    try discriminate; try reflexivity.
  rewrite !Qc_leb_iff. apply Qcle_trans.
Qed.

Lemma goes_first_descending (first : value -> value -> bool)
  (x y : value * number) :
  goes_first first x y = true -> descending x y.
Proof. unfold goes_first, descending. now intros [H _]%andb_true_iff. Qed.

Lemma stays_behind_descending (first : value -> value -> bool)
  (x y : value * number) :
  goes_first first x y = false -> descending y x.
Proof.
  unfold goes_first, descending. intros H.
  destruct (number_leb (snd y) (snd x)) eqn:E; [|now apply number_leb_total].
  simpl in H. apply orb_false_iff in H as [H _].
  now apply negb_false_iff in H.
Qed.

Lemma insert_desc_Forall (first : value -> value -> bool)
  (P : value * number -> Prop) (x : value * number) (l : series) :
  P x -> Forall P l -> Forall P (insert_desc first x l).
Proof.
  intros Hx. induction 1 as [|y ys Hy Hys IH]; simpl.
  - now repeat constructor.
  - destruct (goes_first first x y); repeat constructor; assumption.
Qed.

Lemma insert_desc_sorted (first : value -> value -> bool)
  (x : value * number) (l : series) :
  StronglySorted descending l ->
  StronglySorted descending (insert_desc first x l).
Proof.
  intros Hs. induction Hs as [|y ys Hs IH Hy]; simpl.
  - now repeat constructor.
  - destruct (goes_first first x y) eqn:E.
    + apply goes_first_descending in E.
      constructor; [now constructor|].
      constructor; [assumption|].
      eapply Forall_impl; [|exact Hy]. intros z Hz. unfold descending in *.
      eapply number_leb_trans; eassumption.
    + apply stays_behind_descending in E. constructor; [assumption|].
      now apply insert_desc_Forall.
Qed.

Lemma sort_values_desc_sorted (L : Library) (l : series) :
  StronglySorted descending (sort_values_desc L l).
Proof.
  unfold sort_values_desc. generalize (tie_before L l) as first. intros first.
  induction l as [|x l IH]; simpl; [constructor|].
  now apply insert_desc_sorted.
Qed.

Lemma insert_desc_perm (first : value -> value -> bool) (x : value * number)
  (l : series) :
  Permutation (insert_desc first x l) (x :: l).
Proof.
  induction l as [|y ys IH]; simpl; [reflexivity|].
  destruct (goes_first first x y); [reflexivity|].
  rewrite IH. apply perm_swap.
Qed.

Lemma sort_values_desc_perm (L : Library) (l : series) :
  Permutation (sort_values_desc L l) l.
Proof.
  unfold sort_values_desc. generalize (tie_before L l) as first. intros first.
  induction l as [|x l IH]; simpl; [reflexivity|].
  rewrite insert_desc_perm. now constructor.
Qed.

(** C6, as [sort_values] has it. A category series holds the groups of
    [groupby] with their sums, in descending order of summed amount, [nan]
    last. The order of groups with equal sums is the library's. *)
Theorem category_series_order (L : Library) (source : DataFrame) (c : string)
  (df : DataFrame) (s : series) :
  sales_by L source c df = inl s ->
  StronglySorted descending s /\
  exists key amt,
    position c df = inl key /\
    position "sales_amount" df = inl amt /\
    Permutation s
      (sums L (map (cell amt) (rows source))
         (fold_left (add_row key amt) (rows df) [])).
Proof.
  intros H.
  destruct (sales_by_inv _ _ _ _ _ H) as (key & amt & Hk & Ha & _ & ->).
  split; [apply sort_values_desc_sorted|].
  exists key, amt. repeat split; try assumption.
  apply sort_values_desc_perm.
Qed.

Lemma category_series_order_witness :
  StronglySorted descending
    [(str "B", Finite (Q2Qc 70)); (str "C", Finite (Q2Qc 30));
     (str "A", Finite (Q2Qc 30))] /\
  exists key amt,
    position "product" three_products = inl key /\
    position "sales_amount" three_products = inl amt /\
    Permutation
      [(str "B", Finite (Q2Qc 70)); (str "C", Finite (Q2Qc 30));
       (str "A", Finite (Q2Qc 30))]
      (sums examples (map (cell amt) (rows three_products))
         (fold_left (add_row key amt) (rows three_products) [])).
Proof.
  apply (category_series_order examples three_products "product"
           three_products).
  by_computation.
Defined.

Lemma sales_by_tie (L : Library) (df : DataFrame) :
  df = tie_A_then_B \/ df = tie_B_then_A ->
  sales_by L df "product" df
  = inl (if tie_before L [(str "A", Finite (Q2Qc 10)); (str "B", Finite (Q2Qc 10))]
              (str "A") (str "B")
         then [(str "A", Finite (Q2Qc 10)); (str "B", Finite (Q2Qc 10))]
         else [(str "B", Finite (Q2Qc 10)); (str "A", Finite (Q2Qc 10))]).
Proof.
  intros [-> | ->]; vm_compute; reflexivity.
Qed.

(** C6 as stated fails on ties, whatever the library does with them:
    [groupby] lays the groups out by key, so two tables that list two
    products with equal sales in opposite row orders give [sort_values] the
    same series, and what it returns is first-seen order for at most one of
    them. *)
Lemma ties_are_not_in_first_seen_order :
  ~ exists L : Library,
      forall (df : DataFrame) (key : nat) (s : series),
        position "product" df = inl key ->
        sales_by L df "product" df = inl s ->
        ties_first_seen (map (cell key) (rows df)) s = true.
Proof.
  intros [L H].
  pose proof (H tie_A_then_B 0 _ eq_refl (sales_by_tie L _ (or_introl eq_refl)))
    as H1.
  pose proof (H tie_B_then_A 0 _ eq_refl (sales_by_tie L _ (or_intror eq_refl)))
    as H2.
  destruct (tie_before L _ (str "A") (str "B")); discriminate.
Qed.

(** ** Each group holds the cells of its rows *)

Lemma value_eqb_refl (v : value) : value_eqb v v = true.
Proof.
  destruct v; simpl; try reflexivity.
  - unfold Qc_eq_bool. now destruct (Qc_eq_dec q q).
  - apply String.eqb_refl.
  - apply Z.eqb_refl.
Qed.

Lemma value_eqb_true (a b : value) : value_eqb a b = true -> a = b.
Proof.
  destruct a, b; simpl; try discriminate; try reflexivity; intros H.
  - f_equal. now apply Qc_eq_bool_correct.
  - f_equal. now apply String.eqb_eq.
  - f_equal. now apply Z.eqb_eq.
Qed.

Lemma value_eqb_sym (a b : value) : value_eqb a b = value_eqb b a.
Proof.
  destruct (value_eqb a b) eqn:E.
  - apply value_eqb_true in E. subst. symmetry. apply value_eqb_refl.
  - destruct (value_eqb b a) eqn:E'; [|reflexivity].
    apply value_eqb_true in E'. subst. now rewrite value_eqb_refl in E.
Qed.

Lemma value_ltb_irrefl (v : value) : value_ltb v v = false.
Proof.
  destruct v; simpl; try reflexivity.
  - apply negb_false_iff, Qc_leb_iff, Qcle_refl.
  - unfold String.ltb.
    destruct (String.compare s s) eqn:E; try reflexivity.
    pose proof (String.compare_antisym s s) as A. rewrite E in A.
    discriminate A.
  - apply Z.ltb_irrefl.
Qed.

Lemma get_In {A : Type} (k : value) (v : A) (gs : list (value * A)) :
  get k gs = Some v -> In (k, v) gs.
Proof.
  induction gs as [|[x s] gs IH]; simpl; [discriminate|].
  destruct (value_eqb k x) eqn:E.
  - intros [= <-]. apply value_eqb_true in E. subst. now left.
  - intros H. right. now apply IH.
Qed.

Lemma In_get {A : Type} (k : value) (v : A) (gs : list (value * A)) :
  NoDup (map fst gs) -> In (k, v) gs -> get k gs = Some v.
Proof.
  induction gs as [|[x s] gs IH]; simpl; [contradiction|].
  intros Hnd Hin. inversion Hnd as [|? ? Hx Hgs]; subst.
  destruct Hin as [[= <- <-]|Hin]; [now rewrite value_eqb_refl|].
  destruct (value_eqb k x) eqn:E; [|now apply IH].
  apply value_eqb_true in E. subst. exfalso. apply Hx.
  now apply (in_map fst) in Hin.
Qed.

Lemma get_above {A : Type} (k : value) (gs : list (value * A)) :
  Forall (fun p => value_ltb k (fst p) = true) gs -> get k gs = None.
Proof.
  induction 1 as [|[x s] gs Hx _ IH]; simpl; [reflexivity|].
  simpl in Hx. destruct (value_eqb k x) eqn:E; [|assumption].
  apply value_eqb_true in E. subst. now rewrite value_ltb_irrefl in Hx.
Qed.

Lemma sorted_keys_NoDup {A : Type} (gs : list (value * A)) :
  StronglySorted key_lt gs -> NoDup (map fst gs).
Proof.
  induction 1 as [|[x s] gs _ IH Hx]; simpl; constructor; [|assumption].
  intros Hin. apply in_map_iff in Hin as ([y t] & Hy & Hin). simpl in Hy. subst y.
  rewrite Forall_forall in Hx. specialize (Hx _ Hin). unfold key_lt in Hx.
  simpl in Hx. now rewrite value_ltb_irrefl in Hx.
Qed.

Lemma get_add_other (k k' a : value) (gs : groups) :
  value_eqb k k' = false -> get k (add_to_group k' a gs) = get k gs.
Proof.
  intros Hne. induction gs as [|[x s] gs IH]; simpl.
  - now rewrite Hne.
  - destruct (value_eqb k' x) eqn:E.
    + apply value_eqb_true in E. subst x. simpl. now rewrite Hne.
    + destruct (value_ltb k' x); simpl; [now rewrite Hne|].
      now rewrite IH.
Qed.

Lemma get_add_same (k a : value) (gs : groups) :
  StronglySorted key_lt gs ->
  get k (add_to_group k a gs)
  = Some (match get k gs with Some cs => cs ++ [a] | None => [a] end).
Proof.
  induction 1 as [|[x s] gs Hs IH Hx]; simpl.
  - now rewrite value_eqb_refl.
  - destruct (value_eqb k x) eqn:E; simpl.
    + now rewrite E.
    + destruct (value_ltb k x) eqn:Hlt; simpl.
      * rewrite value_eqb_refl. rewrite get_above; [reflexivity|].
        eapply Forall_impl; [|exact Hx]. intros p Hp. unfold key_lt in Hp.
        simpl in Hp. eapply value_ltb_trans; eassumption.
      * now rewrite E.
Qed.

Lemma group_cells_cons (key amt : nat) (k : value) (r : list value)
  (rs : list (list value)) :
  group_cells key amt k (r :: rs)
  = (if value_eqb (cell key r) k then [cell amt r] else [])
    ++ group_cells key amt k rs.
Proof.
  unfold group_cells. simpl. now destruct (value_eqb (cell key r) k).
Qed.

Lemma groups_keys (Q : value -> Prop) (key amt : nat)
  (rs : list (list value)) (gs : groups) :
  (forall r, In r rs -> isna (cell key r) = false -> Q (cell key r)) ->
  Forall (fun p => Q (fst p)) gs ->
  Forall (fun p => Q (fst p)) (fold_left (add_row key amt) rs gs).
Proof.
  revert gs. induction rs as [|r rs IH]; intros gs Hrs Hgs; simpl.
  - assumption.
  - apply IH; [intros r' Hr'; apply Hrs; now right|].
    unfold add_row. destruct (isna (cell key r)) eqn:E; [assumption|].
    apply add_to_group_keys; [|assumption]. apply Hrs; [now left | assumption].
Qed.

Section GroupCells.

Variable K : value -> Prop.
Hypothesis K_ordered : forall a b, K a -> K b -> ordered_pair a b.

Lemma get_groups (key amt : nat) (k : value) (rs : list (list value))
  (gs : groups) :
  isna k = false ->
  (forall r, In r rs -> isna (cell key r) = false -> K (cell key r)) ->
  Forall (fun p => K (fst p)) gs ->
  StronglySorted key_lt gs ->
  get k (fold_left (add_row key amt) rs gs)
  = match get k gs with
    | Some cs => Some (cs ++ group_cells key amt k rs)
    | None =>
        if existsb (fun r => value_eqb (cell key r) k) rs
        then Some (group_cells key amt k rs)
        else None
    end.
Proof.
  intros Hk. revert gs. induction rs as [|r rs IH]; intros gs Hrs HK Hs.
  - simpl. destruct (get k gs); [|reflexivity]. f_equal.
    unfold group_cells. simpl. now rewrite app_nil_r.
  - simpl fold_left. simpl existsb. rewrite group_cells_cons.
    unfold add_row at 2. destruct (isna (cell key r)) eqn:Hna.
    + assert (value_eqb (cell key r) k = false) as ->.
      { destruct (cell key r), k; try discriminate; reflexivity. }
      rewrite IH; try assumption; [|intros r' Hr'; apply Hrs; now right].
      reflexivity.
    + assert (K (cell key r)) as Kr by (apply Hrs; [now left | assumption]).
      rewrite IH.
      * destruct (value_eqb (cell key r) k) eqn:E.
        -- apply value_eqb_true in E. rewrite E.
           rewrite get_add_same by assumption. simpl.
           destruct (get k gs); [now rewrite <- app_assoc | reflexivity].
        -- rewrite get_add_other by (now rewrite value_eqb_sym).
           reflexivity.
      * intros r' Hr'. apply Hrs. now right.
      * now apply add_to_group_keys.
      * now apply (add_to_group_sorted K K_ordered).
Qed.

End GroupCells.

Lemma existsb_key (key : nat) (k : value) (rs : list (list value)) :
  existsb (fun r => value_eqb (cell key r) k) rs = true
  <-> In k (map (cell key) rs).
Proof.
  rewrite existsb_exists, in_map_iff. split.
  - intros (r & Hr & E). apply value_eqb_true in E. now exists r.
  - intros (r & E & Hr). exists r. split; [assumption|].
    rewrite E. apply value_eqb_refl.
Qed.

Lemma groups_by_key (key amt : nat) (rs : list (list value)) :
  dates_with_numbers (map (cell key) rs) = false ->
  StronglySorted key_lt (fold_left (add_row key amt) rs []).
Proof.
  intros Hd.
  apply groups_sorted with
    (K := fun v => isna v = false /\ In v (map (cell key) rs)).
  - intros a b [Ha Ia] [Hb Ib]. repeat split; try assumption.
    eapply dates_with_numbers_pairs; eassumption.
  - intros r Hr Hna. split; [assumption | now apply in_map].
  - constructor.
  - constructor.
Qed.

(** What [groupby(key)[amt]] holds, key by key. *)
Lemma groups_spec (key amt : nat) (rs : list (list value)) :
  dates_with_numbers (map (cell key) rs) = false ->
  NoDup (map fst (fold_left (add_row key amt) rs [])) /\
  forall k cs,
    In (k, cs) (fold_left (add_row key amt) rs [])
    <-> isna k = false /\ In k (map (cell key) rs) /\
        cs = group_cells key amt k rs.
Proof.
  intros Hd.
  set (K := fun v => isna v = false /\ In v (map (cell key) rs)).
  assert (forall a b, K a -> K b -> ordered_pair a b) as KO.
  { intros a b [Ha Ia] [Hb Ib]. repeat split; try assumption.
    eapply dates_with_numbers_pairs; eassumption. }
  assert (forall r, In r rs -> isna (cell key r) = false -> K (cell key r)) as Hrs.
  { intros r Hr Hna. split; [assumption | now apply in_map]. }
  pose proof (groups_by_key key amt rs Hd) as Hs.
  assert (Forall (fun p => K (fst p)) (fold_left (add_row key amt) rs [])) as HK.
  { apply (groups_keys K); [assumption | constructor]. }
  pose proof (sorted_keys_NoDup _ Hs) as Hnd. split; [assumption|].
  intros k v. split.
  - intros Hin. rewrite Forall_forall in HK.
    destruct (HK _ Hin) as [Hna Hcol]. simpl in Hna, Hcol.
    apply In_get in Hin; [|assumption].
    rewrite (get_groups K KO key amt k rs [] Hna Hrs) in Hin;
      [|constructor|constructor].
    simpl in Hin. pose proof Hcol as Hex. apply existsb_key in Hex.
    rewrite Hex in Hin. injection Hin as Hv.
    repeat split; [assumption | assumption | now symmetry].
  - intros (Hna & Hcol & ->). apply get_In.
    rewrite (get_groups K KO key amt k rs [] Hna Hrs); [|constructor|constructor].
    simpl. apply existsb_key in Hcol. now rewrite Hcol.
Qed.

(** The same for the sums. *)
Lemma sums_spec (L : Library) (origin : list value) (key amt : nat)
  (rs : list (list value)) :
  dates_with_numbers (map (cell key) rs) = false ->
  NoDup (map fst (sums L origin (fold_left (add_row key amt) rs []))) /\
  forall k v,
    In (k, v) (sums L origin (fold_left (add_row key amt) rs []))
    <-> isna k = false /\ In k (map (cell key) rs) /\
        v = group_sum L origin (group_cells key amt k rs).
Proof.
  intros Hd. destruct (groups_spec key amt rs Hd) as [Hnd Hspec]. split.
  - unfold sums. rewrite map_map. simpl. exact Hnd.
  - intros k v. unfold sums. rewrite in_map_iff. split.
    + intros ([k' cs] & [= <- <-] & Hin). apply Hspec in Hin as (? & ? & ->).
      auto.
    + intros (Hna & Hin & ->). exists (k, group_cells key amt k rs).
      split; [reflexivity|]. apply Hspec. auto.
Qed.

Lemma exact_group_cells (key amt : nat) (k : value) (rs : list (list value)) :
  exact (map (cell amt) rs) = true ->
  exact (group_cells key amt k rs) = true.
Proof. apply exact_filter. Qed.

(** X7. A category series holds one entry for each value of the grouping
    column that is not missing, and no other entry; the sum in the entry of a
    value is the library's sum of the amounts of the rows that carry it,
    which is their sum where the amounts are in the exact range. *)
Theorem each_group_holds_its_sum (L : Library) (source : DataFrame)
  (c : string) (df : DataFrame) (s : series) :
  sales_by L source c df = inl s ->
  exists key amt,
    position c df = inl key /\
    position "sales_amount" df = inl amt /\
    NoDup (map fst s) /\
    (forall k v,
       In (k, v) s
       <-> isna k = false /\ In k (map (cell key) (rows df)) /\
           v = group_sum L (map (cell amt) (rows source))
                 (group_cells key amt k (rows df))) /\
    (exact (map (cell amt) (rows df)) = true ->
     forall k v,
       In (k, v) s -> v = Finite (nansum (group_cells key amt k (rows df)))).
Proof.
  intros H.
  destruct (sales_by_inv _ _ _ _ _ H) as (key & amt & Hkey & Hamt & Hd & ->).
  destruct (sums_spec L (map (cell amt) (rows source)) key amt (rows df) Hd)
    as [Hnd Hspec].
  pose proof (sort_values_desc_perm L
                (sums L (map (cell amt) (rows source))
                   (fold_left (add_row key amt) (rows df) []))) as P.
  assert (forall k v,
            In (k, v) (sort_values_desc L
                         (sums L (map (cell amt) (rows source))
                            (fold_left (add_row key amt) (rows df) [])))
            <-> isna k = false /\ In k (map (cell key) (rows df)) /\
                v = group_sum L (map (cell amt) (rows source))
                      (group_cells key amt k (rows df))) as Hs.
  { intros k v. rewrite <- Hspec. split; intros Hin.
    - eapply Permutation_in; eassumption.
    - eapply Permutation_in; [symmetry; exact P | assumption]. }
  exists key, amt. split; [assumption|]. split; [assumption|]. split.
  - eapply Permutation_NoDup; [|exact Hnd].
    apply Permutation_map. now symmetry.
  - split; [exact Hs|].
    intros He k v Hin. apply Hs in Hin as (_ & _ & ->).
    unfold group_sum. now rewrite (exact_group_cells key amt k _ He).
Qed.

Lemma each_group_holds_its_sum_witness :
  exact [num 100; num 50; num 30] = true /\
  (exists key amt,
      position "productline" products_table = inl key /\
      position "sales_amount" products_table = inl amt /\
      NoDup (map fst [(str "A", Finite (Q2Qc 130)); (str "B", Finite (Q2Qc 50))]) /\
      (forall k v,
         In (k, v) [(str "A", Finite (Q2Qc 130)); (str "B", Finite (Q2Qc 50))]
         <-> isna k = false /\ In k (map (cell key) (rows products_table)) /\
             v = group_sum examples (map (cell amt) (rows products_table))
                   (group_cells key amt k (rows products_table))) /\
      (exact (map (cell amt) (rows products_table)) = true ->
       forall k v,
         In (k, v) [(str "A", Finite (Q2Qc 130)); (str "B", Finite (Q2Qc 50))] ->
         v = Finite (nansum (group_cells key amt k (rows products_table))))).
Proof.
  split; [reflexivity|].
  apply (each_group_holds_its_sum examples products_table "productline"
           products_table).
  by_computation.
Defined.

(** ** Cells and assignments *)

Lemma cell_set_cell_same (i : nat) (v : value) (r : list value) :
  cell i (set_cell i v r) = v.
Proof.
  unfold cell. revert r. induction i as [|i IH]; intros [|x r]; simpl; auto.
Qed.

Lemma cell_set_cell_other (i j : nat) (v : value) (r : list value) :
  j <> i -> cell j (set_cell i v r) = cell j r.
Proof.
  unfold cell. revert j r. induction i as [|i IH]; intros [|j] [|x r] H; simpl;
    try congruence; try reflexivity.
  - now destruct j.
  - rewrite IH by congruence. now destruct j.
  - apply IH. congruence.
Qed.

Lemma index_of_distinct (a b : string) (labels : list string) (i j : nat) :
  a <> b -> index_of a labels = Some i -> index_of b labels = Some j -> i <> j.
Proof.
  intros Hne Ha Hb ->. apply index_of_label in Ha, Hb. congruence.
Qed.

Lemma filter_map_swap {A B : Type} (f : A -> B) (p : B -> bool) (l : list A) :
  filter p (map f l) = map f (filter (fun x => p (f x)) l).
Proof.
  induction l as [|x l IH]; simpl; [reflexivity|].
  rewrite IH. now destruct (p (f x)).
Qed.

Lemma nansum_split {A : Type} (f : A -> value) (p : A -> bool) (l : list A) :
  nansum (map f l)
  = (nansum (map f (filter p l))
     + nansum (map f (filter (fun x => negb (p x)) l)))%Qc.
Proof.
  induction l as [|x l IH]; simpl; [ring|].
  rewrite IH. destruct (p x); simpl; ring.
Qed.

Lemma length_split {A : Type} (p : A -> bool) (l : list A) :
  List.length l
  = List.length (filter p l) + List.length (filter (fun x => negb (p x)) l).
Proof.
  induction l as [|x l IH]; simpl; [reflexivity|].
  destruct (p x); simpl; lia.
Qed.

Lemma count_label_cons (name l : string) (ls : list string) :
  count_label name (l :: ls)
  = (if String.eqb name l then 1 else 0) + count_label name ls.
Proof. unfold count_label. simpl. now destruct (String.eqb name l). Qed.

Lemma set_labelled_absent (name : string) (labels : list string) (n : nat)
  (v : value) (r : list value) :
  count_label name labels = 0 -> set_labelled name labels n v r = r.
Proof.
  revert n. induction labels as [|l ls IH]; intros n; simpl; [reflexivity|].
  rewrite count_label_cons. destruct (String.eqb name l); [discriminate|].
  simpl. apply IH.
Qed.

(** On a label that names one column, [df[name] = ...] writes that column. *)
Lemma set_labelled_once (name : string) (labels : list string) (n i : nat)
  (v : value) (r : list value) :
  index_of name labels = Some i -> count_label name labels = 1 ->
  set_labelled name labels n v r = set_cell (n + i) v r.
Proof.
  revert n i. induction labels as [|l ls IH]; intros n i; simpl; [discriminate|].
  rewrite count_label_cons. destruct (String.eqb name l).
  - intros [= <-] Hc. rewrite set_labelled_absent by lia.
    now rewrite Nat.add_0_r.
  - destruct (index_of name ls) as [j|]; simpl; [|discriminate].
    intros [= <-] Hc. rewrite (IH (S n) j) by (reflexivity || assumption).
    f_equal. lia.
Qed.

Lemma assign_once (name : string) (f : list value -> value) (df : DataFrame)
  (i : nat) :
  position name df = inl i ->
  assign name f df
  = mkFrame (columns df) (map (fun r => set_cell i (f r) r) (rows df)).
Proof.
  intros Hi. unfold assign.
  assert (existsb (String.eqb name) (columns df) = true) as ->.
  { apply (has_column_In name df). apply position_inv, index_of_label in Hi.
    eapply nth_error_In; eassumption. }
  f_equal. apply map_ext. intros r.
  apply (set_labelled_once name (columns df) 0 i);
    [now apply position_inv | now apply position_once with i].
Qed.

Lemma mass_insert_by_key (x : value * number) (l : series) :
  mass (insert_by_key x l) = mass (x :: l).
Proof.
  induction l as [|y ys IH]; simpl; [reflexivity|].
  destruct (value_ltb (fst y) (fst x)); [|reflexivity].
  simpl. rewrite IH. simpl.
  destruct x as [kx [qx| |]], y as [ky [qy| |]]; simpl; try reflexivity;
    destruct (mass ys); simpl; try reflexivity.
  f_equal. ring.
Qed.

Lemma mass_sort_values_key (l : series) : mass (sort_values_key l) = mass l.
Proof.
  induction l as [|x l IH]; [reflexivity|].
  unfold sort_values_key. simpl fold_right. rewrite mass_insert_by_key.
  now apply mass_cons.
Qed.

Lemma insert_by_key_perm (x : value * number) (l : series) :
  Permutation (insert_by_key x l) (x :: l).
Proof.
  induction l as [|y ys IH]; simpl; [reflexivity|].
  destruct (value_ltb (fst y) (fst x)); [|reflexivity].
  rewrite IH. apply perm_swap.
Qed.

Lemma sort_values_key_perm (l : series) : Permutation (sort_values_key l) l.
Proof.
  induction l as [|x l IH]; simpl; [reflexivity|].
  rewrite insert_by_key_perm. now constructor.
Qed.

(** ** The trend block *)

Lemma trend_without_dates (L : Library) (source df : DataFrame) :
  has_column "orderdate" df = false ->
  trend L source df = inl (None, mkFrames df df).
Proof. unfold trend. now intros ->. Qed.

Lemma trend_inv (L : Library) (source df : DataFrame) (t : option series)
  (fr : Frames) :
  has_column "orderdate" df = true ->
  trend L source df = inl (t, fr) ->
  exists i amt,
    position "orderdate" df = inl i /\
    position "sales_amount" df = inl amt /\
    i <> amt /\
    df_object fr = mkFrame (columns df) (map (with_date L i df) (rows df)) /\
    df_binding fr
    = mkFrame (columns df)
        (map (with_date L i df) (filter (parsable L i df) (rows df))) /\
    dates_with_numbers
      (map (cell i)
         (map (with_date L i df) (filter (parsable L i df) (rows df)))) = false /\
    t = Some (sort_values_key
                (sums L (map (cell amt) (rows source))
                   (fold_left (add_row i amt)
                      (map (with_date L i df)
                         (filter (parsable L i df) (rows df)))
                      []))).
Proof.
  intros Hd. unfold trend, bind. rewrite Hd.
  destruct (position "orderdate" df) as [i|e] eqn:Hi; [|discriminate].
  rewrite (assign_once _ _ _ _ Hi).
  change (mkFrame (columns df)
            (map (fun r => set_cell i
                             (to_datetime L (map (cell i) (rows df)) (cell i r)) r)
               (rows df)))
    with (mkFrame (columns df) (map (with_date L i df) (rows df))).
  assert (dropna i (mkFrame (columns df) (map (with_date L i df) (rows df)))
          = mkFrame (columns df)
              (map (with_date L i df) (filter (parsable L i df) (rows df)))) as ->.
  { unfold dropna. simpl. rewrite filter_map_swap. do 2 f_equal.
    apply filter_ext. intros r. unfold parsable, with_date.
    now rewrite cell_set_cell_same. }
  rewrite (position_columns "sales_amount" df) by reflexivity.
  destruct (position "sales_amount" df) as [amt|e] eqn:Ha; [|discriminate].
  destruct (groupby_sum _ _ _ _ _) as [g|e] eqn:Hg; [|discriminate].
  apply groupby_sum_inv in Hg as (Hdn & _ & ->). simpl in Hdn |- *.
  intros [= <- <-]. exists i, amt. repeat split; try assumption.
  apply (index_of_distinct "orderdate" "sales_amount" (columns df));
    [discriminate | now apply position_inv | now apply position_inv].
Qed.

Lemma aggregate_inv (L : Library) (source : DataFrame) (pc rc : option string)
  (df : DataFrame) (r : AggregateResult) (fr : Frames) :
  aggregate L source pc rc df = inl (r, fr) ->
  kpis L source df = inl (metrics r) /\
  sales_by_opt L source pc df = inl (sales_by_product r) /\
  sales_by_opt L source rc df = inl (sales_by_region r) /\
  trend L source df = inl (sales_trend r, fr).
Proof.
  unfold aggregate, bind.
  destruct (kpis L source df) as [k|e]; [|discriminate].
  destruct (sales_by_opt L source pc df) as [p|e]; [|discriminate].
  destruct (sales_by_opt L source rc df) as [q|e]; [|discriminate].
  destruct (trend L source df) as [[t fr']|e]; [|discriminate].
  intros [= <- <-]. simpl. repeat split.
Qed.

Lemma amounts_with_date (L : Library) (i amt : nat) (df : DataFrame)
  (rs : list (list value)) :
  i <> amt ->
  map (cell amt) (map (with_date L i df) rs) = map (cell amt) rs.
Proof.
  intros H. rewrite map_map. apply map_ext. intros r.
  unfold with_date. apply cell_set_cell_other. congruence.
Qed.

Lemma keyed_with_date (L : Library) (i : nat) (df : DataFrame) :
  keyed i (map (with_date L i df) (filter (parsable L i df) (rows df)))
  = map (with_date L i df) (filter (parsable L i df) (rows df)).
Proof.
  unfold keyed. apply forallb_filter_id. apply forallb_forall.
  intros r' Hr'. apply in_map_iff in Hr' as (r & <- & Hr).
  apply filter_In in Hr as [_ Hr]. unfold with_date.
  now rewrite cell_set_cell_same.
Qed.

(** The keys [groupby] finds in the rows line 166 keeps: the parsed dates. *)
Lemma dated_keys (L : Library) (i : nat) (df : DataFrame) (k : value) :
  isna k = false /\
  In k (map (cell i)
          (map (with_date L i df) (filter (parsable L i df) (rows df))))
  <-> exists row, In row (rows df) /\ parsable L i df row = true /\
                  k = date_of L i df row.
Proof.
  rewrite map_map. split.
  - intros [_ Hin]. apply in_map_iff in Hin as (row & <- & Hrow).
    apply filter_In in Hrow as [Hin Hp]. exists row.
    unfold with_date. now rewrite cell_set_cell_same.
  - intros (row & Hin & Hp & ->). split.
    + unfold parsable in Hp. now apply negb_true_iff in Hp.
    + apply in_map_iff. exists row. unfold with_date.
      rewrite cell_set_cell_same. split; [reflexivity|].
      now apply filter_In.
Qed.

Lemma In_keys {A : Type} (k : value) (s : list (value * A)) :
  In k (map fst s) <-> exists v, In (k, v) s.
Proof.
  rewrite in_map_iff. split.
  - intros ([k' v] & <- & Hin). now exists v.
  - intros [v Hin]. now exists (k, v).
Qed.

(** A category series has a group for every row with a key, and its sums
    add up to the amounts of these rows. *)
Lemma sales_by_opt_covers (L : Library) (source : DataFrame)
  (c : option string) (df : DataFrame) (chart : option series) (amt : nat) :
  sales_by_opt L source c df = inl chart ->
  position "sales_amount" df = inl amt ->
  covers_all_rows df amt c chart.
Proof.
  destruct c as [c|]; simpl; [|now intros [= <-]].
  unfold bind. destruct (sales_by L source c df) as [s|e] eqn:Hs; [|discriminate].
  intros [= <-] Ha.
  destruct (sales_by_inv _ _ _ _ _ Hs) as (key & amt' & Hkey & Hamt & Hd & ->).
  assert (amt' = amt) as -> by congruence.
  exists key, (sort_values_desc L
                 (sums L (map (cell amt) (rows source))
                    (fold_left (add_row key amt) (rows df) []))).
  split; [assumption|]. split; [reflexivity|]. split.
  - intros row Hrow Hna. apply In_keys.
    exists (group_sum L (map (cell amt) (rows source))
              (group_cells key amt (cell key row) (rows df))).
    eapply Permutation_in; [symmetry; apply sort_values_desc_perm|].
    apply sums_spec; [assumption|]. repeat split; [assumption|].
    now apply in_map.
  - intros He.
    rewrite mass_sort_values_desc, mass_sums by now apply exact_groups.
    now rewrite (nansum_perm _ _ (cells_groups key amt (rows df) [])).
Qed.

(** C7. With an [orderdate] column, the trend is built from the rows whose
    date parses and from them only: its points are the parsed dates of
    these rows. The KPIs and the category series are built from every row:
    the transaction count is the number of rows of both kinds, the total
    and the mean are the sum and the mean of the amounts of all rows, and
    each category series has a group for every row whose key is not
    missing, whether its date parses or not. Where the amounts are in the exact
    range, the sums of the trend add up to the amounts of the rows whose
    date parses, the total is that plus the amounts of the rows whose date
    does not parse, the mean is the total over the number of valid amounts
    of all rows, and the sums of each category series add up to the amounts
    of all rows with a key. *)
Theorem unparsable_dates_leave_the_trend_only
  (L : Library) (source : DataFrame) (pc rc : option string) (df : DataFrame)
  (r : AggregateResult) (fr : Frames) :
  aggregate L source pc rc df = inl (r, fr) ->
  has_column "orderdate" df = true ->
  exists i amt t,
    position "orderdate" df = inl i /\
    position "sales_amount" df = inl amt /\
    sales_trend r = Some t /\
    (forall k, In k (map fst t)
               <-> exists row, In row (rows df) /\
                               parsable L i df row = true /\
                               k = date_of L i df row) /\
    num_transactions (metrics r)
    = List.length (filter (parsable L i df) (rows df))
      + List.length (filter (fun row => negb (parsable L i df row)) (rows df)) /\
    series_sum L (map (cell amt) (rows source)) (map (cell amt) (rows df))
    = inl (total_sales (metrics r)) /\
    series_mean L (map (cell amt) (rows source)) (map (cell amt) (rows df))
    = inl (avg_sales (metrics r)) /\
    covers_all_rows df amt pc (sales_by_product r) /\
    covers_all_rows df amt rc (sales_by_region r) /\
    (exact (map (cell amt) (rows df)) = true ->
     mass t
     = Some (nansum (map (cell amt) (filter (parsable L i df) (rows df)))) /\
     total_sales (metrics r)
     = Finite
         (nansum (map (cell amt) (filter (parsable L i df) (rows df)))
          + nansum (map (cell amt)
                      (filter (fun row => negb (parsable L i df row))
                         (rows df))))%Qc /\
     avg_sales (metrics r)
     = (if count_valid (map (cell amt) (rows df)) =? 0 then NotANumber
        else Finite
               (float_div L
                  (nansum (map (cell amt) (filter (parsable L i df) (rows df)))
                   + nansum (map (cell amt)
                               (filter (fun row => negb (parsable L i df row))
                                  (rows df))))%Qc
                  (Qc_of_nat (count_valid (map (cell amt) (rows df))))))).
Proof.
  intros Hagg Hd.
  destruct (aggregate_inv _ _ _ _ _ _ _ Hagg) as (Hk & Hp & Hr & Ht).
  destruct (trend_inv _ _ _ _ _ Hd Ht)
    as (i & amt & Hi & Ha & Hne & _ & _ & Hdn & Hs).
  destruct (kpis_inv _ _ _ _ Hk) as (j & Hj & Href & Hnum & Htot & Havg & Hn).
  assert (j = amt) as -> by congruence.
  set (kept := map (with_date L i df) (filter (parsable L i df) (rows df))) in *.
  exists i, amt, (sort_values_key
                    (sums L (map (cell amt) (rows source))
                       (fold_left (add_row i amt) kept []))).
  split; [assumption|]. split; [assumption|]. split; [assumption|].
  split; [|split; [|split; [|split; [|split; [|split]]]]].
  - intros k. rewrite <- dated_keys. fold kept. rewrite In_keys. split.
    + intros [v Hin].
      apply (Permutation_in _ (sort_values_key_perm _)) in Hin.
      apply sums_spec in Hin as (? & ? & _); auto.
    + intros [Hna Hin].
      exists (group_sum L (map (cell amt) (rows source))
                (group_cells i amt k kept)).
      apply (Permutation_in _ (Permutation_sym (sort_values_key_perm _))).
      apply sums_spec; auto.
  - rewrite Hn. apply length_split.
  - unfold series_sum. now rewrite Href, Hnum, Htot.
  - unfold series_mean. now rewrite Href, Hnum, Havg.
  - now apply (sales_by_opt_covers L source).
  - now apply (sales_by_opt_covers L source).
  - intros He. rewrite He in Htot, Havg.
    rewrite <- (nansum_split (cell amt) (parsable L i df) (rows df)).
    split; [|split; [assumption|]].
    + assert (map (cell amt) kept
              = map (cell amt) (filter (parsable L i df) (rows df))) as Hk'
        by (apply amounts_with_date; assumption).
      rewrite mass_sort_values_key, mass_sums.
      * rewrite (nansum_perm _ _ (cells_groups i amt kept [])). simpl.
        unfold kept. now rewrite keyed_with_date, amounts_with_date.
      * apply exact_groups. rewrite Hk'. now apply exact_filter.
    + rewrite Havg.
      destruct (count_valid (map (cell amt) (rows df))); reflexivity.
Qed.

(** C8, as the script has it. The KPIs and the category series read the
    filtered table and leave it alone. The trend block does not: without
    an [orderdate] column nothing changes, and with one line 165
    overwrites that column of the filtered table, cell by cell, with the
    parsed dates (every other cell and the number of rows stay), and
    line 166 rebinds [df] to the rows of it whose date is not missing. *)
Theorem trend_rewrites_orderdate
  (L : Library) (source : DataFrame) (pc rc : option string) (df : DataFrame)
  (r : AggregateResult) (fr : Frames) :
  aggregate L source pc rc df = inl (r, fr) ->
  (has_column "orderdate" df = false ->
   df_object fr = df /\ df_binding fr = df) /\
  (has_column "orderdate" df = true ->
   exists i,
     position "orderdate" df = inl i /\
     columns (df_object fr) = columns df /\
     Forall2 (fun old new =>
                cell i new = date_of L i df old /\
                forall j, j <> i -> cell j new = cell j old)
       (rows df) (rows (df_object fr)) /\
     columns (df_binding fr) = columns df /\
     rows (df_binding fr)
     = filter (fun row => negb (isna (cell i row))) (rows (df_object fr))).
Proof.
  intros Hagg.
  destruct (aggregate_inv _ _ _ _ _ _ _ Hagg) as (_ & _ & _ & Ht).
  split; intros Hd.
  - rewrite (trend_without_dates L source df Hd) in Ht. injection Ht as _ <-.
    split; reflexivity.
  - destruct (trend_inv _ _ _ _ _ Hd Ht) as (i & amt & Hi & _ & _ & Ho & Hb & _).
    exists i. rewrite Ho, Hb. simpl. repeat split; try assumption.
    + assert (forall l,
                Forall2 (fun old new =>
                           cell i new = date_of L i df old /\
                           forall j, j <> i -> cell j new = cell j old)
                  l (map (with_date L i df) l)) as F; [|apply F].
      induction l as [|row l IH]; simpl; constructor; [|assumption].
      split; [apply cell_set_cell_same|].
      intros j Hj. now apply cell_set_cell_other.
    + rewrite filter_map_swap. f_equal. apply filter_ext. intros row.
      unfold parsable, with_date. now rewrite cell_set_cell_same.
Qed.

(** ** Four dates, one of which does not parse *)

Lemma dated_table_filtered :
  filtered examples dated_selections dated_upload
  = inl (dated_table, Some "product", Some "region", dated_table).
Proof. reflexivity. Qed.

Lemma dated_table_aggregate :
  aggregate examples dated_table (Some "product") (Some "region") dated_table
  = inl (dated_result, dated_frames).
Proof. by_computation. Qed.

Lemma unparsable_dates_leave_the_trend_only_witness :
  exact [num 100; num 50; num 30; num 20] = true /\
  (exists i amt t,
      position "orderdate" dated_table = inl i /\
      position "sales_amount" dated_table = inl amt /\
      sales_trend dated_result = Some t /\
      (forall k, In k (map fst t)
                 <-> exists row, In row (rows dated_table) /\
                                 parsable examples i dated_table row = true /\
                                 k = date_of examples i dated_table row) /\
      num_transactions (metrics dated_result)
      = List.length (filter (parsable examples i dated_table) (rows dated_table))
        + List.length
            (filter (fun row => negb (parsable examples i dated_table row))
               (rows dated_table)) /\
      series_sum examples (map (cell amt) (rows dated_table))
        (map (cell amt) (rows dated_table))
      = inl (total_sales (metrics dated_result)) /\
      series_mean examples (map (cell amt) (rows dated_table))
        (map (cell amt) (rows dated_table))
      = inl (avg_sales (metrics dated_result)) /\
      covers_all_rows dated_table amt (Some "product")
        (sales_by_product dated_result) /\
      covers_all_rows dated_table amt (Some "region")
        (sales_by_region dated_result) /\
      (exact (map (cell amt) (rows dated_table)) = true ->
       mass t
       = Some (nansum (map (cell amt)
                         (filter (parsable examples i dated_table)
                            (rows dated_table)))) /\
       total_sales (metrics dated_result)
       = Finite
           (nansum (map (cell amt)
                      (filter (parsable examples i dated_table)
                         (rows dated_table)))
            + nansum (map (cell amt)
                        (filter
                           (fun row => negb (parsable examples i dated_table row))
                           (rows dated_table))))%Qc /\
       avg_sales (metrics dated_result)
       = (if count_valid (map (cell amt) (rows dated_table)) =? 0
          then NotANumber
          else Finite
                 (float_div examples
                    (nansum (map (cell amt)
                               (filter (parsable examples i dated_table)
                                  (rows dated_table)))
                     + nansum (map (cell amt)
                                 (filter
                                    (fun row =>
                                       negb (parsable examples i dated_table row))
                                    (rows dated_table))))%Qc
                    (Qc_of_nat
                       (count_valid (map (cell amt) (rows dated_table)))))))).
Proof.
  split; [reflexivity|].
  apply (unparsable_dates_leave_the_trend_only examples dated_table
           (Some "product") (Some "region") dated_table dated_result
           dated_frames).
  - exact dated_table_aggregate.
  - reflexivity.
Defined.

Lemma trend_rewrites_orderdate_witness :
  (has_column "orderdate" dated_table = false ->
   df_object dated_frames = dated_table /\ df_binding dated_frames = dated_table) /\
  (has_column "orderdate" dated_table = true ->
   exists i,
     position "orderdate" dated_table = inl i /\
     columns (df_object dated_frames) = columns dated_table /\
     Forall2 (fun old new =>
                cell i new = date_of examples i dated_table old /\
                forall j, j <> i -> cell j new = cell j old)
       (rows dated_table) (rows (df_object dated_frames)) /\
     columns (df_binding dated_frames) = columns dated_table /\
     rows (df_binding dated_frames)
     = filter (fun row => negb (isna (cell i row))) (rows (df_object dated_frames))).
Proof.
  apply (trend_rewrites_orderdate examples dated_table
           (Some "product") (Some "region") dated_table dated_result
           dated_frames).
  exact dated_table_aggregate.
Defined.

(** C8 as stated fails on any table with an [orderdate] column: after the
    aggregates of [dated_table] are computed, the frame object holds
    timestamps and [NaT] where it held strings, and [df] names a frame with
    one row less. *)
Lemma trend_block_changes_the_table :
  filtered examples dated_selections dated_upload
  = inl (dated_table, Some "product", Some "region", dated_table)
  /\ aggregate examples dated_table (Some "product") (Some "region") dated_table
     = inl (dated_result, dated_frames)
  /\ df_object dated_frames <> dated_table
  /\ df_binding dated_frames <> dated_table.
Proof.
  split; [exact dated_table_filtered|].
  split; [exact dated_table_aggregate|].
  split; intros H; discriminate H.
Qed.

(** ** The revenue column is not read when there is a sales column *)

Lemma bind_rel {A B : Type} (R : A -> A -> Prop) (S : B -> B -> Prop)
  (m m' : result A) (k k' : A -> result B) :
  rel_result R m m' ->
  (forall x y, R x y -> rel_result S (k x) (k' y)) ->
  rel_result S (bind m k) (bind m' k').
Proof.
  destruct m as [x|e], m' as [y|e']; simpl; try contradiction.
  - intros H Hk. now apply Hk.
  - intros -> _. reflexivity.
Qed.

Lemma eq_rel_result {A : Type} (R : A -> A -> Prop) (m : result A) :
  (forall x, R x x) -> rel_result R m m.
Proof. destruct m; simpl; auto. Qed.

Lemma off_revenue_cell (labels : list string) (name : string) (i : nat)
  (r r' : list value) :
  index_of name labels = Some i -> name <> "revenue" ->
  off_revenue labels r r' -> cell i r = cell i r'.
Proof.
  intros Hi Hne H. apply H. rewrite (index_of_label _ _ _ Hi). congruence.
Qed.

Lemma sim_column (a b : DataFrame) (name : string) (i : nat) :
  sim a b -> index_of name (columns a) = Some i -> name <> "revenue" ->
  map (cell i) (rows a) = map (cell i) (rows b).
Proof.
  intros [_ H] Hi Hne. induction H as [|r r' rs rs' Hr _ IH]; simpl.
  - reflexivity.
  - rewrite IH. f_equal. eapply off_revenue_cell; eassumption.
Qed.

Lemma sim_position (a b : DataFrame) (name : string) :
  sim a b -> position name a = position name b.
Proof. intros [H _]. unfold position. now rewrite H. Qed.

Lemma sim_has_column (a b : DataFrame) (name : string) :
  sim a b -> has_column name a = has_column name b.
Proof. intros [H _]. unfold has_column. now rewrite H. Qed.

Lemma Forall2_filter {A : Type} (R : A -> A -> Prop) (p q : A -> bool)
  (l l' : list A) :
  (forall x y, R x y -> p x = q y) ->
  Forall2 R l l' -> Forall2 R (filter p l) (filter q l').
Proof.
  intros Hpq. induction 1 as [|x y l l' Hxy _ IH]; simpl; [constructor|].
  rewrite (Hpq x y Hxy). destruct (q y); [constructor|]; assumption.
Qed.

Lemma select_isin_sim (name : string) (sel : list value) (a b : DataFrame) :
  name <> "revenue" -> sim a b ->
  rel_result sim (select_isin name sel a) (select_isin name sel b).
Proof.
  intros Hne Hs. unfold select_isin, bind.
  rewrite <- (sim_position a b name Hs).
  destruct (position name a) as [i|] eqn:Hi; simpl; [|reflexivity].
  apply position_inv in Hi.
  destruct Hs as [Hc Hr]. split; simpl; [assumption|].
  apply Forall2_filter; [|assumption].
  intros r r' Hrr'. now rewrite (off_revenue_cell _ _ _ _ _ Hi Hne Hrr').
Qed.

Lemma select_year_sim (sel : list value) (a b : DataFrame) :
  sim a b -> rel_result sim (select_year sel a) (select_year sel b).
Proof.
  intros Hs. unfold select_year, bind.
  rewrite <- (sim_position a b "year_id" Hs).
  destruct (position "year_id" a) as [i|e] eqn:Hi; simpl; [|reflexivity].
  apply position_inv in Hi.
  rewrite <- (sim_column a b "year_id" i Hs Hi) by discriminate.
  destruct (comparable (map (cell i) (rows a))); [|reflexivity].
  apply select_isin_sim; [discriminate | assumption].
Qed.

Lemma apply_filters_sim (pc rc : option string) (sel : Selections)
  (a b : DataFrame) :
  pc <> Some "revenue" -> rc <> Some "revenue" -> sim a b ->
  rel_result sim (apply_filters pc rc sel a) (apply_filters pc rc sel b).
Proof.
  intros Hp Hr Hs. unfold apply_filters.
  apply bind_rel with (R := sim).
  { destruct pc as [c|]; [|exact Hs]. apply select_isin_sim; congruence. }
  intros a1 b1 H1. apply bind_rel with (R := sim).
  { destruct rc as [c|]; [|exact H1]. apply select_isin_sim; congruence. }
  intros a2 b2 H2. apply bind_rel with (R := sim).
  { rewrite <- (sim_has_column a2 b2 "status" H2).
    destruct (has_column "status" a2); [|exact H2].
    apply select_isin_sim; [discriminate | assumption]. }
  intros a3 b3 H3. rewrite <- (sim_has_column a3 b3 "year_id" H3).
  destruct (has_column "year_id" a3); [|exact H3].
  now apply select_year_sim.
Qed.

Lemma Forall2_map_both {A B : Type} (R : A -> A -> Prop) (S : B -> B -> Prop)
  (f g : A -> B) (l l' : list A) :
  (forall x y, R x y -> S (f x) (g y)) ->
  Forall2 R l l' -> Forall2 S (map f l) (map g l').
Proof.
  intros H. induction 1; simpl; constructor; auto.
Qed.

(** What [df[name] = ...] leaves in a cell of the row. *)
Lemma cell_set_labelled (name : string) (labels : list string) (n : nat)
  (v : value) (r : list value) (j : nat) :
  cell j (set_labelled name labels n v r)
  = match (if n <=? j then nth_error labels (j - n) else None) with
    | Some l => if String.eqb name l then v else cell j r
    | None => cell j r
    end.
Proof.
  revert n. induction labels as [|l ls IH]; intros n; simpl.
  - destruct (n <=? j); [|reflexivity]. now destruct (j - n).
  - assert (cell j (set_labelled name ls (S n) v r)
            = match (if n <=? j then nth_error (l :: ls) (j - n) else None) with
              | Some l' =>
                  if Nat.eqb j n then cell j r
                  else if String.eqb name l' then v else cell j r
              | None => cell j r
              end) as Hrest.
    { rewrite IH. destruct (Nat.eqb_spec j n) as [->|Hne].
      - assert ((S n <=? n) = false) as -> by (apply Nat.leb_gt; lia).
        rewrite Nat.leb_refl, Nat.sub_diag. reflexivity.
      - destruct (Nat.leb_spec n j) as [Hle|Hlt].
        + assert ((S n <=? j) = true) as -> by (apply Nat.leb_le; lia).
          replace (j - n) with (S (j - S n)) by lia. reflexivity.
        + assert ((S n <=? j) = false) as -> by (apply Nat.leb_gt; lia).
          reflexivity. }
    destruct (String.eqb name l) eqn:E.
    + destruct (Nat.eqb_spec j n) as [->|Hne].
      * rewrite cell_set_cell_same, Nat.leb_refl, Nat.sub_diag. simpl.
        now rewrite E.
      * rewrite cell_set_cell_other by assumption. rewrite Hrest.
        destruct (n <=? j); [|reflexivity].
        destruct (nth_error (l :: ls) (j - n)); reflexivity.
    + rewrite Hrest. destruct (Nat.leb_spec n j) as [Hle|Hlt]; [|reflexivity].
      destruct (Nat.eqb_spec j n) as [->|Hne].
      * rewrite Nat.sub_diag. simpl. now rewrite E.
      * destruct (nth_error (l :: ls) (j - n)); reflexivity.
Qed.

Lemma assign_sim (name : string) (f g : list value -> value) (a b : DataFrame) :
  name <> "revenue" -> sim a b ->
  (forall r r', off_revenue (columns a) r r' -> f r = g r') ->
  sim (assign name f a) (assign name g b).
Proof.
  intros Hne [Hc Hr] Hfg. unfold assign. rewrite <- Hc.
  destruct (existsb (String.eqb name) (columns a)) eqn:Hj; split; simpl;
    try reflexivity.
  - eapply Forall2_map_both; [|exact Hr]. intros r r' Hrr' k Hk.
    rewrite !cell_set_labelled, (Hfg r r' Hrr'), (Hrr' k Hk). reflexivity.
  - eapply Forall2_map_both; [|exact Hr]. intros r r' Hrr' k Hk.
    destruct (Nat.eq_dec k (List.length (columns a))) as [->|Hkj].
    + rewrite !cell_set_cell_same. now apply Hfg.
    + rewrite !cell_set_cell_other by assumption. apply Hrr'.
      intros Hrev. apply Hk. rewrite nth_error_app1; [assumption|].
      apply nth_error_Some. congruence.
Qed.

Lemma kpis_sim (L : Library) (s s' a b : DataFrame) :
  columns s = columns a -> sim s s' -> sim a b ->
  kpis L s a = kpis L s' b.
Proof.
  intros Hc Hss Hs. unfold kpis, bind. rewrite <- (sim_position a b _ Hs).
  destruct (position "sales_amount" a) as [i|e] eqn:Hi; [|reflexivity].
  apply position_inv in Hi.
  rewrite <- (sim_column a b _ i Hs Hi) by discriminate.
  rewrite <- (sim_column s s' "sales_amount" i Hss) by (congruence || discriminate).
  destruct Hs as [_ Hr]. now rewrite (Forall2_length Hr).
Qed.

Lemma groups_ext (key amt : nat) (rs rs' : list (list value)) (gs : groups) :
  Forall2 (fun r r' => cell key r = cell key r' /\ cell amt r = cell amt r')
    rs rs' ->
  fold_left (add_row key amt) rs gs = fold_left (add_row key amt) rs' gs.
Proof.
  intros H. revert gs. induction H as [|r r' rs rs' [Hk Ha] _ IH]; intros gs; simpl.
  - reflexivity.
  - unfold add_row at 2 4. rewrite Hk, Ha. apply IH.
Qed.

Lemma groupby_sum_sim (L : Library) (origin : list value)
  (kname aname : string) (key amt : nat) (a b : DataFrame) :
  sim a b ->
  index_of kname (columns a) = Some key -> kname <> "revenue" ->
  index_of aname (columns a) = Some amt -> aname <> "revenue" ->
  groupby_sum L origin key amt (rows a) = groupby_sum L origin key amt (rows b).
Proof.
  intros Hs Hk Hkn Ha Han. unfold groupby_sum.
  rewrite <- (sim_column a b kname key Hs Hk Hkn).
  rewrite <- (sim_column a b aname amt Hs Ha Han).
  destruct (dates_with_numbers (map (cell key) (rows a))); [reflexivity|].
  destruct (forallb numeric (map (cell amt) (rows a))); [|reflexivity].
  do 2 f_equal. apply groups_ext. destruct Hs as [_ Hr].
  eapply Forall2_impl; [|exact Hr]. intros r r' Hrr'. split.
  - eapply off_revenue_cell; eassumption.
  - eapply off_revenue_cell; eassumption.
Qed.

Lemma sales_by_sim (L : Library) (s s' : DataFrame) (c : string)
  (a b : DataFrame) :
  columns s = columns a -> sim s s' ->
  c <> "revenue" -> sim a b -> sales_by L s c a = sales_by L s' c b.
Proof.
  intros Hc Hss Hne Hs. unfold sales_by, bind.
  rewrite <- !(sim_position a b _ Hs).
  destruct (position c a) as [key|e] eqn:Hk; [|reflexivity].
  destruct (position "sales_amount" a) as [amt|e] eqn:Ha; [|reflexivity].
  apply position_inv in Hk, Ha.
  rewrite <- (sim_column s s' "sales_amount" amt Hss) by (congruence || discriminate).
  now rewrite (groupby_sum_sim L _ c "sales_amount" key amt a b Hs Hk Hne Ha).
Qed.

Lemma sales_by_opt_sim (L : Library) (s s' : DataFrame) (c : option string)
  (a b : DataFrame) :
  columns s = columns a -> sim s s' ->
  c <> Some "revenue" -> sim a b ->
  sales_by_opt L s c a = sales_by_opt L s' c b.
Proof.
  intros Hc Hss Hne Hs. destruct c as [c|]; [|reflexivity]. simpl.
  rewrite (sales_by_sim L s s' c a b); (reflexivity || congruence || assumption).
Qed.

Lemma dropna_sim (name : string) (i : nat) (a b : DataFrame) :
  index_of name (columns a) = Some i -> name <> "revenue" ->
  sim a b -> sim (dropna i a) (dropna i b).
Proof.
  intros Hi Hne [Hc Hr]. split; simpl; [assumption|].
  apply Forall2_filter; [|assumption].
  intros r r' Hrr'. now rewrite (off_revenue_cell _ _ _ _ _ Hi Hne Hrr').
Qed.

Lemma assign_existing_columns (name : string) (f : list value -> value)
  (df : DataFrame) :
  has_column name df = true -> columns (assign name f df) = columns df.
Proof. unfold has_column, assign. now intros ->. Qed.

Lemma trend_sim (L : Library) (s s' a b : DataFrame) :
  columns s = columns a -> sim s s' -> sim a b ->
  rel_result (fun x y => fst x = fst y) (trend L s a) (trend L s' b).
Proof.
  intros Hcs Hss Hs. unfold trend. rewrite <- (sim_has_column a b _ Hs).
  destruct (has_column "orderdate" a) eqn:Hhas; [|reflexivity].
  unfold bind at 1 4. rewrite <- (sim_position a b _ Hs).
  destruct (position "orderdate" a) as [i|e] eqn:Hi; [|reflexivity].
  apply position_inv in Hi.
  rewrite <- (sim_column a b _ i Hs Hi) by discriminate.
  set (col := map (cell i) (rows a)).
  set (pa := assign "orderdate" (fun r => to_datetime L col (cell i r)) a).
  set (pb := assign "orderdate" (fun r => to_datetime L col (cell i r)) b).
  assert (sim pa pb) as Hp.
  { apply assign_sim; [discriminate | assumption|].
    intros r r' Hrr'.
    now rewrite (off_revenue_cell _ "orderdate" i r r' Hi). }
  assert (columns pa = columns a) as Hca
    by (now apply assign_existing_columns).
  assert (sim (dropna i pa) (dropna i pb)) as Hk.
  { apply (dropna_sim "orderdate"); [now rewrite Hca | discriminate | assumption]. }
  unfold bind. rewrite <- (sim_position _ _ _ Hk).
  destruct (position "sales_amount" (dropna i pa)) as [amt|e] eqn:Ha;
    [|reflexivity].
  apply position_inv in Ha. simpl in Ha. rewrite Hca in Ha.
  rewrite <- (sim_column s s' "sales_amount" amt Hss) by (congruence || discriminate).
  rewrite <- (groupby_sum_sim L _ "orderdate" "sales_amount" i amt _ _ Hk);
    try assumption; try discriminate.
  - destruct (groupby_sum L _ i amt (rows (dropna i pa))); reflexivity.
  - simpl. now rewrite Hca.
  - simpl. now rewrite Hca.
Qed.

Lemma aggregate_sim (L : Library) (s s' : DataFrame) (pc rc : option string)
  (a b : DataFrame) :
  columns s = columns a -> sim s s' ->
  pc <> Some "revenue" -> rc <> Some "revenue" -> sim a b ->
  rel_result (fun x y => fst x = fst y)
    (aggregate L s pc rc a) (aggregate L s' pc rc b).
Proof.
  intros Hc Hss Hp Hr Hs. unfold aggregate.
  rewrite <- (kpis_sim L s s' a b Hc Hss Hs),
    <- (sales_by_opt_sim L s s' pc a b Hc Hss Hp Hs),
    <- (sales_by_opt_sim L s s' rc a b Hc Hss Hr Hs).
  apply bind_rel with (R := eq); [apply eq_rel_result; reflexivity|].
  intros k ? <-. apply bind_rel with (R := eq); [apply eq_rel_result; reflexivity|].
  intros p ? <-. apply bind_rel with (R := eq); [apply eq_rel_result; reflexivity|].
  intros r ? <-.
  apply bind_rel with (R := fun x y => fst x = fst y); [now apply trend_sim|].
  intros t t' Ht. simpl. now rewrite Ht.
Qed.

Lemma product_column_not_revenue (df : DataFrame) :
  product_column df <> Some "revenue".
Proof.
  unfold product_column.
  repeat match goal with |- context [if ?c then _ else _] => destruct c end;
    discriminate.
Qed.

Lemma region_column_not_revenue (df : DataFrame) :
  region_column df <> Some "revenue".
Proof.
  unfold region_column.
  repeat match goal with |- context [if ?c then _ else _] => destruct c end;
    discriminate.
Qed.

Lemma product_column_sim (a b : DataFrame) :
  sim a b -> product_column a = product_column b.
Proof.
  intros Hs. unfold product_column. now rewrite !(sim_has_column a b _ Hs).
Qed.

Lemma region_column_sim (a b : DataFrame) :
  sim a b -> region_column a = region_column b.
Proof.
  intros Hs. unfold region_column. now rewrite !(sim_has_column a b _ Hs).
Qed.

Lemma copy_column_sim (src dst : string) (a b : DataFrame) :
  src <> "revenue" -> dst <> "revenue" -> sim a b ->
  rel_result sim (copy_column src dst a) (copy_column src dst b).
Proof.
  intros Hsrc Hdst Hs. unfold copy_column, bind.
  rewrite <- (sim_position a b src Hs).
  destruct (position src a) as [i|e] eqn:Hi; simpl; [|reflexivity].
  apply position_inv in Hi.
  apply assign_sim; [assumption | assumption|].
  intros r r' Hrr'. eapply off_revenue_cell; eassumption.
Qed.

Lemma resolve_amount_sales (L : Library) (df : DataFrame) :
  In "sales" (map (normalize L) (columns df)) ->
  resolve_amount L df
  = copy_column "sales" "sales_amount" (normalize_columns L df).
Proof.
  intros H. unfold resolve_amount.
  assert (has_column "sales" (normalize_columns L df) = true) as ->
    by now apply has_column_In.
  reflexivity.
Qed.

(** Every column that carries the assigned label holds the assigned cells. *)
Lemma assign_cells (name : string) (f : list value -> value) (df : DataFrame)
  (j : nat) :
  nth_error (columns (assign name f df)) j = Some name ->
  map (cell j) (rows (assign name f df)) = map f (rows df).
Proof.
  unfold assign.
  destruct (existsb (String.eqb name) (columns df)) eqn:E; simpl; intros Hj;
    rewrite map_map; apply map_ext; intros r.
  - rewrite cell_set_labelled. simpl. rewrite Nat.sub_0_r, Hj.
    now rewrite String.eqb_refl.
  - assert (j = List.length (columns df)) as ->; [|apply cell_set_cell_same].
    destruct (Nat.lt_trichotomy j (List.length (columns df))) as [Hlt|[Heq|Hgt]].
    + rewrite nth_error_app1 in Hj by assumption.
      apply nth_error_In in Hj.
      apply (has_column_In name df) in Hj. unfold has_column in Hj. congruence.
    + assumption.
    + rewrite nth_error_app2 in Hj by lia.
      destruct (j - List.length (columns df)) as [|[|k]] eqn:Ek; simpl in Hj;
        try discriminate. lia.
Qed.

Lemma pipeline_sim (L : Library) (sel : Selections) (df df' : DataFrame) :
  rel_result sim (resolve_amount L df) (resolve_amount L df') ->
  pipeline L sel df = pipeline L sel df'.
Proof.
  intros H. unfold pipeline, filtered, bind.
  destruct (resolve_amount L df) as [d|e], (resolve_amount L df') as [d'|e'];
    simpl in H; try contradiction; [|subst; reflexivity].
  rewrite <- (product_column_sim d d' H), <- (region_column_sim d d' H).
  pose proof (apply_filters_sim (product_column d) (region_column d) sel d d'
                (product_column_not_revenue d) (region_column_not_revenue d) H)
    as Hf.
  destruct (apply_filters _ _ sel d) as [f|e] eqn:Ef,
    (apply_filters _ _ sel d') as [f'|e'];
    simpl in Hf; try contradiction; [|subst; reflexivity].
  cbv beta iota delta [ok].
  apply apply_filters_narrows in Ef as [Hc _].
  pose proof (aggregate_sim L d d' (product_column d) (region_column d) f f'
                (eq_sym Hc) H
                (product_column_not_revenue d) (region_column_not_revenue d) Hf)
    as Ha.
  destruct (aggregate L d _ _ f) as [x|e], (aggregate L d' _ _ f') as [y|e'];
    simpl in Ha; try contradiction; [|subst; reflexivity].
  unfold ok. now rewrite Ha.
Qed.

(** C9, as the script has it. When the normalized labels contain both
    [sales] and [revenue]: if one column is labelled [sales], the amount
    column is bound and every column labelled [sales_amount] is a copy of
    it; if several are, the run raises; and the values of the [revenue]
    columns are read by nothing: two uploads that differ only there end in
    the same outcome, with the same KPIs and series. *)
Theorem sales_wins_over_revenue
  (L : Library) (sel : Selections) (df : DataFrame) :
  In "sales" (map (normalize L) (columns df)) ->
  In "revenue" (map (normalize L) (columns df)) ->
  (count_label "sales" (map (normalize L) (columns df)) = 1 ->
   exists i d,
     index_of "sales" (map (normalize L) (columns df)) = Some i /\
     resolve_amount L df = inl d /\
     has_column "sales_amount" d = true /\
     forall j, nth_error (columns d) j = Some "sales_amount" ->
               map (cell j) (rows d) = map (cell i) (rows df)) /\
  (1 < count_label "sales" (map (normalize L) (columns df)) ->
   empty df = false ->
   main L (Some df) sel = Stopped Raised) /\
  (forall df', same_but_revenue L df df' ->
     main L (Some df) sel = main L (Some df') sel).
Proof.
  intros Hs _. pose proof (resolve_amount_sales L df Hs) as Hres.
  destruct (index_of_In _ _ Hs) as [i Hi].
  split; [|split].
  - intros Hone.
    exists i, (assign "sales_amount" (cell i) (normalize_columns L df)).
    assert (position "sales" (normalize_columns L df) = inl i) as Hp
      by now apply position_found.
    split; [assumption|]. split.
    { rewrite Hres. unfold copy_column, bind. now rewrite Hp. }
    split; [apply assign_has_column|].
    intros j Hj. now rewrite (assign_cells _ _ _ _ Hj).
  - intros Hmany Hne. unfold main, pipeline, filtered. rewrite Hne, Hres.
    unfold copy_column, position, bind. simpl. rewrite Hi.
    destruct (Nat.eqb_spec (count_label "sales" (map (normalize L) (columns df))) 1);
      [lia | reflexivity].
  - intros df' Hsim. unfold main.
    assert (empty df = empty df') as <-.
    { destruct Hsim as [Hc Hr]. simpl in Hc, Hr. unfold empty.
      apply (f_equal (@List.length _)) in Hc. rewrite !length_map in Hc.
      destruct (columns df), (columns df'); simpl in Hc; try discriminate;
        try reflexivity.
      now destruct Hr. }
    destruct (empty df); [reflexivity|].
    rewrite (pipeline_sim L sel df df'); [reflexivity|].
    rewrite Hres.
    assert (In "sales" (map (normalize L) (columns df'))) as Hs'.
    { destruct Hsim as [Hc _]. simpl in Hc. now rewrite <- Hc. }
    rewrite (resolve_amount_sales L df' Hs').
    apply copy_column_sim; [discriminate | discriminate | assumption].
Qed.

(** ** The whole script on a table with every column it knows *)

Example orders_resolve :
  resolve_amount examples orders_upload = inl orders_resolved.
Proof. reflexivity. Qed.

Example orders_filter :
  apply_filters (Some "productline") (Some "country") cars_us_2003 orders_resolved
  = inl orders_filtered.
Proof. by_computation. Qed.

Example orders_render :
  main examples (Some orders_upload) cars_us_2003
  = Rendered (mkAggregate
                (mkKPIs (Finite (Q2Qc 120)) (Finite (Q2Qc 60)) 2)
                (Some [(str "Cars", Finite (Q2Qc 120))])
                (Some [(str "US", Finite (Q2Qc 120))])
                None).
Proof. by_computation. Qed.

Lemma filters_keep_a_subsequence_witness :
  columns orders_filtered = columns orders_resolved /\
  subseq (rows orders_filtered) (rows orders_resolved).
Proof.
  apply (filters_keep_a_subsequence (Some "productline") (Some "country")
           cars_us_2003 orders_resolved orders_filtered).
  by_computation.
Defined.

Lemma apply_filters_idempotent_witness :
  apply_filters (Some "productline") (Some "country") cars_us_2003 orders_filtered
  = inl orders_filtered.
Proof.
  apply (apply_filters_idempotent (Some "productline") (Some "country")
           cars_us_2003 orders_resolved orders_filtered).
  by_computation.
Defined.

Lemma sales_wins_over_revenue_witness :
  (count_label "sales" (map (normalize examples) (columns orders_upload)) = 1 ->
   exists i d,
     index_of "sales" (map (normalize examples) (columns orders_upload))
     = Some i /\
     resolve_amount examples orders_upload = inl d /\
     has_column "sales_amount" d = true /\
     forall j, nth_error (columns d) j = Some "sales_amount" ->
               map (cell j) (rows d) = map (cell i) (rows orders_upload)) /\
  (1 < count_label "sales" (map (normalize examples) (columns orders_upload)) ->
   empty orders_upload = false ->
   main examples (Some orders_upload) cars_us_2003 = Stopped Raised) /\
  (forall df', same_but_revenue examples orders_upload df' ->
     main examples (Some orders_upload) cars_us_2003
     = main examples (Some df') cars_us_2003).
Proof.
  apply (sales_wins_over_revenue examples cars_us_2003 orders_upload).
  - vm_compute. tauto.
  - vm_compute. tauto.
Defined.

(** C9 as stated fails when two labels normalize to [sales]: [df["sales"]]
    is then a frame, the assignment of line 54 raises, and no amount is
    bound. *)
Lemma two_sales_columns_raise :
  In "sales" (map (normalize examples) (columns two_sales_columns)) /\
  In "revenue" (map (normalize examples) (columns two_sales_columns)) /\
  resolve_amount examples two_sales_columns = inr Raised /\
  main examples (Some two_sales_columns) (mkSelections [] [] [] [])
  = Stopped Raised.
Proof. vm_compute. tauto. Qed.

(** The scenario of the specification: two rows, amounts 100 and 50. *)
Example two_rows :
  main examples
    (Some (mkFrame ["sales"; "productline"; "country"]
             [[num 100; str "A"; str "US"]; [num 50; str "B"; str "US"]]))
    (mkSelections [str "A"; str "B"] [str "US"] [] [])
  = Rendered (mkAggregate
                (mkKPIs (Finite (Q2Qc 150)) (Finite (Q2Qc 75)) 2)
                (Some [(str "A", Finite (Q2Qc 100)); (str "B", Finite (Q2Qc 50))])
                (Some [(str "US", Finite (Q2Qc 150))])
                None).
Proof. by_computation. Qed.

(** ** Labels are normalized once and for all *)

Lemma lower_ascii_idempotent (c : ascii) :
  Label.lower_ascii (Label.lower_ascii c) = Label.lower_ascii c.
Proof. destruct c as [[] [] [] [] [] [] [] []]; reflexivity. Qed.

Lemma isspace_lower_ascii (c : ascii) :
  Label.isspace (Label.lower_ascii c) = Label.isspace c.
Proof. destruct c as [[] [] [] [] [] [] [] []]; reflexivity. Qed.

Lemma lower_idempotent (s : string) : Label.lower (Label.lower s) = Label.lower s.
Proof.
  induction s as [|c s IH]; simpl; [reflexivity|].
  now rewrite lower_ascii_idempotent, IH.
Qed.

Lemma lstrip_lower (s : string) :
  Label.lstrip (Label.lower s) = Label.lower (Label.lstrip s).
Proof.
  induction s as [|c s IH]; simpl; [reflexivity|].
  rewrite isspace_lower_ascii. now destruct (Label.isspace c).
Qed.

Lemma rstrip_lower (s : string) :
  Label.rstrip (Label.lower s) = Label.lower (Label.rstrip s).
Proof.
  induction s as [|c s IH]; simpl; [reflexivity|].
  rewrite IH, isspace_lower_ascii.
  destruct (Label.rstrip s); simpl; [now destruct (Label.isspace c) | reflexivity].
Qed.

Lemma lstrip_no_leading_space (s : string) : no_leading_space (Label.lstrip s).
Proof.
  induction s as [|c s IH]; simpl; [exact I|].
  destruct (Label.isspace c) eqn:E; [assumption | exact E].
Qed.

Lemma lstrip_fixed (s : string) : no_leading_space s -> Label.lstrip s = s.
Proof. destruct s as [|c s]; simpl; [reflexivity|]. now intros ->. Qed.

Lemma rstrip_no_leading_space (s : string) :
  no_leading_space s -> no_leading_space (Label.rstrip s).
Proof.
  destruct s as [|c s]; simpl; [trivial|]. intros H.
  destruct (Label.rstrip s); simpl; [now rewrite H | assumption].
Qed.

Lemma rstrip_idempotent (s : string) :
  Label.rstrip (Label.rstrip s) = Label.rstrip s.
Proof.
  induction s as [|c s IH]; simpl; [reflexivity|].
  destruct (Label.rstrip s) as [|d t] eqn:E.
  - destruct (Label.isspace c) eqn:Ec; simpl; [reflexivity | now rewrite Ec].
  - simpl in IH |- *. now rewrite IH.
Qed.

Lemma strip_idempotent (s : string) : Label.strip (Label.strip s) = Label.strip s.
Proof.
  unfold Label.strip.
  rewrite (lstrip_fixed (Label.rstrip (Label.lstrip s))).
  - apply rstrip_idempotent.
  - apply rstrip_no_leading_space, lstrip_no_leading_space.
Qed.

Lemma strip_lower (s : string) :
  Label.strip (Label.lower s) = Label.lower (Label.strip s).
Proof. unfold Label.strip. now rewrite lstrip_lower, rstrip_lower. Qed.

Lemma normalize_idempotent (s : string) :
  Label.normalize (Label.normalize s) = Label.normalize s.
Proof.
  unfold Label.normalize.
  now rewrite strip_lower, lower_idempotent, strip_idempotent.
Qed.
Lemma normalize_columns_idempotent (L : Library) (df : DataFrame) :
  (forall s, normalize L (normalize L s) = normalize L s) ->
  normalize_columns L (normalize_columns L df) = normalize_columns L df.
Proof.
  intros H. unfold normalize_columns. simpl. f_equal. rewrite map_map.
  apply map_ext. intros s. apply H.
Qed.

(** X1. Trimming and lower-casing an ASCII label twice gives what doing it
    once gives; and under every library whose normalization has this
    property, the script treats an upload and the same upload with its
    labels already normalized alike: same outcome, same KPIs and series. *)
Theorem labels_matter_up_to_normalization :
  (forall s, Label.normalize (Label.normalize s) = Label.normalize s) /\
  (forall (L : Library) (df : DataFrame) (sel : Selections),
     (forall s, normalize L (normalize L s) = normalize L s) ->
     main L (Some (normalize_columns L df)) sel = main L (Some df) sel).
Proof.
  split; [apply normalize_idempotent|].
  intros L df sel H.
  unfold main, pipeline, filtered, resolve_amount.
  rewrite (normalize_columns_idempotent L df H).
  assert (empty (normalize_columns L df) = empty df) as ->; [|reflexivity].
  unfold empty. simpl. now destruct (columns df).
Qed.

Lemma labels_matter_up_to_normalization_witness :
  main examples (Some (normalize_columns examples orders_upload)) cars_us_2003
  = main examples (Some orders_upload) cars_us_2003.
Proof.
  apply (proj2 labels_matter_up_to_normalization examples orders_upload
           cars_us_2003).
  exact (proj1 labels_matter_up_to_normalization).
Defined.

(** ** What resolution does to the table *)

Lemma resolve_amount_revenue (L : Library) (df : DataFrame) :
  ~ In "sales" (map (normalize L) (columns df)) ->
  In "revenue" (map (normalize L) (columns df)) ->
  resolve_amount L df
  = copy_column "revenue" "sales_amount" (normalize_columns L df).
Proof.
  intros Hs Hr. unfold resolve_amount.
  assert (has_column "sales" (normalize_columns L df) = false) as ->
    by now apply has_column_false.
  assert (has_column "revenue" (normalize_columns L df) = true) as ->
    by now apply has_column_In.
  reflexivity.
Qed.

(** X2. When no label normalizes to [sales] and one label normalizes to
    [revenue], resolution succeeds and every column labelled
    [sales_amount] is a copy of the revenue column; when several labels
    normalize to [revenue], the run raises. *)
Theorem revenue_is_the_fallback (L : Library) (sel : Selections)
  (df : DataFrame) :
  ~ In "sales" (map (normalize L) (columns df)) ->
  In "revenue" (map (normalize L) (columns df)) ->
  (count_label "revenue" (map (normalize L) (columns df)) = 1 ->
   exists i d,
     index_of "revenue" (map (normalize L) (columns df)) = Some i /\
     resolve_amount L df = inl d /\
     has_column "sales_amount" d = true /\
     forall j, nth_error (columns d) j = Some "sales_amount" ->
               map (cell j) (rows d) = map (cell i) (rows df)) /\
  (1 < count_label "revenue" (map (normalize L) (columns df)) ->
   empty df = false ->
   main L (Some df) sel = Stopped Raised).
Proof.
  intros Hs Hr. pose proof (resolve_amount_revenue L df Hs Hr) as Hres.
  destruct (index_of_In _ _ Hr) as [i Hi]. split.
  - intros Hone.
    exists i, (assign "sales_amount" (cell i) (normalize_columns L df)).
    assert (position "revenue" (normalize_columns L df) = inl i) as Hp
      by now apply position_found.
    split; [assumption|]. split.
    { rewrite Hres. unfold copy_column, bind. now rewrite Hp. }
    split; [apply assign_has_column|].
    intros j Hj. now rewrite (assign_cells _ _ _ _ Hj).
  - intros Hmany Hne. unfold main, pipeline, filtered. rewrite Hne, Hres.
    unfold copy_column, position, bind. simpl. rewrite Hi.
    destruct (Nat.eqb_spec
                (count_label "revenue" (map (normalize L) (columns df))) 1);
      [lia | reflexivity].
Qed.

Lemma revenue_is_the_fallback_witness :
  (count_label "revenue" (map (normalize examples) (columns revenue_upload)) = 1 ->
   exists i d,
     index_of "revenue" (map (normalize examples) (columns revenue_upload))
     = Some i /\
     resolve_amount examples revenue_upload = inl d /\
     has_column "sales_amount" d = true /\
     forall j, nth_error (columns d) j = Some "sales_amount" ->
               map (cell j) (rows d) = map (cell i) (rows revenue_upload)) /\
  (1 < count_label "revenue" (map (normalize examples) (columns revenue_upload)) ->
   empty revenue_upload = false ->
   main examples (Some revenue_upload) (mkSelections [] [] [] [])
   = Stopped Raised).
Proof.
  apply (revenue_is_the_fallback examples (mkSelections [] [] [] [])
           revenue_upload).
  - vm_compute. intuition discriminate.
  - vm_compute. tauto.
Defined.

(** X3. Resolution keeps the table: the labels are the normalized labels,
    with [sales_amount] added at the end unless it is one of them already;
    no row is added or lost; and every column whose label is not
    [sales_amount] holds the cells it held before. *)
Theorem resolution_keeps_the_table (L : Library) (df d : DataFrame) :
  resolve_amount L df = inl d ->
  (In "sales_amount" (map (normalize L) (columns df)) ->
   columns d = map (normalize L) (columns df)) /\
  (~ In "sales_amount" (map (normalize L) (columns df)) ->
   columns d = map (normalize L) (columns df) ++ ["sales_amount"]) /\
  List.length (rows d) = List.length (rows df) /\
  (forall j name,
     nth_error (map (normalize L) (columns df)) j = Some name ->
     name <> "sales_amount" ->
     map (cell j) (rows d) = map (cell j) (rows df)).
Proof.
  intros H. destruct (resolve_amount_inv _ _ _ H) as (src & i & _ & _ & _ & ->).
  unfold assign.
  change (columns (normalize_columns L df)) with (map (normalize L) (columns df)).
  change (rows (normalize_columns L df)) with (rows df).
  destruct (existsb (String.eqb "sales_amount") (map (normalize L) (columns df)))
    eqn:E; cbn [columns rows].
  - split; [reflexivity|]. split.
    { intros Hnin. exfalso. apply Hnin.
      now apply (has_column_In "sales_amount" (normalize_columns L df)). }
    split; [apply length_map|].
    intros j name Hj Hne. rewrite map_map. apply map_ext. intros r.
    rewrite cell_set_labelled. cbn [Nat.leb]. rewrite Nat.sub_0_r, Hj.
    destruct (String.eqb_spec "sales_amount" name); [congruence | reflexivity].
  - split.
    { intros Hin. exfalso.
      apply (has_column_In "sales_amount" (normalize_columns L df)) in Hin.
      unfold has_column in Hin. cbn [columns normalize_columns] in Hin.
      congruence. }
    split; [reflexivity|]. split; [apply length_map|].
    intros j name Hj Hne. rewrite map_map. apply map_ext. intros r.
    apply cell_set_cell_other.
    assert (j < List.length (map (normalize L) (columns df)))
      by (apply nth_error_Some; congruence).
    lia.
Qed.

Lemma resolution_keeps_the_table_witness :
  (In "sales_amount" (map (normalize examples) (columns orders_upload)) ->
   columns orders_resolved = map (normalize examples) (columns orders_upload)) /\
  (~ In "sales_amount" (map (normalize examples) (columns orders_upload)) ->
   columns orders_resolved
   = map (normalize examples) (columns orders_upload) ++ ["sales_amount"]) /\
  List.length (rows orders_resolved) = List.length (rows orders_upload) /\
  (forall j name,
     nth_error (map (normalize examples) (columns orders_upload)) j = Some name ->
     name <> "sales_amount" ->
     map (cell j) (rows orders_resolved) = map (cell j) (rows orders_upload)).
Proof.
  apply (resolution_keeps_the_table examples orders_upload orders_resolved).
  reflexivity.
Defined.

(** ** The filters as one test on a row *)

Lemma filter_filter_and {A : Type} (p q : A -> bool) (l : list A) :
  filter q (filter p l) = filter (fun x => p x && q x) l.
Proof.
  induction l as [|x l IH]; simpl; [reflexivity|].
  destruct (p x); simpl; [|assumption]. destruct (q x); now rewrite IH.
Qed.

Lemma optional_select_inv (c : option string) (sel : list value)
  (d d' : DataFrame) :
  match c with
  | Some c => select_isin c sel d
  | None => ok d
  end = inl d' ->
  columns d' = columns d /\
  rows d' = filter (accepts (columns d) c sel) (rows d) /\
  (forall name, c = Some name -> In name (columns d)).
Proof.
  destruct c as [c|]; simpl.
  - intros H. destruct (select_isin_inv _ _ _ _ H) as (i & Hi & ->).
    apply position_inv in Hi. unfold accepts. simpl. rewrite Hi. repeat split.
    intros name [= <-]. apply index_of_label in Hi.
    eapply nth_error_In; eassumption.
  - intros [= <-]. repeat split; [|discriminate].
    symmetry. apply filter_true.
Qed.

Lemma fixed_select_inv (name : string) (sel : list value) (d d' : DataFrame) :
  (if has_column name d then select_isin name sel d else ok d) = inl d' ->
  columns d' = columns d /\
  rows d' = filter (accepts (columns d) (bound name (columns d)) sel) (rows d).
Proof.
  unfold bound. fold (has_column name d). intros H.
  destruct (has_column name d).
  - now destruct (optional_select_inv (Some name) sel d d' H) as (? & ? & _).
  - now destruct (optional_select_inv None sel d d' H) as (? & ? & _).
Qed.

Lemma year_select_inv (sel : list value) (d d' : DataFrame) :
  (if has_column "year_id" d then select_year sel d else ok d) = inl d' ->
  (if has_column "year_id" d then select_isin "year_id" sel d else ok d) = inl d'.
Proof.
  destruct (has_column "year_id" d); [|trivial]. intros H.
  now destruct (select_year_inv _ _ _ H) as (i & _ & _ & H').
Qed.

Lemma apply_filters_keeps (pc rc : option string) (sel : Selections)
  (df f : DataFrame) :
  apply_filters pc rc sel df = inl f ->
  columns f = columns df /\
  rows f = filter (keeps (columns df) pc rc sel) (rows df) /\
  (forall name, pc = Some name -> In name (columns df)) /\
  (forall name, rc = Some name -> In name (columns df)).
Proof.
  intros H. destruct (apply_filters_inv _ _ _ _ _ H)
    as (d1 & d2 & d3 & H1 & H2 & H3 & H4).
  apply optional_select_inv in H1 as (C1 & R1 & B1).
  apply optional_select_inv in H2 as (C2 & R2 & B2).
  apply fixed_select_inv in H3 as (C3 & R3).
  apply year_select_inv, fixed_select_inv in H4 as (C4 & R4).
  split; [congruence|]. split; [|split; [assumption | now rewrite <- C1]].
  rewrite R4, R3, R2, R1, C3, C2, C1, !filter_filter_and.
  apply filter_ext. intros r. unfold keeps. now rewrite !andb_assoc.
Qed.

(** X4. The four filters act as one conjunction: a successful run keeps the
    labels and keeps exactly the rows that pass the test of every
    multiselect whose column is bound, in their order; the order in which
    the script applies the four tests plays no part in the result. *)
Theorem filters_are_a_conjunction (pc rc : option string) (sel : Selections)
  (df f : DataFrame) :
  apply_filters pc rc sel df = inl f ->
  columns f = columns df /\
  rows f = filter (keeps (columns df) pc rc sel) (rows df).
Proof.
  intros H. destruct (apply_filters_keeps _ _ _ _ _ H) as (C & R & _).
  now split.
Qed.

Lemma filters_are_a_conjunction_witness :
  columns orders_filtered = columns orders_resolved /\
  rows orders_filtered
  = filter (keeps (columns orders_resolved) (Some "productline") (Some "country")
              cars_us_2003)
      (rows orders_resolved).
Proof.
  apply (filters_are_a_conjunction (Some "productline") (Some "country")
           cars_us_2003 orders_resolved orders_filtered).
  by_computation.
Defined.
(** ** Selections that keep everything, and selections that keep nothing *)

Lemma isin_In (sel : list value) (v : value) : isin sel v = true <-> In v sel.
Proof.
  unfold isin. rewrite existsb_exists. split.
  - intros (x & Hx & He). apply value_eqb_true in He. now subst.
  - intros H. exists v. split; [assumption | apply value_eqb_refl].
Qed.

Lemma unique_In (xs : list value) (v : value) : In v (unique xs) <-> In v xs.
Proof.
  induction xs as [|x xs IH]; simpl; [tauto|].
  rewrite filter_In, IH. split.
  - intros [H|[H _]]; auto.
  - intros [H|H]; [now left|].
    destruct (value_eqb x v) eqn:E.
    + left. now apply value_eqb_true.
    + right. split; [assumption | reflexivity].
Qed.

Lemma unique_NoDup (xs : list value) : NoDup (unique xs).
Proof.
  induction xs as [|x xs IH]; simpl; constructor.
  - rewrite filter_In. intros [_ H]. now rewrite value_eqb_refl in H.
  - now apply NoDup_filter.
Qed.

Lemma NoDup_count_label (name : string) (labels : list string) :
  NoDup labels -> count_label name labels <= 1.
Proof.
  induction 1 as [|l ls Hl _ IH]; [unfold count_label; simpl; lia|].
  rewrite count_label_cons. destruct (String.eqb_spec name l) as [->|Hne].
  - assert (count_label l ls = 0); [|lia].
    destruct (count_label l ls) eqn:E; [reflexivity|].
    exfalso. apply Hl. apply count_label_In. lia.
  - lia.
Qed.

Lemma position_NoDup (name : string) (df : DataFrame) :
  NoDup (columns df) -> In name (columns df) ->
  exists i, position name df = inl i.
Proof.
  intros Hnd Hin. apply position_In; [assumption|].
  now apply NoDup_count_label.
Qed.

Lemma accepts_options (c : option string) (sel : list value) (df : DataFrame)
  (r : list value) :
  (forall name, c = Some name -> exists i, position name df = inl i) ->
  incl (options c df) sel -> In r (rows df) ->
  accepts (columns df) c sel r = true.
Proof.
  intros Hc Hi Hr. unfold accepts. destruct c as [c|]; [|reflexivity].
  destruct (Hc c eq_refl) as [i Hp].
  unfold options in Hi. rewrite (column_position _ _ _ Hp) in Hi.
  rewrite (position_inv _ _ _ Hp).
  apply isin_In, Hi, unique_In. now apply in_map.
Qed.

Lemma select_isin_all (name : string) (sel : list value) (df : DataFrame)
  (i : nat) :
  position name df = inl i ->
  (forall r, In r (rows df) -> accepts (columns df) (Some name) sel r = true) ->
  select_isin name sel df = inl df.
Proof.
  intros Hp Hall.
  unfold select_isin, bind. rewrite Hp. unfold ok. f_equal.
  apply position_inv in Hp.
  destruct df as [cols rs]. simpl in *. f_equal.
  apply forallb_filter_id, forallb_forall. intros r Hr.
  specialize (Hall r Hr). now rewrite Hp in Hall.
Qed.

(** X5. On a table whose labels are distinct, when every multiselect
    returns at least the options it offers (as it does by default), and the
    years can be sorted, the filters succeed and leave the resolved table
    as it is: every row is kept. *)
Theorem full_selections_keep_every_row (pc rc : option string)
  (sel : Selections) (df : DataFrame) :
  NoDup (columns df) ->
  (forall name, pc = Some name -> In name (columns df)) ->
  (forall name, rc = Some name -> In name (columns df)) ->
  (forall i, index_of "year_id" (columns df) = Some i ->
             comparable (map (cell i) (rows df)) = true) ->
  incl (options pc df) (product_filter sel) ->
  incl (options rc df) (region_filter sel) ->
  incl (options (bound "status" (columns df)) df) (status_filter sel) ->
  incl (options (bound "year_id" (columns df)) df) (year_filter sel) ->
  apply_filters pc rc sel df = inl df.
Proof.
  intros Hnd Bp Br Hcmp Ip Ir Is Iy. unfold apply_filters, bind.
  assert (forall name, In name (columns df) ->
                       exists i, position name df = inl i) as Hpos
    by (intros name; now apply position_NoDup).
  assert (match pc with
          | Some c => select_isin c (product_filter sel) df
          | None => ok df
          end = inl df) as ->.
  { destruct pc as [c|] eqn:E; [|reflexivity].
    destruct (Hpos c (Bp c eq_refl)) as [i Hi].
    apply (select_isin_all _ _ _ i Hi).
    intros r Hr. apply accepts_options; try assumption.
    intros name [= <-]. now exists i. }
  assert (match rc with
          | Some c => select_isin c (region_filter sel) df
          | None => ok df
          end = inl df) as ->.
  { destruct rc as [c|] eqn:E; [|reflexivity].
    destruct (Hpos c (Br c eq_refl)) as [i Hi].
    apply (select_isin_all _ _ _ i Hi).
    intros r Hr. apply accepts_options; try assumption.
    intros name [= <-]. now exists i. }
  unfold bound in Is, Iy. fold (has_column "status" df) in Is.
  fold (has_column "year_id" df) in Iy.
  assert ((if has_column "status" df
           then select_isin "status" (status_filter sel) df else ok df)
          = inl df) as ->.
  { destruct (has_column "status" df) eqn:E; [|reflexivity].
    apply has_column_In in E. destruct (Hpos _ E) as [i Hi].
    apply (select_isin_all _ _ _ i Hi).
    intros r Hr. apply accepts_options; try assumption.
    intros name [= <-]. now exists i. }
  destruct (has_column "year_id" df) eqn:E; [|reflexivity].
  apply has_column_In in E. destruct (Hpos _ E) as [i Hi].
  unfold select_year, bind. rewrite Hi.
  cbv beta iota delta [ok]. rewrite (Hcmp i (position_inv _ _ _ Hi)).
  apply (select_isin_all _ _ _ i Hi).
  intros r Hr. apply accepts_options; try assumption.
  intros name [= <-]. now exists i.
Qed.

Lemma full_selections_keep_every_row_witness :
  apply_filters (Some "productline") (Some "country")
    (mkSelections [str "Cars"; str "Ships"] [str "US"; str "FR"]
       [str "Shipped"; str "Cancelled"] [num 2003; num 2004])
    orders_resolved
  = inl orders_resolved.
Proof.
  apply (full_selections_keep_every_row (Some "productline") (Some "country")
           (mkSelections [str "Cars"; str "Ships"] [str "US"; str "FR"]
              [str "Shipped"; str "Cancelled"] [num 2003; num 2004])
           orders_resolved).
  - repeat constructor; simpl; intuition discriminate.
  - intros name [= <-]. vm_compute. tauto.
  - intros name [= <-]. vm_compute. tauto.
  - intros i [= <-]. reflexivity.
  - apply incl_refl.
  - apply incl_refl.
  - apply incl_refl.
  - apply incl_refl.
Defined.

Lemma filter_none {A : Type} (p : A -> bool) (l : list A) :
  (forall x, In x l -> p x = false) -> filter p l = [].
Proof.
  induction l as [|x l IH]; simpl; [reflexivity|]. intros H.
  rewrite (H x) by now left. apply IH. intros y Hy. apply H. now right.
Qed.

Lemma accepts_nothing (labels : list string) (name : string) (r : list value) :
  In name labels -> accepts labels (Some name) [] r = false.
Proof.
  intros H. unfold accepts. now destruct (index_of_In _ _ H) as [i ->].
Qed.

(** X6. An empty selection in a multiselect whose column is bound leaves no
    row at all, whatever the other three select. *)
Theorem empty_selection_keeps_no_row (pc rc : option string) (sel : Selections)
  (df f : DataFrame) :
  apply_filters pc rc sel df = inl f ->
  (pc <> None /\ product_filter sel = []) \/
  (rc <> None /\ region_filter sel = []) \/
  (In "status" (columns df) /\ status_filter sel = []) \/
  (In "year_id" (columns df) /\ year_filter sel = []) ->
  rows f = [].
Proof.
  intros H Hempty.
  destruct (apply_filters_keeps _ _ _ _ _ H) as (_ & -> & Bp & Br).
  apply filter_none. intros r _. unfold keeps.
  destruct Hempty as [[Hb He]|[[Hb He]|[[Hb He]|[Hb He]]]]; rewrite He.
  - destruct pc as [c|]; [|contradiction].
    now rewrite (accepts_nothing _ c r (Bp c eq_refl)).
  - destruct rc as [c|]; [|contradiction].
    rewrite (accepts_nothing _ c r (Br c eq_refl)).
    now rewrite andb_false_r.
  - unfold bound.
    assert (existsb (String.eqb "status") (columns df) = true) as ->
      by (apply (has_column_In "status" df); assumption).
    rewrite (accepts_nothing _ "status" r Hb).
    now rewrite andb_false_r.
  - unfold bound.
    assert (existsb (String.eqb "year_id") (columns df) = true) as ->
      by (apply (has_column_In "year_id" df); assumption).
    rewrite (accepts_nothing _ "year_id" r Hb). apply andb_false_r.
Qed.

Lemma empty_selection_keeps_no_row_witness :
  rows (mkFrame (columns orders_resolved) []) = [].
Proof.
  apply (empty_selection_keeps_no_row (Some "productline") (Some "country")
           (mkSelections [str "Cars"] [] [str "Shipped"] [num 2003])
           orders_resolved (mkFrame (columns orders_resolved) [])).
  - by_computation.
  - right. left. split; [discriminate | reflexivity].
Defined.

(** ** The trend is in date order, one point a date *)

Lemma value_ltb_asym (a b : value) :
  value_ltb a b = true -> value_ltb b a = false.
Proof.
  intros H. destruct (value_ltb b a) eqn:E; [|reflexivity].
  pose proof (value_ltb_trans _ _ _ H E) as T.
  now rewrite value_ltb_irrefl in T.
Qed.

Lemma sort_values_key_sorted (l : series) :
  StronglySorted key_lt l -> sort_values_key l = l.
Proof.
  induction 1 as [|x l Hs IH Hx]; simpl; [reflexivity|].
  fold (sort_values_key l). rewrite IH.
  destruct l as [|y ys]; simpl; [reflexivity|].
  inversion Hx as [|? ? Hxy _]; subst. unfold key_lt in Hxy.
  now rewrite (value_ltb_asym _ _ Hxy).
Qed.

Lemma sums_sorted (L : Library) (origin : list value) (gs : groups) :
  StronglySorted key_lt gs -> StronglySorted key_lt (sums L origin gs).
Proof.
  induction 1 as [|g gs Hs IH Hg]; simpl; constructor; [assumption|].
  unfold sums. rewrite Forall_map. eapply Forall_impl; [|exact Hg].
  intros p Hp. exact Hp.
Qed.

Lemma to_datetime_kind (L : Library) (col : list value) (v : value) :
  isna (to_datetime L col v) = false ->
  is_date (to_datetime L col v) = true.
Proof.
  unfold to_datetime. destruct v; simpl; try discriminate; try reflexivity;
    destruct (parse_datetime L col _); simpl; try discriminate; reflexivity.
Qed.

Lemma dated_group_cells (L : Library) (i amt : nat) (df : DataFrame)
  (k : value) :
  i <> amt -> isna k = false ->
  group_cells i amt k
    (map (with_date L i df) (filter (parsable L i df) (rows df)))
  = map (cell amt)
      (filter (fun row => value_eqb (date_of L i df row) k) (rows df)).
Proof.
  intros Hne Hk. unfold group_cells.
  rewrite filter_map_swap, amounts_with_date by assumption.
  rewrite filter_filter_and. f_equal. apply filter_ext. intros row.
  unfold with_date, parsable. rewrite cell_set_cell_same.
  destruct (value_eqb (date_of L i df row) k) eqn:E.
  - apply value_eqb_true in E. rewrite E, Hk. reflexivity.
  - apply andb_false_r.
Qed.

(** X8. The trend series is in strictly ascending date order, so no date
    occurs twice; it has one point for each date that some row's
    [orderdate] parses to, and the sum at a date is the library's sum of the
    amounts of the rows that parse to it, which is their sum where the
    amounts are in the exact range. *)
Theorem trend_points_by_date
  (L : Library) (source : DataFrame) (pc rc : option string) (df : DataFrame)
  (r : AggregateResult) (fr : Frames) (t : series) :
  aggregate L source pc rc df = inl (r, fr) ->
  sales_trend r = Some t ->
  exists i amt,
    position "orderdate" df = inl i /\
    position "sales_amount" df = inl amt /\
    StronglySorted key_lt t /\
    (forall k v,
       In (k, v) t
       <-> is_date k = true /\
           In k (map (date_of L i df) (rows df)) /\
           v = group_sum L (map (cell amt) (rows source))
                 (map (cell amt)
                    (filter (fun row => value_eqb (date_of L i df row) k)
                       (rows df)))) /\
    (exact (map (cell amt) (rows df)) = true ->
     forall k v,
       In (k, v) t ->
       v = Finite
             (nansum (map (cell amt)
                        (filter (fun row => value_eqb (date_of L i df row) k)
                           (rows df))))).
Proof.
  intros Hagg Ht.
  destruct (aggregate_inv _ _ _ _ _ _ _ Hagg) as (_ & _ & _ & Htr).
  destruct (has_column "orderdate" df) eqn:Hd.
  2:{ rewrite (trend_without_dates L source df Hd) in Htr. congruence. }
  destruct (trend_inv _ _ _ _ _ Hd Htr)
    as (i & amt & Hi & Ha & Hne & _ & _ & Hdn & Hs).
  rewrite Ht in Hs. injection Hs as ->.
  set (rs := map (with_date L i df) (filter (parsable L i df) (rows df))) in *.
  set (origin := map (cell amt) (rows source)).
  destruct (sums_spec L origin i amt rs Hdn) as [_ Hspec].
  rewrite (sort_values_key_sorted _
             (sums_sorted L origin _ (groups_by_key i amt rs Hdn))).
  assert (forall k v,
            In (k, v) (sums L origin (fold_left (add_row i amt) rs []))
            <-> is_date k = true /\
                In k (map (date_of L i df) (rows df)) /\
                v = group_sum L origin
                      (map (cell amt)
                         (filter (fun row => value_eqb (date_of L i df row) k)
                            (rows df)))) as Hpoints.
  { intros k v. rewrite Hspec. split.
    - intros (Hna & Hin & ->).
      pose proof (dated_group_cells L i amt df k Hne Hna) as Hg.
      fold rs in Hg. rewrite Hg.
      apply in_map_iff in Hin as (r' & <- & Hr').
      apply in_map_iff in Hr' as (row & <- & Hrow).
      apply filter_In in Hrow as [Hrow _].
      unfold with_date in *. rewrite cell_set_cell_same in *.
      repeat split; [now apply to_datetime_kind | now apply in_map].
    - intros (Hdate & Hin & ->).
      assert (isna k = false) as Hna
        by (destruct k; try discriminate; reflexivity).
      pose proof (dated_group_cells L i amt df k Hne Hna) as Hg.
      fold rs in Hg. rewrite Hg.
      repeat split; [assumption|].
      apply in_map_iff in Hin as (row & <- & Hrow).
      apply in_map_iff. exists (with_date L i df row). split.
      + unfold with_date. apply cell_set_cell_same.
      + apply in_map, filter_In. split; [assumption|].
        unfold parsable. now rewrite Hna. }
  exists i, amt. split; [assumption|]. split; [assumption|]. split.
  { apply sums_sorted. now apply groups_by_key. }
  split; [exact Hpoints|].
  intros He k v Hin. apply Hpoints in Hin as (_ & _ & ->).
  unfold group_sum. now rewrite (exact_filter (cell amt) _ _ He).
Qed.

Lemma trend_points_by_date_witness :
  exact [num 100; num 50; num 30; num 20] = true /\
  (exists i amt,
      position "orderdate" dated_table = inl i /\
      position "sales_amount" dated_table = inl amt /\
      StronglySorted key_lt
        [(VDate jan_5_2024, Finite (Q2Qc 30));
         (VDate jan_6_2024, Finite (Q2Qc 120))] /\
      (forall k v,
         In (k, v) [(VDate jan_5_2024, Finite (Q2Qc 30));
                    (VDate jan_6_2024, Finite (Q2Qc 120))]
         <-> is_date k = true /\
             In k (map (date_of examples i dated_table) (rows dated_table)) /\
             v = group_sum examples (map (cell amt) (rows dated_table))
                   (map (cell amt)
                      (filter (fun row =>
                                 value_eqb (date_of examples i dated_table row) k)
                         (rows dated_table)))) /\
      (exact (map (cell amt) (rows dated_table)) = true ->
       forall k v,
         In (k, v) [(VDate jan_5_2024, Finite (Q2Qc 30));
                    (VDate jan_6_2024, Finite (Q2Qc 120))] ->
         v = Finite
               (nansum (map (cell amt)
                          (filter (fun row =>
                                     value_eqb (date_of examples i dated_table row) k)
                             (rows dated_table)))))).
Proof.
  split; [reflexivity|].
  apply (trend_points_by_date examples dated_table (Some "product")
           (Some "region") dated_table dated_result dated_frames).
  - exact dated_table_aggregate.
  - reflexivity.
Defined.

(** ** What a rendered page shows *)

Lemma has_column_assign_other (name other : string) (f : list value -> value)
  (df : DataFrame) :
  name <> other -> has_column name (assign other f df) = has_column name df.
Proof.
  intros Hne. unfold has_column, assign.
  destruct (existsb (String.eqb other) (columns df)); simpl; [reflexivity|].
  rewrite existsb_app. simpl.
  destruct (String.eqb_spec name other); [contradiction|].
  now rewrite !orb_false_r.
Qed.

Lemma resolve_amount_has_column (L : Library) (df d : DataFrame)
  (name : string) :
  resolve_amount L df = inl d -> name <> "sales_amount" ->
  has_column name d = has_column name (normalize_columns L df).
Proof.
  intros H Hne.
  destruct (resolve_amount_inv _ _ _ H) as (src & i & _ & _ & _ & ->).
  now apply has_column_assign_other.
Qed.

Lemma resolve_amount_product_column (L : Library) (df d : DataFrame) :
  resolve_amount L df = inl d ->
  product_column d = product_column (normalize_columns L df).
Proof.
  intros H. unfold product_column.
  now rewrite !(resolve_amount_has_column L df d _ H) by discriminate.
Qed.

Lemma resolve_amount_region_column (L : Library) (df d : DataFrame) :
  resolve_amount L df = inl d ->
  region_column d = region_column (normalize_columns L df).
Proof.
  intros H. unfold region_column.
  now rewrite !(resolve_amount_has_column L df d _ H) by discriminate.
Qed.

Lemma resolve_amount_rows (L : Library) (df d : DataFrame) :
  resolve_amount L df = inl d -> List.length (rows d) = List.length (rows df).
Proof.
  intros H.
  destruct (resolve_amount_inv _ _ _ H) as (src & i & _ & _ & _ & ->).
  unfold assign. destruct (existsb _ _); simpl; apply length_map.
Qed.

(** The steps behind a rendered page. *)
Lemma main_rendered_inv (L : Library) (df : DataFrame) (sel : Selections)
  (r : AggregateResult) :
  main L (Some df) sel = Rendered r ->
  exists d f fr,
    empty df = false /\
    resolve_amount L df = inl d /\
    apply_filters (product_column d) (region_column d) sel d = inl f /\
    aggregate L d (product_column d) (region_column d) f = inl (r, fr).
Proof.
  unfold main. destruct (empty df); [discriminate|].
  destruct (pipeline L sel df) as [r'|e] eqn:Hp; [|discriminate].
  intros [= <-]. unfold pipeline, bind in Hp.
  destruct (filtered L sel df) as [[[[d pc] rc] f]|e] eqn:Hf; [|discriminate].
  destruct (aggregate L d pc rc f) as [[r0 fr]|e] eqn:Ha; [|discriminate].
  injection Hp as <-. simpl.
  destruct (filtered_inv _ _ _ _ _ _ _ Hf) as (Hr & -> & -> & Hap).
  now exists d, f, fr.
Qed.

(** X9. The transaction count on the page is the number of rows of the
    resolved table that pass the test of every bound multiselect; it is
    never more than the number of rows of the upload. *)
Theorem count_is_the_rows_kept (L : Library) (df : DataFrame)
  (sel : Selections) (r : AggregateResult) :
  main L (Some df) sel = Rendered r ->
  exists d,
    resolve_amount L df = inl d /\
    num_transactions (metrics r)
    = List.length
        (filter (keeps (columns d) (product_column d) (region_column d) sel)
           (rows d)) /\
    num_transactions (metrics r) <= List.length (rows df).
Proof.
  intros H.
  destruct (main_rendered_inv _ _ _ _ H) as (d & f & fr & _ & Hr & Hf & Ha).
  destruct (aggregate_inv _ _ _ _ _ _ _ Ha) as (Hk & _).
  destruct (kpis_inv _ _ _ _ Hk) as (i & _ & _ & _ & _ & _ & Hn).
  destruct (apply_filters_keeps _ _ _ _ _ Hf) as (_ & Hrows & _).
  exists d. rewrite Hn, Hrows. repeat split; [assumption|].
  rewrite <- (resolve_amount_rows L df d Hr). apply filter_length_le.
Qed.

(** X11. On a rendered page the product chart is there exactly when a
    product column is bound, the region chart exactly when a region column
    is bound, and the trend exactly when a label normalizes to
    [orderdate]. *)
Theorem charts_follow_the_columns (L : Library) (df : DataFrame)
  (sel : Selections) (r : AggregateResult) :
  main L (Some df) sel = Rendered r ->
  (sales_by_product r = None
   <-> product_column (normalize_columns L df) = None) /\
  (sales_by_region r = None
   <-> region_column (normalize_columns L df) = None) /\
  (sales_trend r = None
   <-> ~ In "orderdate" (map (normalize L) (columns df))).
Proof.
  intros H.
  destruct (main_rendered_inv _ _ _ _ H) as (d & f & fr & _ & Hr & Hf & Ha).
  destruct (aggregate_inv _ _ _ _ _ _ _ Ha) as (_ & Hp & Hg & Ht).
  rewrite (resolve_amount_product_column _ _ _ Hr) in Hp.
  rewrite (resolve_amount_region_column _ _ _ Hr) in Hg.
  repeat split.
  - intros E. destruct (product_column (normalize_columns L df)); [|reflexivity].
    simpl in Hp. unfold bind in Hp. destruct (sales_by L d s f); [|discriminate].
    injection Hp as Hp. congruence.
  - intros E. rewrite E in Hp. simpl in Hp. now injection Hp as <-.
  - intros E. destruct (region_column (normalize_columns L df)); [|reflexivity].
    simpl in Hg. unfold bind in Hg. destruct (sales_by L d s f); [|discriminate].
    injection Hg as Hg. congruence.
  - intros E. rewrite E in Hg. simpl in Hg. now injection Hg as <-.
  - intros E Hin.
    assert (has_column "orderdate" f = true) as Hd.
    { destruct (apply_filters_keeps _ _ _ _ _ Hf) as (Hc & _).
      rewrite (has_column_columns _ d f Hc).
      rewrite (resolve_amount_has_column L df d _ Hr) by discriminate.
      now apply has_column_In. }
    destruct (trend_inv _ _ _ _ _ Hd Ht)
      as (i & amt & _ & _ & _ & _ & _ & _ & Hs).
    congruence.
  - intros Hnin.
    assert (has_column "orderdate" f = false) as Hd.
    { destruct (apply_filters_keeps _ _ _ _ _ Hf) as (Hc & _).
      rewrite (has_column_columns _ d f Hc).
      rewrite (resolve_amount_has_column L df d _ Hr) by discriminate.
      now apply has_column_false. }
    rewrite (trend_without_dates L d f Hd) in Ht. now injection Ht as <-.
Qed.

Lemma count_is_the_rows_kept_witness :
  exists d,
    resolve_amount examples orders_upload = inl d /\
    2 = List.length
          (filter (keeps (columns d) (product_column d) (region_column d)
                     cars_us_2003)
             (rows d)) /\
    2 <= List.length (rows orders_upload).
Proof.
  apply (count_is_the_rows_kept examples orders_upload cars_us_2003
           (mkAggregate (mkKPIs (Finite (Q2Qc 120)) (Finite (Q2Qc 60)) 2)
              (Some [(str "Cars", Finite (Q2Qc 120))])
              (Some [(str "US", Finite (Q2Qc 120))])
              None)).
  exact orders_render.
Defined.

Lemma charts_follow_the_columns_witness :
  (Some [(str "Cars", Finite (Q2Qc 120))] = None
   <-> product_column (normalize_columns examples orders_upload) = None) /\
  (Some [(str "US", Finite (Q2Qc 120))] = None
   <-> region_column (normalize_columns examples orders_upload) = None) /\
  (@None series = None
   <-> ~ In "orderdate" (map (normalize examples) (columns orders_upload))).
Proof.
  apply (charts_follow_the_columns examples orders_upload cars_us_2003
           (mkAggregate (mkKPIs (Finite (Q2Qc 120)) (Finite (Q2Qc 60)) 2)
              (Some [(str "Cars", Finite (Q2Qc 120))])
              (Some [(str "US", Finite (Q2Qc 120))])
              None)).
  exact orders_render.
Defined.

(** ** A multiselect without a column selects nothing *)

Lemma bind_ext {A B : Type} (m : result A) (k k' : A -> result B) :
  (forall x, m = inl x -> k x = k' x) -> bind m k = bind m k'.
Proof. destruct m; simpl; auto. Qed.

Lemma optional_select_columns (c : option string) (sel : list value)
  (d d' : DataFrame) :
  match c with
  | Some c => select_isin c sel d
  | None => ok d
  end = inl d' -> columns d' = columns d.
Proof. intros H. now destruct (optional_select_inv c sel d d' H). Qed.

Lemma apply_filters_ext (pc rc : option string) (sel sel' : Selections)
  (df : DataFrame) :
  (pc <> None -> product_filter sel = product_filter sel') ->
  (rc <> None -> region_filter sel = region_filter sel') ->
  (has_column "status" df = true -> status_filter sel = status_filter sel') ->
  (has_column "year_id" df = true -> year_filter sel = year_filter sel') ->
  apply_filters pc rc sel df = apply_filters pc rc sel' df.
Proof.
  intros Hp Hr Hs Hy. unfold apply_filters.
  assert (match pc with
          | Some c => select_isin c (product_filter sel) df
          | None => ok df
          end
          = match pc with
            | Some c => select_isin c (product_filter sel') df
            | None => ok df
            end) as <-.
  { destruct pc; [|reflexivity]. now rewrite Hp. }
  apply bind_ext. intros d1 H1. apply optional_select_columns in H1.
  assert (match rc with
          | Some c => select_isin c (region_filter sel) d1
          | None => ok d1
          end
          = match rc with
            | Some c => select_isin c (region_filter sel') d1
            | None => ok d1
            end) as <-.
  { destruct rc; [|reflexivity]. now rewrite Hr. }
  apply bind_ext. intros d2 H2. apply optional_select_columns in H2.
  assert ((if has_column "status" d2
           then select_isin "status" (status_filter sel) d2 else ok d2)
          = (if has_column "status" d2
             then select_isin "status" (status_filter sel') d2 else ok d2)) as <-.
  { destruct (has_column "status" d2) eqn:E; [|reflexivity].
    rewrite Hs; [reflexivity|].
    rewrite <- (has_column_columns "status" df d2) by congruence. exact E. }
  apply bind_ext. intros d3 H3.
  assert (columns d3 = columns d2) as C3.
  { now destruct (fixed_select_inv _ _ _ _ H3). }
  destruct (has_column "year_id" d3) eqn:E; [|reflexivity].
  rewrite Hy; [reflexivity|].
  rewrite <- (has_column_columns "year_id" df d3) by congruence. exact E.
Qed.
(** X10. What a multiselect returns matters only when its column is bound:
    two runs on the same upload whose selections agree on the bound filters
    end in the same outcome, whatever is selected for the others. *)
Theorem unbound_selections_are_ignored
  (L : Library) (df : DataFrame) (sel sel' : Selections) :
  (product_column (normalize_columns L df) <> None ->
   product_filter sel = product_filter sel') ->
  (region_column (normalize_columns L df) <> None ->
   region_filter sel = region_filter sel') ->
  (In "status" (map (normalize L) (columns df)) ->
   status_filter sel = status_filter sel') ->
  (In "year_id" (map (normalize L) (columns df)) ->
   year_filter sel = year_filter sel') ->
  main L (Some df) sel = main L (Some df) sel'.
Proof.
  intros Hp Hr Hs Hy. unfold main. destruct (empty df); [reflexivity|].
  assert (filtered L sel df = filtered L sel' df) as Hf.
  { unfold filtered. apply bind_ext. intros d Hd. f_equal.
    apply apply_filters_ext.
    - now rewrite (resolve_amount_product_column _ _ _ Hd).
    - now rewrite (resolve_amount_region_column _ _ _ Hd).
    - rewrite (resolve_amount_has_column L df d _ Hd) by discriminate.
      intros E. now apply Hs, (has_column_In "status" (normalize_columns L df)).
    - rewrite (resolve_amount_has_column L df d _ Hd) by discriminate.
      intros E. now apply Hy, (has_column_In "year_id" (normalize_columns L df)). }
  unfold pipeline. now rewrite Hf.
Qed.

Lemma unbound_selections_are_ignored_witness :
  main examples (Some dated_upload) dated_selections
  = main examples (Some dated_upload)
      (mkSelections [str "A"; str "B"] [str "EMEA"; str "APAC"]
         [str "Shipped"] [num 2003]).
Proof.
  apply (unbound_selections_are_ignored examples dated_upload).
  - reflexivity.
  - reflexivity.
  - vm_compute. intuition discriminate.
  - vm_compute. intuition discriminate.
Defined.

(** ** Reading the upload *)

Lemma endswith_app (p suffix : string) : endswith suffix (p ++ suffix) = true.
Proof.
  induction p as [|c p IH]; simpl.
  - destruct suffix as [|a t]; [reflexivity|].
    change (String.eqb (String a t) (String a t) || endswith (String a t) t
            = true).
    now rewrite String.eqb_refl.
  - rewrite IH. apply orb_true_r.
Qed.

Lemma endswith_inv (suffix s : string) :
  endswith suffix s = true -> exists p, s = (p ++ suffix)%string.
Proof.
  induction s as [|c s IH].
  - simpl. rewrite orb_false_r. intros H. apply String.eqb_eq in H.
    subst. now exists "".
  - intros H. simpl in H. apply orb_true_iff in H as [H|H].
    + apply String.eqb_eq in H. subst. now exists "".
    + destruct (IH H) as [p ->]. now exists (String c p).
Qed.

Lemma last_char_app (p s : string) :
  s <> "" -> last_char (p ++ s) = last_char s.
Proof.
  intros Hs. induction p as [|c p IH]; simpl; [reflexivity|].
  destruct (p ++ s)%string eqn:E; [|assumption].
  destruct p; simpl in E; [contradiction | discriminate].
Qed.

Lemma xlsx_is_not_csv (p : string) : endswith ".csv" (p ++ ".xlsx") = false.
Proof.
  destruct (endswith ".csv" (p ++ ".xlsx")) eqn:E; [|reflexivity].
  apply endswith_inv in E as [q E].
  apply (f_equal last_char) in E.
  rewrite !last_char_app in E by discriminate. discriminate E.
Qed.

Section LoadingFacts.

Variable read_csv : list ascii -> DataFrame + read_error.
Variable read_excel : list ascii -> DataFrame + read_error.

(** X12. [load_data] picks the reader by the end of the file's name, in
    the case it is written in: a name ending in [.csv] goes to [read_csv]
    alone, a name ending in [.xlsx] to [read_excel] alone, and any other
    name is refused as unsupported without being read. *)
Theorem reader_follows_the_extension (file : UploadedFile) :
  (forall p, file_name file = (p ++ ".csv")%string ->
     load_data read_csv read_excel file = guarded (read_csv (content file))) /\
  (forall p, file_name file = (p ++ ".xlsx")%string ->
     load_data read_csv read_excel file = guarded (read_excel (content file))) /\
  ((forall p, file_name file <> (p ++ ".csv")%string) ->
   (forall p, file_name file <> (p ++ ".xlsx")%string) ->
   load_data read_csv read_excel file = (empty_frame, Some UnsupportedType)).
Proof.
  unfold load_data. repeat split.
  - intros p ->. now rewrite endswith_app.
  - intros p ->. now rewrite xlsx_is_not_csv, endswith_app.
  - intros Hc Hx.
    destruct (endswith ".csv" (file_name file)) eqn:Ec.
    { apply endswith_inv in Ec as [p Hp]. now apply Hc in Hp. }
    destruct (endswith ".xlsx" (file_name file)) eqn:Ex; [|reflexivity].
    apply endswith_inv in Ex as [p Hp]. now apply Hx in Hp.
Qed.

(** X13. An upload that [load_data] answers with a message (a name of the
    wrong type, an empty or invalid file, any failure of the reader) comes
    back as the empty frame, and the page shows the no-data warning:
    nothing is resolved, filtered or aggregated. *)
Theorem failed_upload_shows_no_data
  (L : Library) (file : UploadedFile) (sel : Selections) :
  snd (load_data read_csv read_excel file) <> None ->
  fst (load_data read_csv read_excel file) = empty_frame /\
  dashboard read_csv read_excel L (Some file) sel = NoData.
Proof.
  intros H.
  assert (fst (load_data read_csv read_excel file) = empty_frame) as E.
  { unfold load_data, guarded in *.
    destruct (endswith ".csv" (file_name file)).
    - destruct (read_csv (content file)) as [df|[|]]; simpl in *;
        [now contradiction H | reflexivity | reflexivity].
    - destruct (endswith ".xlsx" (file_name file)); [|reflexivity].
      destruct (read_excel (content file)) as [df|[|]]; simpl in *;
        [now contradiction H | reflexivity | reflexivity]. }
  split; [assumption|]. unfold dashboard. simpl. now rewrite E.
Qed.

End LoadingFacts.

Lemma failed_upload_shows_no_data_witness :
  fst (load_data (fun _ => inr EmptyDataError) (fun _ => inr OtherError)
         (mkFile "orders.CSV" [])) = empty_frame /\
  dashboard (fun _ => inr EmptyDataError) (fun _ => inr OtherError)
    examples (Some (mkFile "orders.CSV" [])) (mkSelections [] [] [] [])
  = NoData.
Proof.
  apply (failed_upload_shows_no_data
           (fun _ => inr EmptyDataError) (fun _ => inr OtherError)
           examples (mkFile "orders.CSV" [])).
  vm_compute. discriminate.
Defined.
(** ** The order of the rows *)

Lemma filter_perm {A : Type} (p : A -> bool) (l l' : list A) :
  Permutation l l' -> Permutation (filter p l) (filter p l').
Proof.
  induction 1 as [|x l l' _ IH|x y l|l l' l'' _ IH1 _ IH2]; simpl.
  - constructor.
  - destruct (p x); [now constructor | assumption].
  - destruct (p x), (p y); try reflexivity. apply perm_swap.
  - now transitivity (filter p l').
Qed.

Lemma forallb_perm {A : Type} (p : A -> bool) (l l' : list A) :
  Permutation l l' -> forallb p l = forallb p l'.
Proof.
  induction 1 as [|x l l' _ IH|x y l|l l' l'' _ IH1 _ IH2]; simpl.
  - reflexivity.
  - now rewrite IH.
  - now rewrite !andb_assoc, (andb_comm (p y)).
  - congruence.
Qed.

Lemma existsb_perm {A : Type} (p : A -> bool) (l l' : list A) :
  Permutation l l' -> existsb p l = existsb p l'.
Proof.
  induction 1 as [|x l l' _ IH|x y l|l l' l'' _ IH1 _ IH2]; simpl.
  - reflexivity.
  - now rewrite IH.
  - now rewrite !orb_assoc, (orb_comm (p y)).
  - congruence.
Qed.

Lemma sorted_unique {A : Type} (R : A -> A -> Prop) (l1 l2 : list A) :
  (forall a b, R a b -> R b a -> False) ->
  StronglySorted R l1 -> StronglySorted R l2 ->
  (forall x, In x l1 <-> In x l2) -> l1 = l2.
Proof.
  intros Hasym H1. revert l2.
  induction H1 as [|x t1 Ht1 IH Hx]; intros l2 H2 Hin.
  - destruct l2 as [|y t2]; [reflexivity|].
    exfalso. apply (Hin y). now left.
  - destruct H2 as [|y t2 Ht2 Hy].
    { exfalso. apply (Hin x). now left. }
    rewrite Forall_forall in Hx, Hy.
    assert (x = y) as <-.
    { destruct (proj1 (Hin x) (or_introl eq_refl)) as [E|Ix]; [now symmetry|].
      destruct (proj2 (Hin y) (or_introl eq_refl)) as [E|Iy]; [assumption|].
      exfalso. apply (Hasym x y); [now apply Hx | now apply Hy]. }
    f_equal. apply IH; [assumption|]. intros z. split; intros Hz.
    + destruct (proj1 (Hin z) (or_intror Hz)) as [E|Iz]; [|assumption].
      subst z. exfalso. apply (Hasym x x); now apply Hx.
    + destruct (proj2 (Hin z) (or_intror Hz)) as [E|Iz]; [|assumption].
      subst z. exfalso. apply (Hasym x x); now apply Hy.
Qed.
Lemma key_lt_asym {A : Type} (a b : value * A) :
  key_lt a b -> key_lt b a -> False.
Proof.
  unfold key_lt. intros H1 H2. apply value_ltb_asym in H1. congruence.
Qed.

Lemma group_cells_perm (key amt : nat) (k : value) (rs rs' : list (list value)) :
  Permutation rs rs' ->
  Permutation (group_cells key amt k rs) (group_cells key amt k rs').
Proof.
  intros P. unfold group_cells. apply Permutation_map. now apply filter_perm.
Qed.

Lemma group_sum_perm (L : Library) (origin cs cs' : list value) :
  exact cs = true -> Permutation cs cs' ->
  group_sum L origin cs = group_sum L origin cs'.
Proof.
  intros He P. unfold group_sum.
  rewrite <- (exact_perm _ _ P), He. f_equal. now apply nansum_perm.
Qed.

Lemma groupby_sum_perm (L : Library) (origin : list value) (key amt : nat)
  (rs rs' : list (list value)) :
  exact (map (cell amt) rs) = true ->
  Permutation rs rs' ->
  groupby_sum L origin key amt rs = groupby_sum L origin key amt rs'.
Proof.
  intros He P. unfold groupby_sum.
  assert (dates_with_numbers (map (cell key) rs)
          = dates_with_numbers (map (cell key) rs')) as E.
  { unfold dates_with_numbers.
    now rewrite !(existsb_perm _ _ _ (Permutation_map (cell key) P)). }
  rewrite <- E, <- (forallb_perm numeric _ _ (Permutation_map (cell amt) P)).
  destruct (dates_with_numbers (map (cell key) rs)) eqn:Hd; [reflexivity|].
  destruct (forallb numeric (map (cell amt) rs)); [|reflexivity].
  unfold ok. f_equal.
  assert (dates_with_numbers (map (cell key) rs') = false) as Hd' by congruence.
  apply (sorted_unique key_lt).
  - apply key_lt_asym.
  - apply sums_sorted. now apply groups_by_key.
  - apply sums_sorted. now apply groups_by_key.
  - intros [k v].
    rewrite (proj2 (sums_spec L origin key amt rs Hd) k v).
    rewrite (proj2 (sums_spec L origin key amt rs' Hd') k v).
    rewrite (group_sum_perm L origin _ _
               (exact_group_cells key amt k rs He)
               (group_cells_perm key amt k rs rs' P)).
    split; intros (Hna & Hin & Hv); repeat split; try assumption.
    + eapply Permutation_in; [apply Permutation_map; exact P | assumption].
    + eapply Permutation_in;
        [apply Permutation_map; symmetry; exact P | assumption].
Qed.

(** X14. Where the amounts are in the exact range, the KPIs and the
    category series do not depend on the order of the rows: two tables with
    the same labels whose rows are a permutation of one another get the
    same total, mean and count and, column by column, the same grouped
    series (or fail alike). *)
Theorem row_order_does_not_matter (L : Library) (source : DataFrame)
  (c : string) (df df' : DataFrame) :
  columns df' = columns df ->
  Permutation (rows df) (rows df') ->
  (forall i, position "sales_amount" df = inl i ->
             exact (map (cell i) (rows df)) = true) ->
  kpis L source df' = kpis L source df /\
  sales_by L source c df' = sales_by L source c df.
Proof.
  intros Hc P He. split.
  - unfold kpis, bind. rewrite (position_columns _ df df' Hc).
    destruct (position "sales_amount" df) as [i|e]; [|reflexivity].
    pose proof (Permutation_map (cell i) P) as Pm.
    specialize (He i eq_refl).
    unfold series_sum, series_mean, count_valid.
    rewrite <- (forallb_perm numeric _ _ Pm), <- (nansum_perm _ _ Pm).
    rewrite <- (exact_perm _ _ Pm), He.
    rewrite <- (Permutation_length (filter_perm (fun v => negb (isna v)) _ _ Pm)).
    now rewrite <- (Permutation_length P).
  - unfold sales_by, bind. rewrite !(position_columns _ df df' Hc).
    destruct (position c df) as [key|e]; [|reflexivity].
    destruct (position "sales_amount" df) as [amt|e]; [|reflexivity].
    now rewrite (groupby_sum_perm L _ key amt _ _ (He amt eq_refl) P).
Qed.

Lemma row_order_does_not_matter_witness :
  kpis examples products_table products_reordered
  = kpis examples products_table products_table
  /\ sales_by examples products_table "productline" products_reordered
     = sales_by examples products_table "productline" products_table.
Proof.
  apply (row_order_does_not_matter examples products_table "productline"
           products_table products_reordered).
  - reflexivity.
  - simpl. apply Permutation_sym.
    apply (Permutation_cons_app [[str "A"; num 100]; [str "B"; num 50]] []).
    reflexivity.
  - intros i [= <-]. reflexivity.
Defined.

(** ** Wider selections, and the default view *)

Lemma filter_subseq_le {A : Type} (p q : A -> bool) (l : list A) :
  (forall x, p x = true -> q x = true) -> subseq (filter p l) (filter q l).
Proof.
  intros H. induction l as [|x l IH]; simpl; [constructor|].
  destruct (p x) eqn:E.
  - rewrite (H x E). now constructor.
  - destruct (q x); [now constructor | assumption].
Qed.

Lemma accepts_incl (labels : list string) (c : option string)
  (sel sel' : list value) (r : list value) :
  incl sel sel' -> accepts labels c sel r = true -> accepts labels c sel' r = true.
Proof.
  intros Hi. unfold accepts. destruct c as [c|]; [|trivial].
  destruct (index_of c labels); [|trivial].
  rewrite !isin_In. apply Hi.
Qed.

(** X15. Widening the selections never removes a row: if each multiselect
    returns at least what it returned before, the rows kept before are a
    subsequence of the rows kept now. *)
Theorem wider_selections_keep_more (pc rc : option string)
  (sel sel' : Selections) (df f f' : DataFrame) :
  apply_filters pc rc sel df = inl f ->
  apply_filters pc rc sel' df = inl f' ->
  incl (product_filter sel) (product_filter sel') ->
  incl (region_filter sel) (region_filter sel') ->
  incl (status_filter sel) (status_filter sel') ->
  incl (year_filter sel) (year_filter sel') ->
  subseq (rows f) (rows f').
Proof.
  intros H H' Ip Ir Is Iy.
  destruct (apply_filters_keeps _ _ _ _ _ H) as (_ & -> & _).
  destruct (apply_filters_keeps _ _ _ _ _ H') as (_ & -> & _).
  apply filter_subseq_le. intros r. unfold keeps.
  rewrite !andb_true_iff. intros [[[A B] C] D].
  repeat split; eapply accepts_incl; eassumption.
Qed.

Lemma wider_selections_keep_more_witness :
  subseq (rows orders_filtered) (rows orders_resolved).
Proof.
  apply (wider_selections_keep_more (Some "productline") (Some "country")
           cars_us_2003
           (mkSelections [str "Cars"; str "Ships"] [str "US"; str "FR"]
              [str "Shipped"; str "Cancelled"] [num 2003; num 2004])
           orders_resolved orders_filtered orders_resolved).
  - by_computation.
  - by_computation.
  - intros v [<-|[]]. now left.
  - apply incl_refl.
  - intros v [<-|[]]. now left.
  - intros v [<-|[]]. now left.
Defined.
(** The filters read the status and the year column where the table has
    them: where they succeed, each of these labels names one column. *)
Lemma apply_filters_fixed_positions (pc rc : option string) (sel : Selections)
  (df f : DataFrame) (name : string) :
  apply_filters pc rc sel df = inl f ->
  name = "status" \/ name = "year_id" ->
  has_column name df = true ->
  exists i, position name df = inl i.
Proof.
  intros H Hname Hhas.
  destruct (apply_filters_inv _ _ _ _ _ H)
    as (d1 & d2 & d3 & H1 & H2 & H3 & H4).
  apply optional_select_inv in H1 as (C1 & _ & _).
  apply optional_select_inv in H2 as (C2 & _ & _).
  assert (columns d2 = columns df) as C by congruence.
  destruct Hname as [-> | ->].
  - rewrite (has_column_columns "status" df d2 C), Hhas in H3.
    destruct (select_isin_inv _ _ _ _ H3) as (i & Hi & _).
    exists i. now rewrite <- (position_columns "status" df d2 C).
  - pose proof H3 as H3'. apply fixed_select_inv in H3' as (C3 & _).
    assert (columns d3 = columns df) as C' by congruence.
    rewrite (has_column_columns "year_id" df d3 C'), Hhas in H4.
    destruct (select_year_inv _ _ _ H4) as (i & Hi & _).
    exists i. now rewrite <- (position_columns "year_id" df d3 C').
Qed.

(** X16. In the default view, where every multiselect returns at least the
    options it offers, a rendered page counts every row of the upload and,
    where the amounts are in the exact range, its total is the sum of the
    whole amount column. *)
Theorem default_view_shows_every_row
  (L : Library) (df d : DataFrame) (sel : Selections) (r : AggregateResult) :
  main L (Some df) sel = Rendered r ->
  resolve_amount L df = inl d ->
  incl (options (product_column d) d) (product_filter sel) ->
  incl (options (region_column d) d) (region_filter sel) ->
  incl (options (bound "status" (columns d)) d) (status_filter sel) ->
  incl (options (bound "year_id" (columns d)) d) (year_filter sel) ->
  num_transactions (metrics r) = List.length (rows df) /\
  exists xs,
    column "sales_amount" d = Some xs /\
    (exact xs = true -> total_sales (metrics r) = Finite (nansum xs)).
Proof.
  intros H Hd Ip Ir Is Iy.
  destruct (main_rendered_inv _ _ _ _ H) as (d' & f & fr & _ & Hr & Hf & Ha).
  assert (d' = d) as -> by congruence.
  destruct (aggregate_inv _ _ _ _ _ _ _ Ha) as (Hk & _).
  destruct (kpis_inv _ _ _ _ Hk) as (i & Hi & _ & _ & Ht & _ & Hn).
  destruct (apply_filters_keeps _ _ _ _ _ Hf) as (Hc & Hrows & _).
  destruct (apply_filters_positions _ _ _ _ _ Hf) as [Pp Pr].
  assert (forall name, bound name (columns d) = Some name ->
                       has_column name d = true) as Hbound.
  { intros name. unfold bound. fold (has_column name d).
    now destruct (has_column name d). }
  assert (rows f = rows d) as E.
  { rewrite Hrows. apply forallb_filter_id, forallb_forall. intros row Hrow.
    unfold keeps. rewrite !accepts_options; try assumption; try reflexivity.
    - intros name Hb.
      assert (name = "year_id") as ->
        by (unfold bound in Hb; destruct (existsb _ _); congruence).
      apply (apply_filters_fixed_positions _ _ _ _ _ _ Hf); auto.
    - intros name Hb.
      assert (name = "status") as ->
        by (unfold bound in Hb; destruct (existsb _ _); congruence).
      apply (apply_filters_fixed_positions _ _ _ _ _ _ Hf); auto.
    - intros name Hb. destruct (Pr name Hb) as [j Hj].
      exists j. now rewrite <- (position_columns name d f Hc).
    - intros name Hb. destruct (Pp name Hb) as [j Hj].
      exists j. now rewrite <- (position_columns name d f Hc). }
  rewrite E in Ht, Hn. split.
  - rewrite Hn. now apply (resolve_amount_rows L).
  - exists (map (cell i) (rows d)). split.
    + apply column_position. now rewrite <- (position_columns _ d f Hc).
    + intros He. now rewrite He in Ht.
Qed.

Lemma default_view_shows_every_row_witness :
  exact [num 100; num 50; num 30; num 20] = true /\
  (4 = List.length (rows orders_upload) /\
    exists xs,
      column "sales_amount" orders_resolved = Some xs /\
      (exact xs = true -> Finite (Q2Qc 200) = Finite (nansum xs))).
Proof.
  split; [reflexivity|].
  apply (default_view_shows_every_row examples orders_upload orders_resolved
           every_order every_order_page).
  - by_computation.
  - reflexivity.
  - apply incl_refl.
  - apply incl_refl.
  - apply incl_refl.
  - apply incl_refl.
Defined.
